(** * Transmission diagnostic: scoring and questionnaire assembly

    A shallow embedding of the core of the diagnostic tool:
    - [my_package/scoring.py]: [score_question], [score_domain],
      [score_global];
    - [my_package/questionnaire.py]: [classify_domain],
      [extract_weak_points], [extract_strong_points],
      [generate_empty_answers], [generate_sample_answers];
    - [my_package/diagnostic_model.py]: [build_domains_for_sector] over the
      shared catalogue [DOMAINS_COMMON] / [SECTORS];
    - [dashboard.py]: [classify_score], [format_answer];
    - [generate_sample_answers.py]: [generate_sample_answers].

    Python floats are IEEE 754 binary64 numbers, modelled by Rocq's primitive
    floats, so every score computed here is bit for bit the score Python
    computes.  Python dicts keep insertion order, which the float sums and
    the stable sorts below depend on: a dict is an association list whose
    keys are pairwise distinct. *)

From Stdlib Require Import ZArith List String Ascii Bool Lia Floats.
From Stdlib Require Import Sorted Permutation.
From stdpp Require Import base option list strings.

Local Open Scope Z_scope.

(* ------------------------------------------------------------------ *)
(** * Exceptions and results *)
(* ------------------------------------------------------------------ *)

(** The exception classes the modelled code can raise. *)
Inductive exn : Set :=
| ValueError
| TypeError
| OverflowError
| AttributeError.

Inductive result (A : Type) : Type :=
| Ok (a : A)
| Raise (e : exn).

Arguments Ok {A} a.
Arguments Raise {A} e.

#[global] Instance result_ret : MRet result := fun _ a => Ok a.
#[global] Instance result_bind : MBind result := fun _ _ f m =>
  match m with
  | Ok a => f a
  | Raise e => Raise e
  end.

(* ------------------------------------------------------------------ *)
(** * Python values and built-ins *)
(* ------------------------------------------------------------------ *)

Module Py.

(** Strings are sequences of code points; the model covers the code points
    below 256 (one [ascii] each), which contain every character the scoring
    code tests for. *)

(** Raw answer values, as [json.load] produces them: [None], a bool, an
    int, a float, a str, or a container (list or dict) of which only the
    length matters to [int] and [bool]. *)
Inductive value : Type :=
| None_
| Bool (b : bool)
| Int (z : Z)
| Float (f : float)
| Str (s : string)
| Container (len : nat).

Definition code (c : ascii) : nat := nat_of_ascii c.

(** [str.isspace] on one character (code points below 256). *)
Definition isspace (c : ascii) : bool :=
  let n := code c in
  ((9 <=? n) && (n <=? 13) || (28 <=? n) && (n <=? 32)
   || (n =? 133) || (n =? 160))%nat.

(** [str.lower] on one character (code points below 256). *)
Definition lower_char (c : ascii) : ascii :=
  let n := code c in
  if ((65 <=? n) && (n <=? 90)
      || (192 <=? n) && (n <=? 222) && negb (n =? 215))%nat
  then ascii_of_nat (n + 32) else c.

Fixpoint lower (s : string) : string :=
  match s with
  | EmptyString => EmptyString
  | String c r => String (lower_char c) (lower r)
  end.

Fixpoint lstrip (space : ascii -> bool) (s : string) : string :=
  match s with
  | EmptyString => EmptyString
  | String c r => if space c then lstrip space r else s
  end.

Fixpoint rstrip (space : ascii -> bool) (s : string) : string :=
  match s with
  | EmptyString => EmptyString
  | String c r =>
      match rstrip space r with
      | EmptyString => if space c then EmptyString else String c EmptyString
      | r' => String c r'
      end
  end.

(** [str.strip()] *)
Definition strip (s : string) : string := rstrip isspace (lstrip isspace s).

(** The white space that [int] skips around a literal: of the code points
    below 128 only tab to carriage return and the space, unlike
    [str.isspace]. *)
Definition int_isspace (c : ascii) : bool :=
  let n := code c in
  ((9 <=? n) && (n <=? 13) || (n =? 32) || (n =? 133) || (n =? 160))%nat.

Definition is_digit (c : ascii) : bool :=
  ((48 <=? code c) && (code c <=? 57))%nat.

Definition digit_value (c : ascii) : Z := Z.of_nat (code c - 48).

(** [sys.int_info.default_max_str_digits]: a decimal literal with more
    digits is refused by [int] with a [ValueError]. *)
Definition int_max_str_digits : nat := 4300.

(** The digits of a decimal literal: digits, with single underscores
    allowed between two digits.  Returns the number read and the count of
    its digits. *)
Fixpoint int_digits (s : string) (prev_digit : bool) (acc : Z) (n : nat)
  : option (Z * nat) :=
  match s with
  | EmptyString => if prev_digit then Some (acc, n) else None
  | String c r =>
      if is_digit c then int_digits r true (10 * acc + digit_value c) (S n)
      else if Ascii.eqb c "_"
           then (if prev_digit then int_digits r false acc n else None)
           else None
  end.

(** [int(s)] for a str [s], base 10. *)
Definition int_of_str (s : string) : result Z :=
  let t := rstrip int_isspace (lstrip int_isspace s) in
  let '(negative, body) :=
    match t with
    | String "-" r => (true, r)
    | String "+" r => (false, r)
    | _ => (false, t)
    end in
  match int_digits body false 0 0%nat with
  | Some (z, n) =>
      if (int_max_str_digits <? n)%nat then Raise ValueError
      else Ok (if negative then - z else z)
  | None => Raise ValueError
  end.

(** [int(f)] for a float [f]: truncation toward zero. *)
Definition int_of_float (f : float) : result Z :=
  match Prim2SF f with
  | S754_zero _ => Ok 0
  | S754_infinity _ => Raise OverflowError
  | S754_nan => Raise ValueError
  | S754_finite s m e => Ok (cond_Zopp s (Z.shiftl (Zpos m) e))
  end.

(** [int(x)] *)
Definition int (x : value) : result Z :=
  match x with
  | None_ => Raise TypeError
  | Bool b => Ok (if b then 1 else 0)
  | Int z => Ok z
  | Float f => int_of_float f
  | Str s => int_of_str s
  | Container _ => Raise TypeError
  end.

(** [bool(x)] *)
Definition bool_ (x : value) : bool :=
  match x with
  | None_ => false
  | Bool b => b
  | Int z => negb (z =? 0)
  | Float f => negb (f =? 0)%float
  | Str s => negb (String.eqb s "")
  | Container len => negb (len =? 0)%nat
  end.

(** [float(z)] for an int [z]; exact for [|z| < 2^53], which covers the
    clamped ratings and the domain counts converted here. *)
Definition float_of_int (z : Z) : float :=
  if z <? 0 then (- PrimFloat.of_uint63 (Uint63.of_Z (- z)))%float
  else PrimFloat.of_uint63 (Uint63.of_Z z).

(** ** Dicts: insertion-ordered association lists *)

Definition dict (V : Type) : Type := list (string * V).

Definition keys {V} (d : dict V) : list string := map fst d.

(** The invariant of a Python dict: no key occurs twice. *)
Definition dict_wf {V} (d : dict V) : Prop := NoDup (keys d).

(** [d.get(k)], [None] when the key is missing *)
Fixpoint get {V} (k : string) (d : dict V) : option V :=
  match d with
  | [] => None
  | (k', v) :: r => if String.eqb k k' then Some v else get k r
  end.

(** [d[k] = v]: in place when the key exists, appended otherwise *)
Fixpoint set {V} (k : string) (v : V) (d : dict V) : dict V :=
  match d with
  | [] => [(k, v)]
  | (k', v') :: r =>
      if String.eqb k k' then (k, v) :: r else (k', v') :: set k v r
  end.

Definition set_item {V} (d : dict V) (kv : string * V) : dict V :=
  set (fst kv) (snd kv) d.

(** [dict(pairs)] *)
Definition dict_of_items {V} (pairs : list (string * V)) : dict V :=
  fold_left set_item pairs [].

(** Truthiness of a dict: non-empty. *)
Definition nonempty {V} (d : dict V) : bool :=
  match d with
  | [] => false
  | _ :: _ => true
  end.

(** ** [sorted]

    [sorted(items, key=..., reverse=...)] is [list.sort] on a copy, and
    [list.sort] compares the keys with [<] only.  What follows is the
    algorithm of CPython 3.11 ([Objects/listobject.c]) for a list of fewer
    than 64 elements, where no run is merged: [count_run] takes the
    longest run the list starts with, either non-descending or strictly
    descending, the latter reversed in place; [binarysort] then inserts
    the remaining elements one by one at the place a binary search with
    [<] finds.  With [reverse=True] the list is reversed before and after.
    A NaN key is below nothing and above nothing, and the result with
    such keys is whatever these comparisons lead to.  A list of 64
    elements or more is sorted in runs that are then merged; without a
    NaN key the result is the same, the one stable sort of the list; the
    merges on NaN keys are not modelled. *)
Section Sorted.
Context {A : Type} (key : A -> float).

(** [ISLT]: the only comparison the sort makes. *)
Definition lt (x y : A) : bool := (key x <? key y)%float.

(** The rest of a non-descending run whose last element is [prev], and
    what follows the run. *)
Fixpoint ascending_run (prev : A) (l : list A) : list A * list A :=
  match l with
  | [] => ([], [])
  | x :: r =>
      if lt x prev then ([], l)
      else let '(run, rest) := ascending_run x r in (x :: run, rest)
  end.

(** The rest of a strictly descending run whose last element is [prev]. *)
Fixpoint descending_run (prev : A) (l : list A) : list A * list A :=
  match l with
  | [] => ([], [])
  | x :: r =>
      if lt x prev
      then let '(run, rest) := descending_run x r in (x :: run, rest)
      else ([], l)
  end.

(** [count_run], with the reversal of a descending run: the first run,
    in ascending order, and the rest of the list. *)
Definition count_run (l : list A) : list A * list A :=
  match l with
  | [] => ([], [])
  | [x] => ([x], [])
  | x :: y :: r =>
      if lt y x
      then let '(run, rest) := descending_run y r in
           (rev (x :: y :: run), rest)
      else let '(run, rest) := ascending_run y r in (x :: y :: run, rest)
  end.

(** The search loop of [binarysort]:
    [do { p = l + ((r - l) >> 1); if (pivot < a[p]) r = p; else l = p + 1; }
     while (l < r)]; each turn shrinks [r - l], which bounds the [fuel]. *)
Fixpoint bisect (fuel : nat) (pivot : A) (a : list A) (l r : nat) : nat :=
  match fuel with
  | O => l
  | S fuel' =>
      if (l <? r)%nat then
        let p := (l + (r - l) / 2)%nat in
        match a !! p with
        | Some y =>
            if lt pivot y then bisect fuel' pivot a l p
            else bisect fuel' pivot a (p + 1)%nat r
        | None => l
        end
      else l
  end.

(** One turn of [binarysort]: [pivot] goes where the search ends. *)
Definition binary_insert (a : list A) (pivot : A) : list A :=
  let l := bisect (length a) pivot a 0 (length a) in
  take l a ++ pivot :: drop l a.

Definition binarysort (run rest : list A) : list A :=
  fold_left binary_insert rest run.

Definition sort (l : list A) : list A :=
  let '(run, rest) := count_run l in binarysort run rest.

Definition sorted (reverse : bool) (l : list A) : list A :=
  if reverse then rev (sort (rev l)) else sort l.
End Sorted.

End Py.

(* ------------------------------------------------------------------ *)
(** * Data model ([diagnostic_model.py]) *)
(* ------------------------------------------------------------------ *)

Module Question.
Record t : Type := mk
  { id : string;       (* "finance_1" *)
    type : string;     (* "stars" or "boolean" *)
    text : string;
    weight : float }.
End Question.

Module Domain.
Record t : Type := mk
  { id : string;
    label : string;
    description : string;
    questions : list Question.t }.
End Domain.

Module SectorProfile.
Record t : Type := mk
  { id : string;
    label : string;
    extra_questions : Py.dict (list Question.t) }.
End SectorProfile.

(** An answer set: domain id -> question id -> raw answer. *)
Definition Answers : Type := Py.dict (Py.dict Py.value).

(* ------------------------------------------------------------------ *)
(** * Scoring ([scoring.py]) *)
(* ------------------------------------------------------------------ *)

Local Open Scope float_scope.

(** The affirmative tokens of a boolean answer given as a string. *)
Definition affirmative_tokens : list string :=
  ["oui"; "yes"; "true"; "1"]%string.

Definition in_tokens (s : string) : bool :=
  existsb (String.eqb s) affirmative_tokens.

Definition score_question (question : Question.t) (answer : Py.value)
  : result float :=
  if String.eqb (Question.type question) "stars" then
    match answer with
    | Py.None_ => Ok 0.0
    | _ =>
        match Py.int answer with
        | Ok v =>
            let v := Z.max 0 (Z.min 5 v) in
            Ok ((Py.float_of_int v / 5.0) * 100.0)
        | Raise TypeError | Raise ValueError => Ok 0.0
        | Raise e => Raise e
        end
    end
  else if String.eqb (Question.type question) "boolean" then
    let val :=
      match answer with
      | Py.Str s => in_tokens (Py.lower (Py.strip s))
      | _ => Py.bool_ answer
      end in
    Ok (if val then 100.0 else 0.0)
  else Raise ValueError.

(** [answers.get(q.id)]: a missing key reads as [None]. *)
Definition answer_of (answers : Py.dict Py.value) (qid : string) : Py.value :=
  default Py.None_ (Py.get qid answers).

(** The [for q in domain.questions] loop of [score_domain]. *)
Fixpoint score_domain_loop (questions : list Question.t)
    (answers : Py.dict Py.value) (total_weight total_score : float)
  : result (float * float) :=
  match questions with
  | [] => Ok (total_weight, total_score)
  | q :: rest =>
      let ans := answer_of answers (Question.id q) in
      qs ← score_question q ans;
      score_domain_loop rest answers
        (total_weight + Question.weight q)
        (total_score + qs * Question.weight q)
  end.

Definition score_domain (domain : Domain.t) (answers : Py.dict Py.value)
  : result float :=
  '(total_weight, total_score) ←
    score_domain_loop (Domain.questions domain) answers 0.0 0.0;
  if total_weight =? 0.0 then Ok 0.0
  else Ok (total_score / total_weight).

Definition GLOBAL_KEY : string := "__global__".

(** [all_answers.get(domain_id, {})] *)
Definition answers_of (all_answers : Answers) (domain_id : string)
  : Py.dict Py.value :=
  default [] (Py.get domain_id all_answers).

(** The [for domain_id, domain in domains.items()] loop of [score_global]. *)
Fixpoint score_global_loop (items : list (string * Domain.t))
    (all_answers : Answers)
    (domain_scores : Py.dict float) (sum_scores : float) (count : nat)
  : result (Py.dict float * float * nat) :=
  match items with
  | [] => Ok (domain_scores, sum_scores, count)
  | (domain_id, domain) :: rest =>
      let d_answers := answers_of all_answers domain_id in
      s ← score_domain domain d_answers;
      let domain_scores := Py.set domain_id s domain_scores in
      if Py.nonempty d_answers
      then score_global_loop rest all_answers domain_scores
             (sum_scores + s) (S count)
      else score_global_loop rest all_answers domain_scores sum_scores count
  end.

Definition score_global (domains : Py.dict Domain.t) (all_answers : Answers)
  : result (Py.dict float) :=
  '(domain_scores, sum_scores, count) ←
    score_global_loop domains all_answers [] 0.0 0%nat;
  let global_score :=
    if (0 <? count)%nat
    then sum_scores / Py.float_of_int (Z.of_nat count)
    else 0.0 in
  Ok (Py.set GLOBAL_KEY global_score domain_scores).

(* ------------------------------------------------------------------ *)
(** * Questionnaire analysis ([questionnaire.py]) *)
(* ------------------------------------------------------------------ *)

Definition STRONG_THRESHOLD : float := 75.0.
Definition IMPROVE_THRESHOLD : float := 40.0.

(** The three tier names, as code points: "fort", "améliorer",
    "critique". *)
Definition FORT : string := "fort".
Definition AMELIORER : string := String.append "am" (String "233" "liorer").
Definition CRITIQUE : string := "critique".

Definition classify_domain (score : float) : string :=
  if STRONG_THRESHOLD <=? score then FORT
  else if IMPROVE_THRESHOLD <=? score then AMELIORER
  else CRITIQUE.

(** The loop shared, up to its test, by [extract_weak_points] and
    [extract_strong_points]: [keep] is the test on the tier. *)
Fixpoint extract_loop (keep : string -> bool)
    (items : list (string * Domain.t)) (all_answers : Answers)
    (scores : Py.dict float) : result (Py.dict float) :=
  match items with
  | [] => Ok scores
  | (did, domain) :: rest =>
      let d_ans := answers_of all_answers did in
      if negb (Py.nonempty d_ans)
      then extract_loop keep rest all_answers scores
      else
        s ← score_domain domain d_ans;
        if keep (classify_domain s)
        then extract_loop keep rest all_answers (Py.set did s scores)
        else extract_loop keep rest all_answers scores
  end.

Definition extract_weak_points (domains : Py.dict Domain.t)
    (all_answers : Answers) : result (Py.dict float) :=
  scores ← extract_loop (fun tier => negb (String.eqb tier FORT))
              domains all_answers [];
  Ok (Py.dict_of_items (Py.sorted snd false scores)).

Definition extract_strong_points (domains : Py.dict Domain.t)
    (all_answers : Answers) : result (Py.dict float) :=
  scores ← extract_loop (fun tier => String.eqb tier FORT)
              domains all_answers [];
  Ok (Py.dict_of_items (Py.sorted snd true scores)).

(** [generate_empty_answers]: every question id mapped to [None]. *)
Fixpoint empty_answers_of (questions : list Question.t)
    (domain_answers : Py.dict Py.value) : Py.dict Py.value :=
  match questions with
  | [] => domain_answers
  | q :: rest =>
      empty_answers_of rest (Py.set (Question.id q) Py.None_ domain_answers)
  end.

Fixpoint generate_empty_answers_loop (items : list (string * Domain.t))
    (result_ : Answers) : Answers :=
  match items with
  | [] => result_
  | (domain_id, domain) :: rest =>
      generate_empty_answers_loop rest
        (Py.set domain_id (empty_answers_of (Domain.questions domain) [])
           result_)
  end.

Definition generate_empty_answers (domains : Py.dict Domain.t) : Answers :=
  generate_empty_answers_loop domains [].

Local Close Scope float_scope.
Local Close Scope Z_scope.

(* ------------------------------------------------------------------ *)
(** * The object store *)
(* ------------------------------------------------------------------ *)

(** [build_domains_for_sector] copies and then mutates objects that the
    process-wide catalogue could share, so the catalogue lives in a store of
    objects with identities.  A location is an index in the store;
    allocation appends.  Strings and floats are immutable and are kept by
    value. *)

Abbreviation loc := nat.

Inductive obj : Type :=
| OQuestion (q : Question.t)
| OList (items : list loc)
| ODomain (id label description : string) (questions : loc)
| OSectorProfile (id label : string) (extra_questions : loc)
| ODict (entries : Py.dict loc).

Abbreviation heap := (list obj).

(** Computations on the store; an exception leaves the store as it was
    when it was raised. *)
Definition M (A : Type) : Type := heap -> result A * heap.

#[global] Instance M_ret : MRet M := fun _ a h => (Ok a, h).
#[global] Instance M_bind : MBind M := fun _ _ f m h =>
  match m h with
  | (Ok a, h') => f a h'
  | (Raise e, h') => (Raise e, h')
  end.

Definition raise {A} (e : exn) : M A := fun h => (Raise e, h).

Definition alloc (o : obj) : M loc := fun h => (Ok (length h), h ++ [o]).

Definition read (l : loc) : M obj := fun h =>
  match h !! l with
  | Some o => (Ok o, h)
  | None => (Raise AttributeError, h)
  end.

Definition write (l : loc) (o : obj) : M unit := fun h =>
  (Ok tt, <[l := o]> h).

Definition read_question (l : loc) : M Question.t :=
  o ← read l;
  match o with OQuestion q => mret q | _ => raise AttributeError end.

Definition read_list (l : loc) : M (list loc) :=
  o ← read l;
  match o with OList items => mret items | _ => raise AttributeError end.

(** [d.questions] *)
Definition read_questions (l : loc) : M loc :=
  o ← read l;
  match o with ODomain _ _ _ qs => mret qs | _ => raise AttributeError end.

(** [s.extra_questions] *)
Definition read_extra_questions (l : loc) : M loc :=
  o ← read l;
  match o with
  | OSectorProfile _ _ extra => mret extra
  | _ => raise AttributeError
  end.

Definition read_dict (l : loc) : M (Py.dict loc) :=
  o ← read l;
  match o with ODict entries => mret entries | _ => raise AttributeError end.

(** ** [copy.deepcopy]

    [copy.deepcopy] on the three shapes it meets here: a [Question] (its
    fields are immutable and shared), a list of questions, and a [Domain].
    One call keeps a memo from the objects already copied to their copies,
    so a question that occurs twice in a list is copied once. *)

Definition memo_get (l : loc) (memo : list (loc * loc)) : option loc :=
  snd <$> find (fun p => Nat.eqb (fst p) l) memo.

Fixpoint deepcopy_questions (items : list loc) (memo : list (loc * loc))
  : M (list loc) :=
  match items with
  | [] => mret []
  | a :: rest =>
      match memo_get a memo with
      | Some y =>
          ys ← deepcopy_questions rest memo;
          mret (y :: ys)
      | None =>
          q ← read_question a;
          y ← alloc (OQuestion q);
          ys ← deepcopy_questions rest ((a, y) :: memo);
          mret (y :: ys)
      end
  end.

Definition deepcopy_list (x : loc) : M loc :=
  items ← read_list x;
  ys ← deepcopy_questions items [];
  alloc (OList ys).

Definition deepcopy_domain (x : loc) : M loc :=
  o ← read x;
  match o with
  | ODomain id label description questions =>
      questions' ← deepcopy_list questions;
      alloc (ODomain id label description questions')
  | _ => raise AttributeError
  end.

(* ------------------------------------------------------------------ *)
(** * Questionnaire assembly ([diagnostic_model.py]) *)
(* ------------------------------------------------------------------ *)

Section Catalogue.
(** The two module-level names, bound once by [load_questions]. *)
Variables (DOMAINS_COMMON SECTORS : loc).

(** [{k: copy.deepcopy(v) for k, v in DOMAINS_COMMON.items()}]: the keys
    come from a dict, so each insertion appends. *)
Fixpoint copy_domains (items : list (string * loc)) : M (Py.dict loc) :=
  match items with
  | [] => mret []
  | (k, v) :: rest =>
      v' ← deepcopy_domain v;
      rest' ← copy_domains rest;
      mret ((k, v') :: rest')
  end.

(** The [for domain_id, extra_qs in sector.extra_questions.items()]
    loop. *)
Fixpoint extend_loop (items : list (string * loc)) (domains : loc)
  : M unit :=
  match items with
  | [] => mret tt
  | (domain_id, extra_qs) :: rest =>
      entries ← read_dict domains;
      match Py.get domain_id entries with
      | None => extend_loop rest domains
      | Some d =>
          qs ← read_questions d;
          new ← deepcopy_list extra_qs;
          new_items ← read_list new;
          old_items ← read_list qs;
          _ ← write qs (OList (old_items ++ new_items));
          extend_loop rest domains
      end
  end.

Definition build_domains_for_sector (sector_id : option string) : M loc :=
  common ← read_dict DOMAINS_COMMON;
  entries ← copy_domains common;
  domains ← alloc (ODict entries);
  match sector_id with
  | None => mret domains
  | Some sid =>
      sectors ← read_dict SECTORS;
      match Py.get sid sectors with
      | None => raise ValueError
      | Some sector =>
          extra ← read_extra_questions sector;
          extras ← read_dict extra;
          _ ← extend_loop extras domains;
          mret domains
      end
  end.
End Catalogue.

(** ** Reading values back from the store *)

Definition question_at (h : heap) (l : loc) : option Question.t :=
  match h !! l with
  | Some (OQuestion q) => Some q
  | _ => None
  end.

Definition questions_at (h : heap) (l : loc) : option (list Question.t) :=
  match h !! l with
  | Some (OList items) => mapM (question_at h) items
  | _ => None
  end.

Definition domain_at (h : heap) (l : loc) : option Domain.t :=
  match h !! l with
  | Some (ODomain id label description qs) =>
      Domain.mk id label description <$> questions_at h qs
  | _ => None
  end.

Definition entry_at {V} (at_ : loc -> option V) (e : string * loc)
  : option (string * V) :=
  pair (fst e) <$> at_ (snd e).

Definition dict_at {V} (at_ : loc -> option V) (h : heap) (l : loc)
  : option (Py.dict V) :=
  match h !! l with
  | Some (ODict entries) => mapM (entry_at at_) entries
  | _ => None
  end.

(** The value of a dict of domains, as [==] sees it. *)
Definition domains_at (h : heap) (l : loc) : option (Py.dict Domain.t) :=
  dict_at (domain_at h) h l.

Definition sector_at (h : heap) (l : loc) : option SectorProfile.t :=
  match h !! l with
  | Some (OSectorProfile id label extra) =>
      SectorProfile.mk id label <$> dict_at (questions_at h) h extra
  | _ => None
  end.

Definition sectors_at (h : heap) (l : loc)
  : option (Py.dict SectorProfile.t) :=
  dict_at (sector_at h) h l.

(* ------------------------------------------------------------------ *)
(** * Reference definitions, in the words of the specification *)
(* ------------------------------------------------------------------ *)

Local Open Scope float_scope.

(** The stable insertion sort, against which [sorted] is measured:
    [stable_insert] puts an element after every element it is not smaller
    than. *)
Section StableSort.
Context {A : Type} (key : A -> float).

Fixpoint stable_insert (x : A) (l : list A) : list A :=
  match l with
  | [] => [x]
  | y :: r =>
      if key x <? key y then x :: y :: r
      else y :: stable_insert x r
  end.

Definition stable_sort (l : list A) : list A :=
  fold_left (fun acc x => stable_insert x acc) l [].

Definition stable_sorted (reverse : bool) (l : list A) : list A :=
  if reverse then rev (stable_sort (rev l)) else stable_sort l.
End StableSort.

(** Sum of a sequence of floats, taken in order from 0.0. *)
Definition fsum (l : list float) : float := fold_left PrimFloat.add l 0.0.

(** Unweighted arithmetic mean; 0.0 for the empty sequence. *)
Definition mean (l : list float) : float :=
  match l with
  | [] => 0.0
  | _ :: _ => fsum l / Py.float_of_int (Z.of_nat (length l))
  end.

(** Weighted mean of (score, weight) pairs; 0.0 when the weights sum to
    zero. *)
Definition weighted_mean (sw : list (float * float)) : float :=
  let total_weight := fsum (map snd sw) in
  if total_weight =? 0.0 then 0.0
  else fsum (map (fun p => fst p * snd p) sw) / total_weight.

(** The (score, weight) pair of every question of a list, the answer being
    looked up by question id. *)
Fixpoint question_scores (questions : list Question.t)
    (answers : Py.dict Py.value) : result (list (float * float)) :=
  match questions with
  | [] => Ok []
  | q :: rest =>
      s ← score_question q (answer_of answers (Question.id q));
      sw ← question_scores rest answers;
      Ok ((s, Question.weight q) :: sw)
  end.

(** A domain has answers when its answer sub-map is non-empty. *)
Definition answered (all_answers : Answers) (domain_id : string) : bool :=
  Py.nonempty (answers_of all_answers domain_id).

(** [scores] lists, in the order of [domains], the score of each domain. *)
Definition domain_scores_of (domains : Py.dict Domain.t)
    (all_answers : Answers) (scores : list (string * float)) : Prop :=
  Forall2
    (fun kd ks =>
       fst ks = fst kd /\
       score_domain (snd kd) (answers_of all_answers (fst kd)) = Ok (snd ks))
    domains scores.

(** The scores that enter the global average. *)
Definition included (all_answers : Answers) (scores : list (string * float))
  : list float :=
  map snd (List.filter (fun ks => answered all_answers (fst ks)) scores).

(** The domains that have answers. *)
Definition answered_domains (domains : Py.dict Domain.t)
    (all_answers : Answers) : Py.dict Domain.t :=
  List.filter (fun kd => answered all_answers (fst kd)) domains.

Definition is_strong (ks : string * float) : bool :=
  String.eqb (classify_domain (snd ks)) FORT.



(** A question of one of the two kinds. *)
Definition valid_type (q : Question.t) : bool :=
  String.eqb (Question.type q) "stars"
  || String.eqb (Question.type q) "boolean".

(** An answer that is not an infinite float: [int] raises no
    [OverflowError] on it. *)
Definition finite_answer (a : Py.value) : bool :=
  match a with
  | Py.Float f => negb (is_infinity f)
  | _ => true
  end.

(** A catalogue whose questions are all of one of the two kinds. *)
Definition valid_catalogue (domains : Py.dict Domain.t) : Prop :=
  Forall (fun kd => Forall (fun q => valid_type q = true)
                      (Domain.questions (snd kd))) domains.

(** An answer set without an infinite float. *)
Definition finite_answers (all_answers : Answers) : Prop :=
  Forall (fun ka => Forall (fun kv => finite_answer (snd kv) = true) (snd ka))
    all_answers.

(** A weight that is finite and not negative. *)
Definition nonneg_finite (w : float) : bool :=
  (0.0 <=? w) && (w <? infinity).

(** A binary64 number with a clear sign bit, NaN apart. *)
Definition sf_nonneg (x : spec_float) : Prop :=
  match x with
  | S754_zero false | S754_infinity false | S754_finite false _ _ => True
  | _ => False
  end.



(** An answer sub-map whose values are all [None]. *)
Definition unanswered (answers : Py.dict Py.value) : Prop :=
  Forall (fun kv => snd kv = Py.None_) answers.

(** ** Ordering of binary64 numbers through an integer key *)

Definition sf_key (x : spec_float) : Z * (Z * Z) :=
  match x with
  | S754_zero _ => (0, (0, 0))
  | S754_infinity s => (if s then -2 else 2, (0, 0))
  | S754_nan => (0, (0, 0))
  | S754_finite s m e =>
      if s then (-1, (- e, Z.neg m)) else (1, (e, Z.pos m))
  end%Z.

Definition lex3 (a b : Z * (Z * Z)) : comparison :=
  match (fst a ?= fst b)%Z with
  | Eq =>
      match (fst (snd a) ?= fst (snd b))%Z with
      | Eq => (snd (snd a) ?= snd (snd b))%Z
      | c => c
      end
  | c => c
  end.

Local Close Scope float_scope.

(** ** The catalogue, by value *)

(** [append_questions domain_id extra domains]: [extra] appended to the
    question list of the domain [domain_id]; nothing changes when there is
    no such domain. *)
Fixpoint append_questions (domain_id : string) (extra : list Question.t)
    (domains : Py.dict Domain.t) : Py.dict Domain.t :=
  match domains with
  | [] => []
  | (k, d) :: rest =>
      if String.eqb domain_id k
      then (k, Domain.mk (Domain.id d) (Domain.label d)
                 (Domain.description d) (Domain.questions d ++ extra))
           :: rest
      else (k, d) :: append_questions domain_id extra rest
  end.

(** The common catalogue extended by each (domain id, extra questions)
    pair of a sector, in order. *)
Definition extend_domains (common : Py.dict Domain.t)
    (extensions : Py.dict (list Question.t)) : Py.dict Domain.t :=
  fold_left (fun acc e => append_questions (fst e) (snd e) acc)
    extensions common.

(** The questionnaire of a sector, by value. *)
Definition questionnaire (common : Py.dict Domain.t)
    (sectors : Py.dict SectorProfile.t) (sector_id : option string)
  : result (Py.dict Domain.t) :=
  match sector_id with
  | None => Ok common
  | Some sid =>
      match Py.get sid sectors with
      | None => Raise ValueError
      | Some sector =>
          Ok (extend_domains common (SectorProfile.extra_questions sector))
      end
  end.

(** The store holds the catalogue [common] / [sectors] at the two global
    names. *)
Definition catalogue_at (h : heap) (DOMAINS_COMMON SECTORS : loc)
    (common : Py.dict Domain.t) (sectors : Py.dict SectorProfile.t) : Prop :=
  domains_at h DOMAINS_COMMON = Some common /\
  sectors_at h SECTORS = Some sectors.

(** Every object reachable from the dict of domains at [l] was allocated
    at or after position [n] of the store. *)
Definition fresh_from (n : nat) (h : heap) (l : loc) : Prop :=
  n <= l /\
  exists entries, h !! l = Some (ODict entries) /\
    Forall (fun e =>
      n <= snd e /\
      exists id label description qs items,
        h !! snd e = Some (ODomain id label description qs) /\
        n <= qs /\ h !! qs = Some (OList items) /\
        Forall (fun a => n <= a) items) entries.

(** The objects of [h] are still there, unchanged, in [h']. *)
Definition preserved (h h' : heap) : Prop :=
  forall l o, h !! l = Some o -> h' !! l = Some o.

(** ** Copies in the store *)

(** [y] is a list allocated at or after [n], of questions allocated at or
    after [n], whose values are [qs]. *)
Definition list_copy (n : nat) (h : heap) (y : loc) (qs : list Question.t)
  : Prop :=
  n <= y /\
  exists items, h !! y = Some (OList items) /\
    Forall (fun a => n <= a) items /\
    mapM (question_at h) items = Some qs.

(** [y] is a [Domain] allocated at or after [n], with such a list of
    questions, whose value is [d]. *)
Definition domain_copy (n : nat) (h : heap) (y : loc) (d : Domain.t) : Prop :=
  n <= y /\
  exists qs, h !! y = Some (ODomain (Domain.id d) (Domain.label d)
                              (Domain.description d) qs) /\
    list_copy n h qs (Domain.questions d).

(** The location of the question list of the domain of a dict entry. *)
Definition qloc (h : heap) (e : string * loc) : loc :=
  match h !! snd e with
  | Some (ODomain _ _ _ qs) => qs
  | _ => 0
  end.

(** The entries [ents] of a dict are copies, allocated at or after [n], of
    the domains [c], no two of them sharing a question list. *)
Definition copies (n : nat) (h : heap) (ents : Py.dict loc)
    (c : Py.dict Domain.t) : Prop :=
  Forall2 (fun e kd => fst e = fst kd /\ domain_copy n h (snd e) (snd kd))
    ents c /\
  NoDup (map (qloc h) ents).

(** The memo of a [deepcopy] call under way: each entry maps a question
    to a copy of it allocated at or after [n]. *)
Definition memo_ok (n : nat) (h : heap) (memo : list (loc * loc)) : Prop :=
  Forall (fun p => n <= snd p /\
                   exists q, h !! fst p = Some (OQuestion q) /\
                             h !! snd p = Some (OQuestion q)) memo.

(** ** A small catalogue in the store

    Two common domains, "si" and "finance", at location 7; one sector,
    "tech", at location 14, which adds the question [si_701] to "si" and a
    question to "marketing", a domain the catalogue does not have. *)

Definition si_1 : Question.t := Question.mk "si_1" "stars" "" 1.0%float.
Definition si_701 : Question.t := Question.mk "si_701" "stars" "" 1.0%float.
Definition finance_1 : Question.t :=
  Question.mk "finance_1" "stars" "" 1.0%float.
Definition finance_2 : Question.t :=
  Question.mk "finance_2" "boolean" "" 1.0%float.
Definition marketing_1 : Question.t :=
  Question.mk "marketing_1" "stars" "" 1.0%float.

Definition example_store : heap :=
  [ OQuestion si_1;                                   (* 0 *)
    OList [0];                                        (* 1 *)
    ODomain "si" "SI" "" 1;                           (* 2 *)
    OQuestion finance_1;                              (* 3 *)
    OQuestion finance_2;                              (* 4 *)
    OList [3; 4];                                     (* 5 *)
    ODomain "finance" "Finance" "" 5;                 (* 6 *)
    ODict [("si", 2); ("finance", 6)]%string;         (* 7 *)
    OQuestion si_701;                                 (* 8 *)
    OList [8];                                        (* 9 *)
    OQuestion marketing_1;                            (* 10 *)
    OList [10];                                       (* 11 *)
    ODict [("si", 9); ("marketing", 11)]%string;      (* 12 *)
    OSectorProfile "tech" "Tech" 12;                  (* 13 *)
    ODict [("tech", 13)]%string ].                    (* 14 *)

Definition example_common : Py.dict Domain.t :=
  [("si", Domain.mk "si" "SI" "" [si_1]);
   ("finance", Domain.mk "finance" "Finance" "" [finance_1; finance_2])
  ]%string.

Definition example_tech : SectorProfile.t :=
  SectorProfile.mk "tech" "Tech"
    [("si", [si_701]); ("marketing", [marketing_1])]%string.

Definition example_sectors : Py.dict SectorProfile.t :=
  [("tech"%string, example_tech)].

(* ------------------------------------------------------------------ *)
(** * The presentation layer ([dashboard.py]) *)
(* ------------------------------------------------------------------ *)

(** "À améliorer", as code points. *)
Definition A_AMELIORER : string :=
  String "192" (String.append " am" (String "233" "liorer")).

(** [classify_score]: the five-tier scale of the score badges, a label
    and a CSS class. *)
Definition classify_score (score : float) : string * string :=
  if (75.0 <=? score)%float then ("Fort", "pill-ok")%string
  else if (60.0 <=? score)%float then ("Bon", "pill-ok")%string
  else if (40.0 <=? score)%float then ("Moyen", "pill-mid")%string
  else if (20.0 <=? score)%float then (A_AMELIORER, "pill-bad"%string)
  else ("Critique", "pill-bad")%string.

Section FormatAnswer.
(** [str(x)], the text Python prints for a value. *)
Variable str_ : Py.value -> string.

(** [format_answer]: an answer as shown in the table of questions. *)
Definition format_answer (ans : Py.value) (q_type : string) : string :=
  if String.eqb q_type "stars" then
    match ans with
    | Py.None_ => "-"%string
    | _ => String.append (str_ ans) "/5"
    end
  else if String.eqb q_type "boolean" then
    match ans with
    | Py.Bool true => "Oui"%string
    | Py.Bool false => "Non"%string
    | _ => "-"%string
    end
  else str_ ans.
End FormatAnswer.

(* ------------------------------------------------------------------ *)
(** * Sample answers *)
(* ------------------------------------------------------------------ *)

(** ** [questionnaire.generate_sample_answers]

    The random module is a generator state [rng] threaded through the
    calls; [randint a b] and [choice l] are its two draws. *)
Section RandomSample.
Variable rng : Type.
Variable randint : Z -> Z -> rng -> Z * rng.
Variable choice : list bool -> rng -> bool * rng.

(** The [for q in domain.questions] loop. *)
Fixpoint sample_answers_of (questions : list Question.t)
    (d_answers : Py.dict Py.value) (g : rng) : Py.dict Py.value * rng :=
  match questions with
  | [] => (d_answers, g)
  | q :: rest =>
      if String.eqb (Question.type q) "stars" then
        let '(v, g') := randint 1 5 g in
        sample_answers_of rest (Py.set (Question.id q) (Py.Int v) d_answers)
          g'
      else
        let '(b, g') := choice [true; false] g in
        sample_answers_of rest (Py.set (Question.id q) (Py.Bool b) d_answers)
          g'
  end.

Fixpoint generate_sample_answers_loop (items : list (string * Domain.t))
    (sample : Answers) (g : rng) : Answers * rng :=
  match items with
  | [] => (sample, g)
  | (domain_id, domain) :: rest =>
      let '(d_answers, g') :=
        sample_answers_of (Domain.questions domain) [] g in
      generate_sample_answers_loop rest (Py.set domain_id d_answers sample)
        g'
  end.

Definition generate_sample_answers (domains : Py.dict Domain.t) (g : rng)
  : Answers * rng :=
  generate_sample_answers_loop domains [] g.
End RandomSample.

(** An answer that [generate_sample_answers] can draw: a rating from 1 to
    5 or a bool. *)
Definition sample_value (v : Py.value) : Prop :=
  (exists z, v = Py.Int z /\ (1 <= z <= 5)%Z) \/ (exists b, v = Py.Bool b).

(** What [generate_sample_answers] draws for a question: a rating from 1
    to 5 when its type is "stars", a bool otherwise. *)
Definition drawn_for (q : Question.t) (v : Py.value) : Prop :=
  if String.eqb (Question.type q) "stars"
  then exists z, v = Py.Int z /\ (1 <= z <= 5)%Z
  else exists b, v = Py.Bool b.

(** ** [generate_sample_answers.py]

    The script derives each answer from [hash(q.id)], a function of the
    id that is fixed for the life of a process. *)
Module GenerateSampleAnswers.
Section Hash.
Variable hash : string -> Z.

(** [answers[domain_id][q.id] = v]; [None] stands for the [KeyError] of a
    missing [domain_id]. *)
Definition set_answer (answers : Answers) (domain_id qid : string)
    (v : Py.value) : option Answers :=
  sub ← Py.get domain_id answers;
  Some (Py.set domain_id (Py.set qid v sub) answers).

(** The answer the script gives to a question. *)
Definition sample_answer (q : Question.t) : Py.value :=
  if String.eqb (Question.type q) "stars" then
    Py.Int (1 + hash (Question.id q) mod 5)
  else if String.eqb (Question.type q) "boolean" then
    Py.Bool (Py.bool_ (Py.Int (hash (Question.id q) mod 2)))
  else Py.None_.

Fixpoint sample_questions (questions : list Question.t)
    (domain_id : string) (answers : Answers) : option Answers :=
  match questions with
  | [] => Some answers
  | q :: rest =>
      answers' ← set_answer answers domain_id (Question.id q)
                   (sample_answer q);
      sample_questions rest domain_id answers'
  end.

Fixpoint generate_sample_answers_loop (items : list (string * Domain.t))
    (answers : Answers) : option Answers :=
  match items with
  | [] => Some answers
  | (domain_id, domain) :: rest =>
      answers' ← sample_questions (Domain.questions domain) domain_id
                   (Py.set domain_id [] answers);
      generate_sample_answers_loop rest answers'
  end.

Definition generate_sample_answers (domains : Py.dict Domain.t)
  : option Answers :=
  generate_sample_answers_loop domains [].
End Hash.
End GenerateSampleAnswers.

(* ------------------------------------------------------------------ *)
(** * Further reference definitions *)
(* ------------------------------------------------------------------ *)

(** The scores [score_question] can return. *)
Definition question_score_values : list float :=
  [0.0; 20.0; 40.0; 60.0; 80.0; 100.0]%float.

(** The ids of a list of questions, each once, in order of first
    occurrence: the keys of a dict filled in that order. *)
Fixpoint first_ids (seen : list string) (questions : list Question.t)
  : list string :=
  match questions with
  | [] => []
  | q :: rest =>
      if existsb (String.eqb (Question.id q)) seen
      then first_ids seen rest
      else Question.id q :: first_ids (Question.id q :: seen) rest
  end.

(** The locations of the objects that make up the dict of domains at
    [l]: the dict, its domains, their question lists and the questions. *)
Definition objects_of (h : heap) (l : loc) : list loc :=
  l ::
  match h !! l with
  | Some (ODict entries) =>
      flat_map
        (fun e =>
           snd e ::
           match h !! snd e with
           | Some (ODomain _ _ _ qs) =>
               qs ::
               match h !! qs with
               | Some (OList items) => items
               | _ => []
               end
           | _ => []
           end)
        entries
  | _ => []
  end.

(** The dict of domains at [l], its domains, their question lists and
    the questions are all in the store. *)
Definition defined_at (h : heap) (l : loc) : Prop :=
  exists entries, h !! l = Some (ODict entries) /\
    Forall (fun e =>
      exists id label description qs items,
        h !! snd e = Some (ODomain id label description qs) /\
        h !! qs = Some (OList items) /\
        Forall (fun a => is_Some (h !! a)) items) entries.

(* ================================================================== *)
(** * Facts about binary64 arithmetic *)
(* ================================================================== *)

Module FloatFacts.
Local Open Scope float_scope.

Lemma SFcompare_key x y c :
  SFcompare x y = Some c -> lex3 (sf_key x) (sf_key y) = c.
Proof.
  destruct x as [[]|[]| |[] m1 e1], y as [[]|[]| |[] m2 e2]; cbn -[Z.compare Pos.compare_cont];
  intros [= <-]; try reflexivity; unfold lex3; cbn -[Z.compare Pos.compare_cont].
  rewrite Z.compare_opp, (Z.compare_antisym e1 e2).
  destruct (e1 ?= e2)%Z; reflexivity.
Qed.

Lemma SFcompare_some x y :
  x <> S754_nan -> y <> S754_nan -> exists c, SFcompare x y = Some c.
Proof.
  destruct x as [[]|[]| |[] m1 e1], y as [[]|[]| |[] m2 e2]; cbn -[Z.compare Pos.compare_cont];
    intros; try congruence; eauto.
Qed.

Lemma SFcompare_nan x y c : SFcompare x y = Some c -> x <> S754_nan /\ y <> S754_nan.
Proof. destruct x, y; cbn; intros; split; congruence. Qed.

Lemma lex3_le_trans a b c :
  lex3 a b <> Gt -> lex3 b c <> Gt -> lex3 a c <> Gt.
Proof.
  destruct a as [a1 [a2 a3]], b as [b1 [b2 b3]], c as [c1 [c2 c3]].
  unfold lex3; cbn [fst snd].
  repeat match goal with
  | |- context [(?x ?= ?y)%Z] => destruct (Z.compare_spec x y)
  end; intros; try congruence; try lia.
Qed.

Lemma SFleb_spec x y :
  SFleb x y = true <->
  x <> S754_nan /\ y <> S754_nan /\ lex3 (sf_key x) (sf_key y) <> Gt.
Proof.
  unfold SFleb. split.
  - destruct (SFcompare x y) as [c|] eqn:E; [|discriminate].
    destruct (SFcompare_nan _ _ _ E). rewrite (SFcompare_key _ _ _ E).
    destruct c; intros; try discriminate; repeat split; auto; discriminate.
  - intros (Hx & Hy & Hk). destruct (SFcompare_some x y Hx Hy) as [c E].
    rewrite E. rewrite (SFcompare_key _ _ _ E) in Hk. destruct c; congruence.
Qed.

Lemma SFltb_spec x y :
  SFltb x y = true <->
  x <> S754_nan /\ y <> S754_nan /\ lex3 (sf_key x) (sf_key y) = Lt.
Proof.
  unfold SFltb. split.
  - destruct (SFcompare x y) as [c|] eqn:E; [|discriminate].
    destruct (SFcompare_nan _ _ _ E). rewrite (SFcompare_key _ _ _ E).
    destruct c; intros; try discriminate; repeat split; auto; discriminate.
  - intros (Hx & Hy & Hk). destruct (SFcompare_some x y Hx Hy) as [c E].
    rewrite E. rewrite (SFcompare_key _ _ _ E) in Hk. destruct c; congruence.
Qed.

Lemma lex3_antisym a b : lex3 b a = CompOpp (lex3 a b).
Proof.
  destruct a as [a1 [a2 a3]], b as [b1 [b2 b3]]. unfold lex3; cbn [fst snd].
  rewrite (Z.compare_antisym a1 b1), (Z.compare_antisym a2 b2), (Z.compare_antisym a3 b3).
  destruct (a1 ?= b1)%Z, (a2 ?= b2)%Z, (a3 ?= b3)%Z; reflexivity.
Qed.


Lemma lex3_refl a : lex3 a a = Eq.
Proof. destruct a as [a1 [a2 a3]]. unfold lex3; cbn [fst snd]. now rewrite !Z.compare_refl. Qed.

Lemma SFcompare_refl x : x <> S754_nan -> SFcompare x x = Some Eq.
Proof.
  intros H. destruct (SFcompare_some _ _ H H) as [c E]. rewrite E.
  apply SFcompare_key in E. rewrite lex3_refl in E. now subst c.
Qed.

Lemma is_nan_false x : is_nan x = false <-> Prim2SF x <> S754_nan.
Proof.
  unfold is_nan. rewrite FloatAxioms.eqb_spec. unfold SFeqb. split.
  - intros H E. rewrite E in H. discriminate.
  - intros H. now rewrite SFcompare_refl.
Qed.

Lemma leb_true x y :
  (x <=? y) = true <->
  is_nan x = false /\ is_nan y = false /\ lex3 (sf_key (Prim2SF x)) (sf_key (Prim2SF y)) <> Gt.
Proof. rewrite leb_spec, SFleb_spec, !is_nan_false. reflexivity. Qed.

Lemma ltb_true x y :
  (x <? y) = true <->
  is_nan x = false /\ is_nan y = false /\ lex3 (sf_key (Prim2SF x)) (sf_key (Prim2SF y)) = Lt.
Proof. rewrite ltb_spec, SFltb_spec, !is_nan_false. reflexivity. Qed.

Lemma leb_trans x y z : (x <=? y) = true -> (y <=? z) = true -> (x <=? z) = true.
Proof.
  rewrite !leb_true. intros (? & ? & ?) (? & ? & ?). repeat split; auto.
  eapply lex3_le_trans; eauto.
Qed.

Lemma ltb_leb_false x y : (x <? y) = true -> (y <=? x) = false.
Proof.
  rewrite ltb_true. intros (? & ? & E). apply not_true_is_false. rewrite leb_true.
  intros (_ & _ & H'). rewrite lex3_antisym, E in H'. now apply H'.
Qed.

Lemma ltb_false_leb x y :
  is_nan x = false -> is_nan y = false -> (x <? y) = false -> (y <=? x) = true.
Proof.
  intros Hx Hy H. apply leb_true. repeat split; auto. intros E.
  rewrite lex3_antisym in E. apply (f_equal CompOpp) in E. rewrite CompOpp_involutive in E.
  cbn in E. assert ((x <? y) = true) by (apply ltb_true; auto). congruence.
Qed.

Lemma is_zero_true x : is_zero x = true <-> exists s, Prim2SF x = S754_zero s.
Proof.
  unfold is_zero. rewrite FloatAxioms.eqb_spec. change (Prim2SF zero) with (S754_zero false).
  unfold SFeqb. destruct (Prim2SF x) as [[]|[]| |[] ? ?]; cbn; split; intros H; try discriminate; eauto;
    destruct H as [s H]; discriminate.
Qed.

Lemma is_finite_true x :
  is_finite x = true <-> (exists s, Prim2SF x = S754_zero s) \/ (exists s m e, Prim2SF x = S754_finite s m e).
Proof.
  unfold is_finite, is_infinity. rewrite negb_true_iff, orb_false_iff, is_nan_false.
  rewrite FloatAxioms.eqb_spec, abs_spec. change (Prim2SF infinity) with (S754_infinity false).
  unfold SFeqb. destruct (Prim2SF x) as [[]|[]| |[] ? ?]; cbn; split; intros H; try (destruct H; discriminate || congruence); eauto 6;
   try (split; congruence); destruct H as [[? ?]|(? & ? & ? & ?)]; discriminate.
Qed.

Lemma is_infinity_false x :
  is_infinity x = false <-> forall s, Prim2SF x <> S754_infinity s.
Proof.
  unfold is_infinity. rewrite FloatAxioms.eqb_spec, abs_spec.
  change (Prim2SF infinity) with (S754_infinity false).
  unfold SFeqb. destruct (Prim2SF x) as [[]|[]| |[] ? ?]; cbn; split;
    intros H; try discriminate; try reflexivity;
    try (now destruct (H true)); now destruct (H false).
Qed.

Lemma mul_zero_finite a w :
  is_zero a = true -> is_finite w = true -> is_zero (a * w) = true.
Proof.
  rewrite !is_zero_true, is_finite_true, mul_spec.
  intros [s ->] [[s' ->]|(s' & m & e & ->)]; cbn; eauto.
Qed.

Lemma add_zero_zero a b :
  is_zero a = true -> is_zero b = true -> is_zero (a + b) = true.
Proof.
  rewrite !is_zero_true, add_spec.
  intros [[] ->] [[] ->]; cbn; eauto.
Qed.

Lemma div_zero a t :
  is_zero a = true -> is_nan t = false -> is_zero t = false ->
  is_zero (a / t) = true.
Proof.
  intros Ha Ht Hz. apply not_true_iff_false in Hz.
  rewrite is_zero_true in *. rewrite is_nan_false in Ht. rewrite div_spec.
  destruct Ha as [s ->]. destruct (Prim2SF t) as [s'|s'| |s' m e]; cbn; eauto.
  - exfalso; eauto.
  - congruence.
Qed.

Lemma shr_1_nonneg mrs : (0 <= shr_m mrs)%Z -> (0 <= shr_m (shr_1 mrs))%Z.
Proof. destruct mrs as [[|[]|[]] r s]; cbn; lia. Qed.

Lemma iter_shr_1_nonneg p mrs :
  (0 <= shr_m mrs)%Z -> (0 <= shr_m (SpecFloat.iter_pos shr_1 p mrs))%Z.
Proof.
  revert mrs. induction p; intros mrs H; cbn; auto using shr_1_nonneg.
Qed.

Lemma shr_fexp_nonneg m e l :
  (0 <= m)%Z -> (0 <= shr_m (fst (shr_fexp prec emax m e l)))%Z.
Proof.
  intros H. unfold shr_fexp, shr.
  assert (0 <= shr_m (shr_record_of_loc m l))%Z by (destruct l as [|[]]; cbn; lia).
  destruct (_ - _)%Z; cbn [fst]; auto using iter_shr_1_nonneg.
Qed.

Lemma binary_round_aux_not_nan sx mx ex lx :
  (0 <= mx)%Z -> binary_round_aux prec emax sx mx ex lx <> S754_nan.
Proof.
  intros H. unfold binary_round_aux.
  pose proof (shr_fexp_nonneg mx ex lx H) as H1.
  destruct (shr_fexp prec emax mx ex lx) as [mrs' e']. cbn [fst] in H1.
  set (m2 := round_nearest_even _ _).
  assert (0 <= m2)%Z as H2.
  { unfold m2, round_nearest_even. destruct (loc_of_shr_record mrs') as [|[]]; try lia.
    destruct (Z.even _); lia. }
  pose proof (shr_fexp_nonneg m2 e' loc_Exact H2) as H3.
  destruct (shr_fexp prec emax m2 e' loc_Exact) as [mrs'' e'']. cbn [fst] in H3.
  destruct (shr_m mrs''); try lia; try discriminate.
  destruct (_ <=? _)%Z; discriminate.
Qed.

Lemma binary_normalize_not_nan m e s : binary_normalize prec emax m e s <> S754_nan.
Proof.
  unfold binary_normalize, binary_round. destruct m; try discriminate;
  destruct (shl_align _ _ _); apply binary_round_aux_not_nan; lia.
Qed.

Lemma add_not_nan a w :
  is_nan a = false -> is_finite w = true -> is_nan (a + w) = false.
Proof.
  rewrite !is_nan_false, is_finite_true, add_spec. unfold SF64add.
  intros Ha [[s' E]|(s' & m & e & E)]; rewrite E;
   destruct (Prim2SF a) as [[]|[]| |sa ma ea]; try congruence; try discriminate;
   try (destruct s'; discriminate).
  cbv beta iota delta [SFadd]. apply binary_normalize_not_nan.
Qed.

(** Rounding keeps the sign it is given. *)
Lemma binary_round_aux_sign sx mx ex lx :
  (0 <= mx)%Z ->
  match binary_round_aux prec emax sx mx ex lx with
  | S754_zero s | S754_infinity s | S754_finite s _ _ => s = sx
  | S754_nan => False
  end.
Proof.
  intros H. unfold binary_round_aux.
  pose proof (shr_fexp_nonneg mx ex lx H) as H1.
  destruct (shr_fexp prec emax mx ex lx) as [mrs' e']. cbn [fst] in H1.
  set (m2 := round_nearest_even _ _).
  assert (0 <= m2)%Z as H2.
  { unfold m2, round_nearest_even.
    destruct (loc_of_shr_record mrs') as [|[]]; try lia.
    destruct (Z.even _); lia. }
  pose proof (shr_fexp_nonneg m2 e' loc_Exact H2) as H3.
  destruct (shr_fexp prec emax m2 e' loc_Exact) as [mrs'' e''].
  cbn [fst] in H3.
  destruct (shr_m mrs''); try lia; try reflexivity.
  destruct (_ <=? _)%Z; reflexivity.
Qed.

Lemma nonneg_finite_true w :
  nonneg_finite w = true <->
  (exists s, Prim2SF w = S754_zero s) \/
  (exists m e, Prim2SF w = S754_finite false m e).
Proof.
  unfold nonneg_finite. rewrite andb_true_iff, leb_spec, ltb_spec.
  change (Prim2SF 0.0) with (S754_zero false).
  change (Prim2SF infinity) with (S754_infinity false).
  destruct (Prim2SF w) as [[]|[]| |[] ? ?]; cbn; split; intros H;
    try (destruct H; discriminate); eauto;
    try (destruct H as [[? ?]|(? & ? & ?)]; discriminate).
Qed.

(** A sum of weights that are finite and not negative has a clear sign
    bit. *)
Lemma add_nonneg a w :
  sf_nonneg (Prim2SF a) -> nonneg_finite w = true ->
  sf_nonneg (Prim2SF (a + w)).
Proof.
  rewrite nonneg_finite_true, add_spec. unfold SF64add.
  intros Ha [[s' E]|(m & e & E)]; rewrite E;
    destruct (Prim2SF a) as [[]|[]| |[] ma ea]; try contradiction;
    try exact I; try (destruct s'; exact I).
  cbv beta iota delta [SFadd]. cbn [cond_Zopp].
  match goal with
  | |- context [binary_normalize _ _ (Z.pos ?x + Z.pos ?y)%Z ?ez _] =>
      change (Z.pos x + Z.pos y)%Z with (Z.pos (x + y));
      cbv beta iota delta [binary_normalize binary_round];
      destruct (shl_align (x + y) ez
                  (fexp prec emax (Z.pos (digits2_pos (x + y)) + ez)))
        as [mz ez'];
      pose proof (binary_round_aux_sign false (Z.pos mz) ez' loc_Exact
                    ltac:(lia)) as Hs;
      destruct (binary_round_aux prec emax false (Z.pos mz) ez' loc_Exact)
        as [[]|[]| |[] ? ?]; try discriminate; try contradiction; exact I
  end.
Qed.

Lemma mul_pzero a w :
  Prim2SF a = S754_zero false -> nonneg_finite w = true ->
  is_zero (a * w) = true.
Proof.
  rewrite nonneg_finite_true, is_zero_true, mul_spec.
  intros -> [[s' ->]|(m & e & ->)]; cbn; eauto.
Qed.

Lemma add_pzero a b :
  Prim2SF a = S754_zero false -> is_zero b = true ->
  Prim2SF (a + b) = S754_zero false.
Proof.
  rewrite is_zero_true, add_spec. intros -> [[] ->]; reflexivity.
Qed.

Lemma div_pzero a t :
  Prim2SF a = S754_zero false -> sf_nonneg (Prim2SF t) ->
  is_zero t = false -> a / t = 0.0.
Proof.
  intros Ha Ht Hz. apply Prim2SF_inj. rewrite div_spec, Ha.
  apply not_true_iff_false in Hz. rewrite is_zero_true in Hz.
  change (Prim2SF 0.0) with (S754_zero false).
  destruct (Prim2SF t) as [[]|[]| |[] m e]; try contradiction;
    try reflexivity.
  exfalso. eauto.
Qed.






End FloatFacts.

(* ================================================================== *)
(** * The built-ins on examples *)
(* ================================================================== *)

Section BuiltinExamples.
Local Open Scope string_scope.

Example strip_lower_example :
  Py.lower (Py.strip (String "009" "  Oui " ++ String "010" "")) = "oui".
Proof. reflexivity. Qed.

Example strip_inner_space : Py.strip " o u i " = "o u i".
Proof. reflexivity. Qed.

Example int_examples :
  Py.int (Py.Str " 4 ") = Ok 4%Z /\
  Py.int (Py.Str "-1_000") = Ok (-1000)%Z /\
  Py.int (Py.Str "4.5") = Raise ValueError /\
  Py.int (Py.Str "") = Raise ValueError /\
  Py.int (Py.Str "_4") = Raise ValueError /\
  Py.int (Py.Str (String "160" "4")) = Ok 4%Z /\
  Py.int (Py.Str (String "028" "4")) = Raise ValueError /\
  Py.int (Py.Bool true) = Ok 1%Z /\
  Py.int (Py.Float 3.5%float) = Ok 3%Z /\
  Py.int (Py.Float (-3.5)%float) = Ok (-3)%Z /\
  Py.int (Py.Float nan) = Raise ValueError /\
  Py.int (Py.Float neg_infinity) = Raise OverflowError /\
  Py.int (Py.Container 2) = Raise TypeError /\
  Py.int Py.None_ = Raise TypeError.
Proof. repeat split; reflexivity. Qed.

Example bool_examples :
  Py.bool_ (Py.Int 0) = false /\ Py.bool_ (Py.Int (-2)) = true /\
  Py.bool_ (Py.Float (-0.0)%float) = false /\ Py.bool_ (Py.Float nan) = true /\
  Py.bool_ (Py.Container 0) = false /\ Py.bool_ Py.None_ = false.
Proof. repeat split; reflexivity. Qed.

Example sorted_examples :
  Py.sorted snd false [("a", 50.0%float); ("b", 90.0%float); ("c", 30.0%float);
                       ("d", 50.0%float)]
  = [("c", 30.0%float); ("a", 50.0%float); ("d", 50.0%float);
     ("b", 90.0%float)] /\
  Py.sorted snd true [("a", 50.0%float); ("b", 90.0%float); ("c", 30.0%float);
                      ("d", 50.0%float)]
  = [("b", 90.0%float); ("a", 50.0%float); ("d", 50.0%float);
     ("c", 30.0%float)].
Proof. split; reflexivity. Qed.

(** [sorted] on keys with NaN, as CPython 3.11 returns them. *)
Example sorted_nan_examples :
  let id_ (x : float) := x in
  Py.sorted id_ false [nan; 2.0; 1.0]%float = [nan; 1.0; 2.0]%float /\
  Py.sorted id_ false [50.0; nan; 30.0]%float = [50.0; nan; 30.0]%float /\
  Py.sorted id_ false [2.0; 1.0; 1.0; nan; 0.0]%float
  = [0.0; 1.0; 1.0; 2.0; nan]%float /\
  Py.sorted id_ false [3.0; nan; 2.0; nan; 1.0; 5.0; 0.0]%float
  = [3.0; nan; 2.0; nan; 0.0; 1.0; 5.0]%float /\
  Py.sorted id_ true [3.0; nan; 2.0; nan; 1.0; 5.0; 0.0]%float
  = [nan; nan; 5.0; 3.0; 2.0; 1.0; 0.0]%float.
Proof. repeat split; reflexivity. Qed.

End BuiltinExamples.

(* ================================================================== *)
(** * The scorer *)
(* ================================================================== *)

Section ScoreQuestion.
Local Open Scope float_scope.
Import FloatFacts.

Lemma in_tokens_spec (s : string) :
  in_tokens s = true <-> In s affirmative_tokens.
Proof.
  unfold in_tokens. rewrite existsb_exists. split.
  - intros (t & Ht & E). apply String.eqb_eq in E. now subst.
  - intros H. exists s. split; [assumption | apply String.eqb_refl].
Qed.

(** The clamped rating as a score: 20 points per star. *)
Lemma rating_scale (v : Z) :
  (0 <= v <= 5)%Z ->
  (Py.float_of_int v / 5.0) * 100.0 = Py.float_of_int (20 * v).
Proof.
  intros H.
  assert (v = 0 \/ v = 1 \/ v = 2 \/ v = 3 \/ v = 4 \/ v = 5)%Z
    as [->|[->|[->|[->|[->| ->]]]]] by lia; reflexivity.
Qed.

(** What [score_question] does on a rating question, answer by answer. *)
Lemma score_question_stars (question : Question.t) (answer : Py.value) :
  Question.type question = "stars"%string ->
  score_question question answer =
    match answer with
    | Py.None_ => Ok 0.0
    | _ =>
        match Py.int answer with
        | Ok v => Ok (Py.float_of_int (20 * Z.max 0 (Z.min 5 v)))
        | Raise TypeError | Raise ValueError => Ok 0.0
        | Raise e => Raise e
        end
    end.
Proof.
  intros Ht. unfold score_question. rewrite Ht. cbn [String.eqb Ascii.eqb Bool.eqb].
  destruct answer; try reflexivity;
    (destruct (Py.int _) as [v|[]]; try reflexivity;
     cbv zeta; rewrite rating_scale by lia; reflexivity).
Qed.

(** Ratings are monotone: a larger clamped rating never scores less. *)
Lemma rating_monotone (v1 v2 : Z) :
  (Z.max 0 (Z.min 5 v1) <= Z.max 0 (Z.min 5 v2))%Z ->
  (Py.float_of_int (20 * Z.max 0 (Z.min 5 v1))
     <=? Py.float_of_int (20 * Z.max 0 (Z.min 5 v2))) = true.
Proof.
  set (a := Z.max 0 (Z.min 5 v1)). set (b := Z.max 0 (Z.min 5 v2)).
  assert (0 <= a <= 5)%Z by (unfold a; lia).
  assert (0 <= b <= 5)%Z by (unfold b; lia).
  clearbody a b. intros Hab.
  assert (a = 0 \/ a = 1 \/ a = 2 \/ a = 3 \/ a = 4 \/ a = 5)%Z
    as [->|[->|[->|[->|[->| ->]]]]] by lia;
  assert (b = 0 \/ b = 1 \/ b = 2 \/ b = 3 \/ b = 4 \/ b = 5)%Z
    as [->|[->|[->|[->|[->| ->]]]]] by lia;
  solve [reflexivity | lia].
Qed.

(** C4 (the case the code misses): a rating answer that is an infinite
    float is not an integer, yet [score_question] does not return 0.0 for
    it: [int] raises [OverflowError], which the [except (TypeError,
    ValueError)] clause lets through. *)
Theorem score_question_stars_infinity :
  score_question (Question.mk "q" "stars" "" 1.0) (Py.Float infinity)
  = Raise OverflowError.
Proof. reflexivity. Qed.

(** C5: on a boolean question a string answer is affirmative exactly when,
    trimmed and lower-cased, it is one of "oui", "yes", "true", "1"; any
    other value counts by its truthiness; the score is 100.0 or 0.0 and
    nothing in between; a question of another kind raises [ValueError]. *)
Theorem score_question_boolean (question : Question.t) (answer : Py.value) :
  (Question.type question = "boolean"%string ->
     (forall s, answer = Py.Str s ->
        (In (Py.lower (Py.strip s)) affirmative_tokens ->
           score_question question answer = Ok 100.0) /\
        (~ In (Py.lower (Py.strip s)) affirmative_tokens ->
           score_question question answer = Ok 0.0)) /\
     ((forall s, answer <> Py.Str s) ->
        score_question question answer =
          Ok (if Py.bool_ answer then 100.0 else 0.0)) /\
     (score_question question answer = Ok 100.0 \/
      score_question question answer = Ok 0.0)) /\
  (Question.type question <> "stars"%string ->
   Question.type question <> "boolean"%string ->
   score_question question answer = Raise ValueError).
Proof.
  split.
  - intros Ht. unfold score_question. rewrite Ht.
    cbn [String.eqb Ascii.eqb Bool.eqb]. repeat split.
    + intros Hin. subst answer. apply in_tokens_spec in Hin. now rewrite Hin.
    + intros Hin. subst answer.
      destruct (in_tokens _) eqn:E; [|reflexivity].
      apply in_tokens_spec in E. contradiction.
    + intros Hs. destruct answer; try reflexivity. now destruct (Hs s).
    + destruct answer; cbv zeta;
        match goal with |- context [if ?b then _ else _] => destruct b end;
        auto.
  - intros H1 H2. unfold score_question.
    apply String.eqb_neq in H1, H2. now rewrite H1, H2.
Qed.

Lemma score_question_boolean_witness :
  score_question (Question.mk "q" "boolean" "" 1.0) (Py.Str "  OUI ")
    = Ok 100.0 /\
  score_question (Question.mk "q" "boolean" "" 1.0) (Py.Str "non") = Ok 0.0 /\
  score_question (Question.mk "q" "boolean" "" 1.0) (Py.Int 2) = Ok 100.0 /\
  score_question (Question.mk "q" "boolean" "" 1.0) Py.None_ = Ok 0.0 /\
  score_question (Question.mk "q" "boolean" "" 1.0) (Py.Bool false)
    = Ok 0.0 /\
  score_question (Question.mk "q" "boolean" "" 1.0) (Py.Int 0) = Ok 0.0 /\
  score_question (Question.mk "q" "text" "" 1.0) (Py.Int 2) = Raise ValueError.
Proof.
  pose (qb := Question.mk "q" "boolean" "" 1.0).
  pose (qt := Question.mk "q" "text" "" 1.0).
  split; [|split; [|split; [|split; [|split; [|split]]]]].
  - apply (proj1 (proj1 (proj1 (score_question_boolean qb (Py.Str "  OUI "))
                           eq_refl) "  OUI "%string eq_refl)).
    vm_compute. tauto.
  - apply (proj2 (proj1 (proj1 (score_question_boolean qb (Py.Str "non"))
                           eq_refl) "non"%string eq_refl)).
    vm_compute. intuition discriminate.
  - apply (proj1 (proj2 (proj1 (score_question_boolean qb (Py.Int 2))
                           eq_refl))).
    discriminate.
  - apply (proj1 (proj2 (proj1 (score_question_boolean qb Py.None_)
                           eq_refl))).
    discriminate.
  - apply (proj1 (proj2 (proj1 (score_question_boolean qb (Py.Bool false))
                           eq_refl))).
    discriminate.
  - apply (proj1 (proj2 (proj1 (score_question_boolean qb (Py.Int 0))
                           eq_refl))).
    discriminate.
  - apply (proj2 (score_question_boolean qt (Py.Int 2))); discriminate.
Defined.

End ScoreQuestion.

(* ================================================================== *)
(** * The classifier *)
(* ================================================================== *)

Section Classifier.
Local Open Scope float_scope.
Import FloatFacts.

(** C7: the three tiers are cut at the fixed thresholds 75 and 40: a score
    of at least 75 is "fort" (strong), a score of at least 40 and below 75
    is "améliorer" (to improve), a score below 40 is "critique"
    (critical); every score gets one of the three. *)
Theorem classify_domain_thresholds (score : float) :
  ((75.0 <=? score) = true -> classify_domain score = FORT) /\
  ((40.0 <=? score) = true -> (score <? 75.0) = true ->
     classify_domain score = AMELIORER) /\
  ((score <? 40.0) = true -> classify_domain score = CRITIQUE) /\
  (classify_domain score = FORT \/ classify_domain score = AMELIORER \/
   classify_domain score = CRITIQUE).
Proof.
  unfold classify_domain, STRONG_THRESHOLD, IMPROVE_THRESHOLD.
  split; [|split; [|split]].
  4: { destruct (75.0 <=? score); [|destruct (40.0 <=? score)]; auto. }
  - intros ->. reflexivity.
  - intros H40 H75. apply ltb_leb_false in H75. now rewrite H75, H40.
  - intros H40. pose proof (ltb_leb_false _ _ H40) as H.
    destruct (75.0 <=? score) eqn:E.
    + assert ((40.0 <=? score) = true)
        by (apply (leb_trans 40.0 75.0 score); [reflexivity | assumption]).
      congruence.
    + now rewrite H.
Qed.

Lemma classify_domain_thresholds_witness :
  classify_domain 80.0 = FORT /\
  classify_domain 50.0 = AMELIORER /\
  classify_domain 10.0 = CRITIQUE.
Proof.
  split; [|split].
  - apply (proj1 (classify_domain_thresholds 80.0)). reflexivity.
  - apply (proj1 (proj2 (classify_domain_thresholds 50.0))); reflexivity.
  - apply (proj1 (proj2 (proj2 (classify_domain_thresholds 10.0)))).
    reflexivity.
Defined.

End Classifier.

(* ================================================================== *)
(** * Facts about dicts *)
(* ================================================================== *)

Section DictFacts.
Context {V : Type}.
Implicit Types (d : Py.dict V) (k : string) (v : V).

Lemma get_set_eq k v d : Py.get k (Py.set k v d) = Some v.
Proof.
  induction d as [|[k' v'] d IH]; cbn.
  - now rewrite String.eqb_refl.
  - destruct (String.eqb k k') eqn:E; cbn; rewrite ?String.eqb_refl, ?E; auto.
Qed.

Lemma get_set_ne k k' v d :
  k <> k' -> Py.get k' (Py.set k v d) = Py.get k' d.
Proof.
  intros Hne. induction d as [|[k0 v0] d IH]; cbn.
  - apply not_eq_sym in Hne. apply String.eqb_neq in Hne. now rewrite Hne.
  - destruct (String.eqb k k0) eqn:E; cbn.
    + apply String.eqb_eq in E. subst k0.
      apply not_eq_sym in Hne. apply String.eqb_neq in Hne. now rewrite Hne.
    + now rewrite IH.
Qed.

Lemma get_None k d : Py.get k d = None <-> ~ In k (Py.keys d).
Proof.
  induction d as [|[k' v'] d IH]; cbn; [tauto|].
  destruct (String.eqb k k') eqn:E.
  - apply String.eqb_eq in E. subst. split; [discriminate | tauto].
  - apply String.eqb_neq in E. rewrite IH. split; [|tauto].
    intros H [H'|H']; [congruence | tauto].
Qed.

Lemma get_In k v d : Py.dict_wf d -> In (k, v) d -> Py.get k d = Some v.
Proof.
  unfold Py.dict_wf. induction d as [|[k' v'] d IH]; cbn; [tauto|].
  intros Hnd [H|H]; apply NoDup_cons in Hnd as [Hk Hnd].
  - injection H as -> ->. now rewrite String.eqb_refl.
  - destruct (String.eqb k k') eqn:E; [|auto].
    apply String.eqb_eq in E. subst k'. exfalso. apply Hk.
    apply list_elem_of_In. apply (in_map fst) in H. exact H.
Qed.

Lemma get_Some_In k v d : Py.get k d = Some v -> In (k, v) d.
Proof.
  induction d as [|[k' v'] d IH]; cbn; [discriminate|].
  destruct (String.eqb k k') eqn:E; [|auto].
  apply String.eqb_eq in E. subst k'. intros [= ->]. now left.
Qed.

Lemma set_fresh k v d : ~ In k (Py.keys d) -> Py.set k v d = d ++ [(k, v)].
Proof.
  induction d as [|[k' v'] d IH]; cbn; [reflexivity|].
  intros H. destruct (String.eqb k k') eqn:E.
  - apply String.eqb_eq in E. subst. tauto.
  - rewrite IH; tauto.
Qed.

Lemma dict_of_items_app (acc l : list (string * V)) :
  NoDup (Py.keys (acc ++ l)) ->
  fold_left Py.set_item l acc = acc ++ l.
Proof.
  revert acc. induction l as [|[k v] l IH]; intros acc Hnd; cbn.
  - now rewrite app_nil_r.
  - replace (acc ++ (k, v) :: l) with ((acc ++ [(k, v)]) ++ l) in *
      by now rewrite <- app_assoc.
    unfold Py.set_item at 2. cbn [fst snd]. rewrite set_fresh.
    + now apply IH.
    + unfold Py.keys in *. rewrite !map_app in Hnd.
      apply NoDup_app in Hnd as (Hnd & _ & _).
      apply NoDup_app in Hnd as (_ & Hd & _).
      intros Hin. apply (Hd k); [now apply list_elem_of_In | cbn; left].
Qed.

(** A list of pairs with distinct keys is its own dict. *)
Lemma dict_of_items_wf (l : list (string * V)) :
  Py.dict_wf l -> Py.dict_of_items l = l.
Proof. intros H. unfold Py.dict_of_items. now rewrite dict_of_items_app. Qed.

End DictFacts.

(* ================================================================== *)
(** * Domain and global scores *)
(* ================================================================== *)

Ltac unfold_result :=
  unfold mbind, result_bind, mret, result_ret in *; cbn beta iota.

Section Scorer.
Local Open Scope float_scope.
Import FloatFacts.

Lemma score_domain_loop_spec questions answers total_weight total_score :
  score_domain_loop questions answers total_weight total_score =
    (sw ← question_scores questions answers;
     Ok (fold_left PrimFloat.add (map snd sw) total_weight,
         fold_left PrimFloat.add (map (fun p => fst p * snd p) sw)
           total_score)).
Proof.
  revert total_weight total_score.
  induction questions as [|q rest IH]; intros tw ts; cbn; [reflexivity|].
  unfold_result.
  destruct (score_question q _) as [s|e]; [|reflexivity].
  rewrite IH. unfold_result.
  destruct (question_scores rest answers) as [sw|e]; reflexivity.
Qed.

Lemma score_domain_spec domain answers :
  score_domain domain answers =
    (sw ← question_scores (Domain.questions domain) answers;
     Ok (weighted_mean sw)).
Proof.
  unfold score_domain. rewrite score_domain_loop_spec. unfold_result.
  destruct (question_scores _ _) as [sw|e]; [|reflexivity].
  unfold weighted_mean, fsum. now destruct (_ =? _).
Qed.

(** An absent answer scores 0.0 on a question of either kind. *)
Lemma score_question_None q :
  valid_type q = true -> score_question q Py.None_ = Ok 0.0.
Proof.
  unfold valid_type, score_question.
  destruct (String.eqb _ "stars"); [reflexivity|].
  destruct (String.eqb _ "boolean"); [reflexivity | discriminate].
Qed.

(** The weights of the pairs are those of all the questions, answered or
    not. *)
Lemma question_scores_weights questions answers sw :
  question_scores questions answers = Ok sw ->
  map snd sw = map Question.weight questions.
Proof.
  revert sw. induction questions as [|q rest IH]; intros sw; cbn.
  - now intros [= <-].
  - unfold_result. destruct (score_question q _) as [s|e]; [|discriminate].
    destruct (question_scores rest answers) as [sw'|e]; [|discriminate].
    intros [= <-]. cbn. now rewrite (IH sw').
Qed.

(** C3: the score of a domain is the weighted mean of the scores of its
    questions, each weighted by its weight; the answer of a question is
    looked up by the question's id and a missing answer is read as absent,
    scoring 0.0 while the weight still counts; when the weights sum to
    zero, as for an empty question list, the score is exactly 0.0. *)
Theorem score_domain_weighted_mean
    (domain : Domain.t) (answers : Py.dict Py.value) :
  score_domain domain answers =
    (sw ← question_scores (Domain.questions domain) answers;
     Ok (weighted_mean sw)) /\
  (forall q, Py.get (Question.id q) answers = None ->
     answer_of answers (Question.id q) = Py.None_ /\
     (valid_type q = true ->
      score_question q (answer_of answers (Question.id q)) = Ok 0.0)) /\
  (forall sw, question_scores (Domain.questions domain) answers = Ok sw ->
     map snd sw = map Question.weight (Domain.questions domain)) /\
  (Domain.questions domain = [] -> score_domain domain answers = Ok 0.0) /\
  (forall sw, question_scores (Domain.questions domain) answers = Ok sw ->
     (fsum (map snd sw) =? 0.0) = true ->
     score_domain domain answers = Ok 0.0).
Proof.
  split; [apply score_domain_spec|]. split; [|split; [|split]].
  4: { intros sw Hsw Hz. rewrite score_domain_spec, Hsw. unfold_result.
       unfold weighted_mean. now rewrite Hz. }
  3: { intros Hq. rewrite score_domain_spec, Hq. reflexivity. }
  2: { intros sw. apply question_scores_weights. }
  intros q Hq. unfold answer_of. rewrite Hq. cbn.
  split; [reflexivity | apply score_question_None].
Qed.

Lemma score_domain_weighted_mean_witness :
  let f1 := Question.mk "f1" "stars" "" 1.0 in
  let f2 := Question.mk "f2" "boolean" "" 1.0 in
  let f3 := Question.mk "f3" "stars" "" 0.0 in
  score_domain (Domain.mk "finance" "Finance" "" [f1; f2])
    [("f1"%string, Py.Int 4); ("f2"%string, Py.Bool true)] = Ok 90.0 /\
  score_question f2 (answer_of [("f1"%string, Py.Int 4)] "f2") = Ok 0.0 /\
  score_domain (Domain.mk "vide" "Vide" "" []) [] = Ok 0.0 /\
  score_domain (Domain.mk "nul" "Nul" "" [f3]) [("f3"%string, Py.Int 5)]
    = Ok 0.0.
Proof.
  intros f1 f2 f3. split; [|split; [|split]].
  - rewrite (proj1 (score_domain_weighted_mean _ _)). reflexivity.
  - apply (proj1 (proj2 (score_domain_weighted_mean
                           (Domain.mk "finance" "Finance" "" [f1; f2])
                           [("f1"%string, Py.Int 4)])) f2); reflexivity.
  - apply (proj1 (proj2 (proj2 (proj2 (score_domain_weighted_mean _ _))))).
    reflexivity.
  - apply (proj2 (proj2 (proj2 (proj2 (score_domain_weighted_mean _ _))))
             [(100.0, 0.0)]); reflexivity.
Defined.

Lemma answer_of_unanswered answers qid :
  unanswered answers -> answer_of answers qid = Py.None_.
Proof.
  unfold answer_of. induction 1 as [|[k v] l Hv _ IH]; cbn; [reflexivity|].
  destruct (String.eqb qid k); [exact Hv | exact IH].
Qed.

Lemma score_question_None_inv q x :
  score_question q Py.None_ = Ok x -> x = 0.0.
Proof.
  unfold score_question.
  destruct (String.eqb _ "stars"); [now intros [= <-]|].
  destruct (String.eqb _ "boolean"); [now intros [= <-] | discriminate].
Qed.

Lemma score_domain_loop_unanswered questions answers tw ts tw' ts' :
  unanswered answers ->
  Forall (fun q => is_finite (Question.weight q) = true) questions ->
  is_nan tw = false -> is_zero ts = true ->
  score_domain_loop questions answers tw ts = Ok (tw', ts') ->
  is_nan tw' = false /\ is_zero ts' = true.
Proof.
  intros Hu Hf. revert tw ts.
  induction Hf as [|q rest Hq _ IH]; intros tw ts Htw Hts; cbn.
  - now intros [= <- <-].
  - rewrite (answer_of_unanswered _ _ Hu). unfold_result.
    destruct (score_question q Py.None_) as [x|e] eqn:E; [|discriminate].
    apply score_question_None_inv in E. subst x. apply IH.
    + now apply add_not_nan.
    + apply add_zero_zero; [assumption|]. now apply mul_zero_finite.
Qed.

(** A domain without any actual answer scores zero, whatever the (finite)
    weights of its questions. *)
Lemma score_domain_unanswered domain answers s :
  unanswered answers ->
  Forall (fun q => is_finite (Question.weight q) = true)
    (Domain.questions domain) ->
  score_domain domain answers = Ok s -> is_zero s = true.
Proof.
  intros Hu Hf. unfold score_domain. unfold_result.
  destruct (score_domain_loop _ _ _ _) as [[tw ts]|e] eqn:E; [|discriminate].
  apply score_domain_loop_unanswered in E as [Htw Hts]; auto.
  destruct (tw =? 0.0) eqn:Hz; intros [= <-]; [reflexivity|].
  now apply div_zero.
Qed.

Lemma score_domain_loop_unanswered_exact questions answers tw ts tw' ts' :
  unanswered answers ->
  Forall (fun q => nonneg_finite (Question.weight q) = true) questions ->
  sf_nonneg (Prim2SF tw) -> Prim2SF ts = S754_zero false ->
  score_domain_loop questions answers tw ts = Ok (tw', ts') ->
  sf_nonneg (Prim2SF tw') /\ Prim2SF ts' = S754_zero false.
Proof.
  intros Hu Hf. revert tw ts.
  induction Hf as [|q rest Hq _ IH]; intros tw ts Htw Hts; cbn.
  - now intros [= <- <-].
  - rewrite (answer_of_unanswered _ _ Hu). unfold_result.
    destruct (score_question q Py.None_) as [x|e] eqn:E; [|discriminate].
    apply score_question_None_inv in E. subst x. apply IH.
    + now apply add_nonneg.
    + apply add_pzero; [assumption|]. now apply mul_pzero.
Qed.

(** With weights that are finite and not negative the score of such a
    domain is 0.0 itself. *)
Lemma score_domain_unanswered_exact domain answers s :
  unanswered answers ->
  Forall (fun q => nonneg_finite (Question.weight q) = true)
    (Domain.questions domain) ->
  score_domain domain answers = Ok s -> s = 0.0.
Proof.
  intros Hu Hf. unfold score_domain. unfold_result.
  destruct (score_domain_loop _ _ _ _) as [[tw ts]|e] eqn:E; [|discriminate].
  apply score_domain_loop_unanswered_exact in E as [Htw Hts];
    [| assumption | assumption | exact I | reflexivity].
  destruct (tw =? 0.0) eqn:Hz; intros [= <-]; [reflexivity|].
  now apply div_pzero.
Qed.

Lemma score_domain_loop_unanswered_ok questions answers tw ts :
  unanswered answers ->
  Forall (fun q => valid_type q = true) questions ->
  exists r, score_domain_loop questions answers tw ts = Ok r.
Proof.
  intros Hu Hv. revert tw ts.
  induction Hv as [|q rest Hq _ IH]; intros tw ts; cbn; [eauto|].
  rewrite (answer_of_unanswered _ _ Hu), (score_question_None _ Hq).
  apply IH.
Qed.

Lemma score_domain_unanswered_ok domain answers :
  unanswered answers ->
  Forall (fun q => valid_type q = true) (Domain.questions domain) ->
  exists s, score_domain domain answers = Ok s.
Proof.
  intros Hu Hv. unfold score_domain.
  destruct (score_domain_loop_unanswered_ok _ _ 0.0 0.0 Hu Hv) as [[tw ts] E].
  rewrite E. unfold_result. destruct (tw =? 0.0); eauto.
Qed.

Lemma score_global_loop_spec items all_answers scores ds sum count :
  domain_scores_of items all_answers scores ->
  score_global_loop items all_answers ds sum count =
    Ok (fold_left Py.set_item scores ds,
        fold_left PrimFloat.add (included all_answers scores) sum,
        (count + length (included all_answers scores))%nat).
Proof.
  intros H. revert ds sum count.
  induction H as [|[id d] [id' s] items scores [Hid Hs] _ IH];
    intros ds sum count; cbn in *.
  - unfold included. cbn. now rewrite Nat.add_0_r.
  - subst id'. rewrite Hs. unfold_result. unfold included. cbn.
    fold (answered all_answers id).
    destruct (answered all_answers id); rewrite IH; unfold included; cbn;
      [rewrite Nat.add_succ_r|]; reflexivity.
Qed.

Lemma domain_scores_of_keys domains all_answers scores :
  domain_scores_of domains all_answers scores ->
  Py.keys scores = Py.keys domains.
Proof.
  unfold Py.keys.
  induction 1 as [|? ? ? ? [H _] _ IH]; cbn; [reflexivity|].
  now rewrite H, IH.
Qed.

Lemma domain_scores_of_In domains all_answers scores id s :
  domain_scores_of domains all_answers scores ->
  In (id, s) scores ->
  exists d, In (id, d) domains /\
            score_domain d (answers_of all_answers id) = Ok s.
Proof.
  induction 1 as [|[k d] [k' s'] ? ? [H1 H2] _ IH]; cbn in *; [tauto|].
  intros [[= -> ->]|Hin].
  - subst. eauto.
  - destruct (IH Hin) as (d' & ? & ?). eauto.
Qed.

(** ** When scoring raises nothing *)

Lemma score_question_ok q a :
  valid_type q = true -> finite_answer a = true ->
  exists s, score_question q a = Ok s.
Proof.
  unfold valid_type, score_question. intros Hv Ha.
  destruct (String.eqb _ "stars").
  - destruct a; eauto; cbn [Py.int]; eauto.
    + unfold finite_answer in Ha. apply negb_true_iff in Ha.
      pose proof (proj1 (is_infinity_false f) Ha) as Hi.
      unfold Py.int_of_float.
      destruct (Prim2SF f) as [| sg | |]; eauto. now destruct (Hi sg).
    + destruct (Py.int_of_str s) as [v|e] eqn:E; eauto.
      unfold Py.int_of_str in E.
      destruct (Py.rstrip _ _) as [|[[] [] [] [] [] [] [] []] ?];
        repeat match type of E with
               | context [match ?x with _ => _ end] => destruct x
               end; try discriminate; injection E as <-; eauto.
  - destruct (String.eqb _ "boolean"); [eauto | discriminate].
Qed.

Lemma answer_of_finite answers qid :
  Forall (fun kv => finite_answer (snd kv) = true) answers ->
  finite_answer (answer_of answers qid) = true.
Proof.
  unfold answer_of. induction 1 as [|[k v] l Hv _ IH]; cbn; [reflexivity|].
  destruct (String.eqb qid k); [exact Hv | exact IH].
Qed.

Lemma score_domain_loop_ok questions answers tw ts :
  Forall (fun q => valid_type q = true) questions ->
  Forall (fun kv => finite_answer (snd kv) = true) answers ->
  exists r, score_domain_loop questions answers tw ts = Ok r.
Proof.
  intros Hv Ha. revert tw ts.
  induction Hv as [|q rest Hq _ IH]; intros tw ts; cbn; [eauto|].
  destruct (score_question_ok q (answer_of answers (Question.id q)) Hq
              (answer_of_finite _ _ Ha)) as [s ->].
  apply IH.
Qed.

Lemma score_domain_ok domain answers :
  Forall (fun q => valid_type q = true) (Domain.questions domain) ->
  Forall (fun kv => finite_answer (snd kv) = true) answers ->
  exists s, score_domain domain answers = Ok s.
Proof.
  intros Hv Ha. unfold score_domain.
  destruct (score_domain_loop_ok _ _ 0.0 0.0 Hv Ha) as [[tw ts] ->].
  unfold_result. destruct (tw =? 0.0); eauto.
Qed.

Lemma answers_of_finite all_answers id :
  finite_answers all_answers ->
  Forall (fun kv => finite_answer (snd kv) = true)
    (answers_of all_answers id).
Proof.
  unfold answers_of. induction 1 as [|[k a] l Ha _ IH]; cbn; [constructor|].
  destruct (String.eqb id k); [exact Ha | exact IH].
Qed.

(** On a catalogue of rating and boolean questions and answers without an
    infinite float, every domain has a score. *)
Lemma domain_scores_exist domains all_answers :
  valid_catalogue domains -> finite_answers all_answers ->
  exists scores, domain_scores_of domains all_answers scores.
Proof.
  intros Hv Ha. induction Hv as [|[k d] l Hd _ [scores IH]].
  - exists []. constructor.
  - destruct (score_domain_ok d (answers_of all_answers k) Hd
                (answers_of_finite _ _ Ha)) as [s Hs].
    exists ((k, s) :: scores). constructor; [split; [reflexivity | exact Hs]|].
    exact IH.
Qed.

Lemma score_global_spec domains all_answers scores :
  Py.dict_wf domains ->
  domain_scores_of domains all_answers scores ->
  score_global domains all_answers =
    Ok (Py.set GLOBAL_KEY (mean (included all_answers scores)) scores).
Proof.
  intros Hwf Hs. unfold score_global.
  rewrite (score_global_loop_spec _ _ _ _ _ _ Hs). unfold_result.
  fold (Py.dict_of_items scores). rewrite dict_of_items_wf
    by (unfold Py.dict_wf; now rewrite (domain_scores_of_keys _ _ _ Hs)).
  do 2 f_equal. unfold mean, fsum. cbn [Nat.add].
  destruct (included all_answers scores); reflexivity.
Qed.

(** C1: [score_global] records the score of every domain and, under the
    reserved key, the global score.  A domain enters the global average
    exactly when its answer sub-map is non-empty, whatever its score; the
    global score is the unweighted mean of the scores that enter, and 0.0
    when none does; a domain with no answer entry is recorded with score
    0.0 and left out of the average. *)
Theorem score_global_mean
    (domains : Py.dict Domain.t) (all_answers : Answers)
    (scores : list (string * float)) :
  Py.dict_wf domains ->
  domain_scores_of domains all_answers scores ->
  exists r, score_global domains all_answers = Ok r /\
    (forall id, Py.get id r <> None <->
                In id (Py.keys domains) \/ id = GLOBAL_KEY) /\
    (forall id s, In (id, s) scores -> id <> GLOBAL_KEY ->
                  Py.get id r = Some s) /\
    (forall id s,
       In (id, s)
          (List.filter (fun ks => answered all_answers (fst ks)) scores) <->
       In (id, s) scores /\ answers_of all_answers id <> []) /\
    Py.get GLOBAL_KEY r = Some (mean (included all_answers scores)) /\
    (included all_answers scores = [] -> Py.get GLOBAL_KEY r = Some 0.0) /\
    (forall id d s,
       In (id, d) domains -> In (id, s) scores ->
       answers_of all_answers id = [] ->
       (Forall (fun q => is_finite (Question.weight q) = true)
          (Domain.questions d) ->
        is_zero s = true) /\
       (Forall (fun q => nonneg_finite (Question.weight q) = true)
          (Domain.questions d) ->
        s = 0.0)).
Proof.
  intros Hwf Hs.
  assert (Py.dict_wf scores) as Hwf'
    by (unfold Py.dict_wf; now rewrite (domain_scores_of_keys _ _ _ Hs)).
  eexists. split; [apply (score_global_spec _ _ _ Hwf Hs)|].
  split; [|split; [|split; [|split; [|split]]]].
  - intros id. rewrite <- (domain_scores_of_keys _ _ _ Hs).
    destruct (String.eqb_spec GLOBAL_KEY id) as [<-|Hne].
    + rewrite get_set_eq. split; [auto | discriminate].
    + rewrite get_set_ne by assumption. rewrite get_None.
      split; [intros H | intros [H|H]].
      * left. destruct (in_dec string_dec id (Py.keys scores)); tauto.
      * tauto.
      * congruence.
  - intros id s Hin Hne. rewrite get_set_ne by congruence.
    now apply get_In.
  - intros id s. rewrite filter_In. cbn. unfold answered.
    destruct (answers_of all_answers id); cbn; intuition congruence.
  - apply get_set_eq.
  - intros E. rewrite get_set_eq, E. reflexivity.
  - intros id d s Hd Hin He.
    destruct (domain_scores_of_In _ _ _ _ _ Hs Hin) as (d' & Hd' & Hsc).
    assert (d' = d) as ->.
    { apply (get_In _ _ _ Hwf) in Hd, Hd'. congruence. }
    rewrite He in Hsc. split; intros Hf.
    + eapply score_domain_unanswered; eauto. constructor.
    + eapply score_domain_unanswered_exact; eauto. constructor.
Qed.

Lemma score_global_mean_witness :
  let q := Question.mk "q" "boolean" "" 1.0 in
  let domains :=
    [("a", Domain.mk "a" "A" "" [q]); ("b", Domain.mk "b" "B" "" [q]);
     ("c", Domain.mk "c" "C" "" [q])]%string in
  let all_answers :=
    [("a", [("q", Py.Bool false)]); ("b", [("q", Py.Bool true)])]%string in
  exists r, score_global domains all_answers = Ok r /\
    Py.get "a" r = Some 0.0 /\ Py.get "b" r = Some 100.0 /\
    Py.get "c" r = Some 0.0 /\ Py.get GLOBAL_KEY r = Some 50.0.
Proof.
  intros q domains all_answers.
  pose (scores := [("a", 0.0); ("b", 100.0); ("c", 0.0)]%string).
  assert (Py.dict_wf domains) as Hwf
    by (unfold Py.dict_wf; cbn; apply (bool_decide_unpack _);
        vm_compute; exact I).
  assert (domain_scores_of domains all_answers scores) as Hs
    by (repeat (constructor; [split; reflexivity|]); constructor).
  destruct (score_global_mean domains all_answers scores Hwf Hs)
    as (r & Hr & _ & Hget & _ & Hglobal & _).
  exists r. split; [exact Hr|].
  split; [|split; [|split]].
  - apply Hget; [cbn; tauto | discriminate].
  - apply Hget; [cbn; tauto | discriminate].
  - apply Hget; [cbn; tauto | discriminate].
  - exact Hglobal.
Defined.

End Scorer.

(* ================================================================== *)
(** * Facts about [sorted] *)
(* ================================================================== *)

Section SortFacts.
Local Open Scope float_scope.
Import FloatFacts.
Context {A : Type} (key : A -> float).

Let le (a b : A) : Prop := (key a <=? key b) = true.
Let ok (a : A) : Prop := is_nan (key a) = false.

(** ** [sorted] permutes, whatever the keys *)

Lemma ascending_run_app prev l run rest :
  Py.ascending_run key prev l = (run, rest) -> run ++ rest = l.
Proof.
  revert prev run rest. induction l as [|x l IH]; intros prev run rest; cbn.
  - now intros [= <- <-].
  - destruct (key x <? key prev); [now intros [= <- <-]|].
    destruct (Py.ascending_run key x l) as [run' rest'] eqn:E.
    intros [= <- <-]. cbn. f_equal. now apply (IH x).
Qed.

Lemma descending_run_app prev l run rest :
  Py.descending_run key prev l = (run, rest) -> run ++ rest = l.
Proof.
  revert prev run rest. induction l as [|x l IH]; intros prev run rest; cbn.
  - now intros [= <- <-].
  - destruct (key x <? key prev); [|now intros [= <- <-]].
    destruct (Py.descending_run key x l) as [run' rest'] eqn:E.
    intros [= <- <-]. cbn. f_equal. now apply (IH x).
Qed.

Lemma count_run_perm l run rest :
  Py.count_run key l = (run, rest) -> Permutation (run ++ rest) l.
Proof.
  destruct l as [|x [|y r]]; cbn; try (intros [= <- <-]; reflexivity).
  destruct (key y <? key x).
  - destruct (Py.descending_run key y r) as [run' rest'] eqn:E.
    intros [= <- <-]. apply descending_run_app in E. subst r.
    change ((rev run' ++ [y]) ++ [x]) with (rev (x :: y :: run')).
    now rewrite <- Permutation_rev.
  - destruct (Py.ascending_run key y r) as [run' rest'] eqn:E.
    intros [= <- <-]. apply ascending_run_app in E. now subst r.
Qed.

Lemma binary_insert_perm a x :
  Permutation (Py.binary_insert key a x) (x :: a).
Proof.
  unfold Py.binary_insert.
  rewrite <- Permutation_middle. now rewrite take_drop.
Qed.

Lemma binarysort_perm rest run :
  Permutation (Py.binarysort key run rest) (run ++ rest).
Proof.
  unfold Py.binarysort. revert run.
  induction rest as [|x rest IH]; intros run; cbn.
  - now rewrite app_nil_r.
  - rewrite IH, binary_insert_perm. apply Permutation_middle.
Qed.

Lemma sort_perm l : Permutation (Py.sort key l) l.
Proof.
  unfold Py.sort. destruct (Py.count_run key l) as [run rest] eqn:E.
  rewrite binarysort_perm. now apply count_run_perm.
Qed.

Lemma sorted_perm reverse l : Permutation (Py.sorted key reverse l) l.
Proof.
  unfold Py.sorted. destruct reverse.
  - now rewrite <- Permutation_rev, sort_perm, <- Permutation_rev.
  - apply sort_perm.
Qed.

(** The search of [binarysort] ends before its fuel does. *)
Lemma bisect_fuel fuel fuel' pivot a l r :
  r - l <= fuel -> r - l <= fuel' ->
  Py.bisect key fuel pivot a l r = Py.bisect key fuel' pivot a l r.
Proof.
  revert fuel' l r.
  induction fuel as [|fuel IH]; intros [|fuel'] l r H H'; cbn [Py.bisect];
    try reflexivity.
  - assert ((l <? r)%nat = false) as -> by (apply Nat.ltb_ge; lia).
    reflexivity.
  - assert ((l <? r)%nat = false) as -> by (apply Nat.ltb_ge; lia).
    reflexivity.
  - destruct (l <? r)%nat eqn:E; [|reflexivity].
    apply Nat.ltb_lt in E.
    pose proof (Nat.Div0.mul_div_le (r - l) 2).
    destruct (a !! (l + (r - l) / 2)%nat) as [y|]; [|reflexivity].
    destruct (Py.lt key pivot y); apply IH; lia.
Qed.

(** ** The stable insertion sort *)

Lemma stable_insert_perm x l : Permutation (stable_insert key x l) (x :: l).
Proof.
  induction l as [|y l IH]; cbn; [reflexivity|].
  destruct (key x <? key y); [reflexivity|].
  rewrite IH. apply perm_swap.
Qed.

Lemma stable_fold_perm l acc :
  Permutation (fold_left (fun acc x => stable_insert key x acc) l acc)
    (acc ++ l).
Proof.
  revert acc. induction l as [|x l IH]; intros acc; cbn.
  - now rewrite app_nil_r.
  - rewrite IH, stable_insert_perm. apply Permutation_middle.
Qed.

Lemma stable_sort_perm l : Permutation (stable_sort key l) l.
Proof. unfold stable_sort. now rewrite stable_fold_perm. Qed.

Lemma stable_insert_ok x l :
  ok x -> Forall ok l -> Forall ok (stable_insert key x l).
Proof.
  intros Hx Hl. apply Forall_forall. intros z Hz.
  apply list_elem_of_In in Hz.
  apply (Permutation_in _ (stable_insert_perm x l)) in Hz.
  destruct Hz as [<-|Hz]; [assumption|].
  rewrite Forall_forall in Hl. apply Hl. now apply list_elem_of_In.
Qed.

Lemma stable_insert_sorted x l :
  ok x -> Forall ok l ->
  StronglySorted le l -> StronglySorted le (stable_insert key x l).
Proof.
  intros Hx Hl Hs. induction Hs as [|y l Hs IH Hy]; cbn.
  - repeat constructor.
  - apply Forall_cons in Hl as [Hoy Hl].
    destruct (key x <? key y) eqn:E.
    + constructor; [now constructor|].
      assert (le x y) as Hxy.
      { unfold le. apply ltb_true in E as (? & ? & E).
        apply leb_true. repeat split; auto. congruence. }
      constructor; [assumption|].
      eapply Forall_impl; [exact Hy|].
      intros z Hz. unfold le in *. eapply leb_trans; eauto.
    + constructor; [now apply IH|].
      apply Forall_forall. intros z Hz.
      apply list_elem_of_In in Hz.
      apply (Permutation_in _ (stable_insert_perm x l)) in Hz.
      destruct Hz as [<-|Hz].
      * unfold le. now apply ltb_false_leb.
      * apply Forall_forall with (x := z) in Hy;
          [assumption | now apply list_elem_of_In].
Qed.

Lemma stable_fold_sorted l acc :
  Forall ok l -> Forall ok acc -> StronglySorted le acc ->
  StronglySorted le
    (fold_left (fun acc x => stable_insert key x acc) l acc).
Proof.
  intros Hl. revert acc.
  induction Hl as [|x l Hx _ IH]; intros acc Hacc Hs; cbn; [assumption|].
  apply IH; [now apply stable_insert_ok | now apply stable_insert_sorted].
Qed.

Lemma stable_sort_sorted l :
  Forall ok l -> StronglySorted le (stable_sort key l).
Proof.
  intros H. apply stable_fold_sorted; [assumption | constructor | constructor].
Qed.



(** ** Without a NaN key, [sorted] is the stable sort *)

Lemma leb_ltb_false x y : (x <=? y) = true -> (y <? x) = false.
Proof.
  intros H. destruct (y <? x) eqn:E; [|reflexivity].
  apply ltb_leb_false in E. congruence.
Qed.

Lemma ltb_leb_trans x y z :
  (x <? y) = true -> (y <=? z) = true -> (x <? z) = true.
Proof.
  intros Hxy Hyz. destruct (x <? z) eqn:E; [reflexivity|].
  apply ltb_true in Hxy as Hx. destruct Hx as (Hx & _ & _).
  apply leb_true in Hyz as Hz. destruct Hz as (_ & Hz & _).
  pose proof (leb_trans _ _ _ Hyz (ltb_false_leb _ _ Hx Hz E)) as Hyx.
  apply ltb_leb_false in Hxy. congruence.
Qed.

(** On a list that [pivot] cuts in two, nothing above it before the cut
    and nothing but elements above it after, the search finds the cut. *)
Lemma bisect_split fuel pivot a1 a2 l r :
  Forall (fun y => Py.lt key pivot y = false) a1 ->
  Forall (fun y => Py.lt key pivot y = true) a2 ->
  l <= length a1 <= r -> r <= length (a1 ++ a2) -> r - l <= fuel ->
  Py.bisect key fuel pivot (a1 ++ a2) l r = length a1.
Proof.
  intros H1 H2. revert l r.
  induction fuel as [|fuel IH]; intros l r Hl Hr Hf; cbn [Py.bisect];
    [lia|].
  destruct (l <? r)%nat eqn:E; [|apply Nat.ltb_ge in E; lia].
  apply Nat.ltb_lt in E.
  pose proof (Nat.Div0.mul_div_le (r - l) 2) as Hd.
  set (p := (l + (r - l) / 2)%nat) in *.
  assert (p < r) as Hp by (unfold p; lia).
  destruct (decide (p < length a1)) as [Hlt|Hge].
  - destruct (lookup_lt_is_Some_2 a1 p Hlt) as [y Hy].
    rewrite (lookup_app_l_Some _ _ _ _ Hy).
    rewrite Forall_forall in H1.
    rewrite (H1 y) by (eapply list_elem_of_lookup_2; exact Hy).
    apply IH; lia.
  - assert (p - length a1 < length a2) as Hlt
      by (rewrite length_app in Hr; lia).
    destruct (lookup_lt_is_Some_2 a2 _ Hlt) as [y Hy].
    rewrite lookup_app_r by lia. rewrite Hy.
    rewrite Forall_forall in H2.
    rewrite (H2 y) by (eapply list_elem_of_lookup_2; exact Hy).
    apply IH; lia.
Qed.

Lemma stable_insert_split x a1 a2 :
  Forall (fun y => Py.lt key x y = false) a1 ->
  Forall (fun y => Py.lt key x y = true) a2 ->
  stable_insert key x (a1 ++ a2) = a1 ++ x :: a2.
Proof.
  unfold Py.lt. intros H1 H2.
  induction H1 as [|y a1 Hy _ IH]; cbn.
  - destruct H2 as [|y a2 Hy _]; cbn; [reflexivity|]. now rewrite Hy.
  - now rewrite Hy, IH.
Qed.

Lemma sorted_split x a :
  ok x -> Forall ok a -> StronglySorted le a ->
  exists a1 a2, a = a1 ++ a2 /\
    Forall (fun y => Py.lt key x y = false) a1 /\
    Forall (fun y => Py.lt key x y = true) a2.
Proof.
  unfold Py.lt. intros Hx Ha Hs.
  induction Hs as [|y a Hs IH Hy]; [exists [], []; auto|].
  apply Forall_cons in Ha as [Hoy Ha].
  destruct (key x <? key y) eqn:E.
  - exists [], (y :: a). split; [reflexivity|]. split; [constructor|].
    constructor; [exact E|].
    eapply Forall_impl; [exact Hy|]. cbn. intros z Hz.
    exact (ltb_leb_trans _ _ _ E Hz).
  - destruct (IH Ha) as (a1 & a2 & -> & H1 & H2).
    exists (y :: a1), a2. split; [reflexivity|].
    split; [now constructor | exact H2].
Qed.

Lemma binary_insert_stable a x :
  ok x -> Forall ok a -> StronglySorted le a ->
  Py.binary_insert key a x = stable_insert key x a.
Proof.
  intros Hx Ha Hs.
  destruct (sorted_split x a Hx Ha Hs) as (a1 & a2 & -> & H1 & H2).
  unfold Py.binary_insert.
  rewrite (bisect_split _ x a1 a2 0 _ H1 H2), stable_insert_split;
    try assumption; try lia.
  - now rewrite take_app_length, drop_app_length.
  - rewrite length_app. lia.
Qed.

Lemma binarysort_stable rest run :
  Forall ok rest -> Forall ok run -> StronglySorted le run ->
  Py.binarysort key run rest =
  fold_left (fun acc x => stable_insert key x acc) rest run.
Proof.
  unfold Py.binarysort. intros Hrest. revert run.
  induction Hrest as [|x rest Hx _ IH]; intros run Hrun Hs; cbn;
    [reflexivity|].
  rewrite binary_insert_stable by assumption.
  apply IH; [now apply stable_insert_ok | now apply stable_insert_sorted].
Qed.

(** A non-descending run is what the stable sort makes of it. *)
Lemma ascending_run_stable l : forall prev run rest acc,
  Py.ascending_run key prev l = (run, rest) ->
  ok prev -> Forall ok l -> Forall (fun z => le z prev) acc ->
  fold_left (fun acc x => stable_insert key x acc) run (acc ++ [prev]) =
  acc ++ prev :: run.
Proof.
  induction l as [|x l IH]; intros prev run rest acc; cbn.
  - now intros [= <- <-].
  - destruct (key x <? key prev) eqn:E; [now intros [= <- <-]|].
    destruct (Py.ascending_run key x l) as [run' rest'] eqn:Er.
    intros [= <- <-] Hp [Hx Hl]%Forall_cons Hacc. cbn.
    assert (le prev x) as Hpx by (unfold le; now apply ltb_false_leb).
    assert (Forall (fun z => le z x) (acc ++ [prev])) as Hacc'.
    { apply Forall_app. split; [|now repeat constructor].
      eapply Forall_impl; [exact Hacc|]. cbn. intros z Hz.
      unfold le in *. eapply leb_trans; eauto. }
    rewrite <- (app_nil_r (acc ++ [prev])) at 1.
    rewrite stable_insert_split; [|
      eapply Forall_impl; [exact Hacc'|]; cbn; intros z Hz;
      now apply leb_ltb_false | constructor].
    rewrite (IH x run' rest' (acc ++ [prev]) Er Hx Hl Hacc').
    now rewrite <- app_assoc.
Qed.

(** A strictly descending run is sorted by turning it round. *)
Lemma descending_run_stable l : forall prev run rest acc,
  Py.descending_run key prev l = (run, rest) ->
  fold_left (fun acc x => stable_insert key x acc) run (prev :: acc) =
  rev run ++ prev :: acc.
Proof.
  induction l as [|x l IH]; intros prev run rest acc; cbn.
  - now intros [= <- <-].
  - destruct (key x <? key prev) eqn:E; [|now intros [= <- <-]].
    destruct (Py.descending_run key x l) as [run' rest'] eqn:Er.
    intros [= <- <-]. cbn. rewrite E.
    rewrite (IH x run' rest' (prev :: acc) Er).
    now rewrite <- app_assoc.
Qed.

Lemma count_run_stable l run rest :
  Forall ok l -> Py.count_run key l = (run, rest) ->
  exists p, l = p ++ rest /\ stable_sort key p = run.
Proof.
  intros Hl. destruct l as [|x [|y r]]; cbn.
  - intros [= <- <-]. now exists [].
  - intros [= <- <-]. now exists [x].
  - apply Forall_cons in Hl as [Hx [Hy Hr]%Forall_cons].
    destruct (key y <? key x) eqn:E.
    + destruct (Py.descending_run key y r) as [run' rest'] eqn:Er.
      intros [= <- <-]. exists (x :: y :: run'). split.
      * apply descending_run_app in Er. now subst r.
      * unfold stable_sort. cbn. rewrite E.
        rewrite (descending_run_stable _ _ _ _ [x] Er).
        cbn. now rewrite <- app_assoc.
    + destruct (Py.ascending_run key y r) as [run' rest'] eqn:Er.
      intros [= <- <-]. exists (x :: y :: run'). split.
      * apply ascending_run_app in Er. now subst r.
      * unfold stable_sort. cbn. rewrite E.
        apply (ascending_run_stable _ _ _ _ [x] Er Hy Hr).
        repeat constructor. unfold le. now apply ltb_false_leb.
Qed.

Lemma sort_stable l :
  Forall ok l -> Py.sort key l = stable_sort key l.
Proof.
  intros Hl. unfold Py.sort.
  destruct (Py.count_run key l) as [run rest] eqn:E.
  destruct (count_run_stable l run rest Hl E) as (p & -> & <-).
  apply Forall_app in Hl as [Hp Hrest].
  rewrite binarysort_stable.
  - unfold stable_sort. now rewrite fold_left_app.
  - exact Hrest.
  - apply Forall_forall. intros z Hz. apply list_elem_of_In in Hz.
    apply (Permutation_in _ (stable_sort_perm p)) in Hz.
    rewrite Forall_forall in Hp. apply Hp. now apply list_elem_of_In.
  - now apply stable_sort_sorted.
Qed.

(** On keys without a NaN, [sorted] is the stable sort, in both
    directions. *)
Lemma sorted_stable reverse l :
  Forall ok l -> Py.sorted key reverse l = stable_sorted key reverse l.
Proof.
  intros Hl. unfold Py.sorted, stable_sorted. destruct reverse.
  - rewrite sort_stable; [reflexivity | now apply Forall_rev].
  - now apply sort_stable.
Qed.



End SortFacts.

(* ================================================================== *)
(** * Weak and strong points *)
(* ================================================================== *)

Section Analyzer.
Local Open Scope float_scope.
Import FloatFacts.

(** ** When a score is a number *)







Lemma extract_loop_spec keep items all_answers scores acc :
  domain_scores_of (answered_domains items all_answers) all_answers scores ->
  extract_loop keep items all_answers acc =
    Ok (fold_left Py.set_item
          (List.filter (fun ks => keep (classify_domain (snd ks))) scores)
          acc).
Proof.
  revert scores acc. unfold answered_domains.
  induction items as [|[id d] items IH]; intros scores acc H; cbn in *.
  - inversion H. reflexivity.
  - fold (answered all_answers id) in *.
    destruct (answered all_answers id); cbn in *; [|now apply IH].
    inversion H as [|? [id' s] ? scores' [Hid Hs] Hrest]; subst; cbn in *.
    subst id'. rewrite Hs. unfold_result.
    destruct (keep _); cbn; now apply IH.
Qed.

Lemma answered_domains_keys domains all_answers :
  Py.dict_wf domains -> Py.dict_wf (answered_domains domains all_answers).
Proof.
  unfold Py.dict_wf, Py.keys, answered_domains.
  induction domains as [|[id d] l IH]; cbn; [auto|].
  intros H. apply NoDup_cons in H as [Hid H].
  destruct (answered all_answers id); cbn; [|auto].
  apply NoDup_cons. split; [|auto].
  intros Hin. apply Hid. apply list_elem_of_In in Hin.
  apply list_elem_of_In. apply in_map_iff in Hin as (x & <- & Hx).
  apply filter_In in Hx as [Hx _]. now apply in_map.
Qed.

Lemma filter_keys_wf (keep : string * float -> bool) scores :
  Py.dict_wf scores -> Py.dict_wf (List.filter keep scores).
Proof.
  unfold Py.dict_wf, Py.keys.
  induction scores as [|[id s] l IH]; cbn; [auto|].
  intros H. apply NoDup_cons in H as [Hid H].
  destruct (keep (id, s)); cbn; [|auto].
  apply NoDup_cons. split; [|auto].
  intros Hin. apply Hid. apply list_elem_of_In in Hin.
  apply list_elem_of_In. apply in_map_iff in Hin as (x & <- & Hx).
  apply filter_In in Hx as [Hx _]. now apply in_map.
Qed.

Lemma perm_keys_wf (l l' : list (string * float)) :
  Permutation l l' -> Py.dict_wf l' -> Py.dict_wf l.
Proof.
  unfold Py.dict_wf, Py.keys. intros Hp H.
  now rewrite (Permutation_map fst Hp).
Qed.

(** The result of either extraction: the scores of the answered domains,
    filtered on the tier, then sorted. *)
Lemma extract_points_spec keep reverse domains all_answers scores :
  Py.dict_wf domains ->
  domain_scores_of (answered_domains domains all_answers) all_answers scores ->
  (scores' ← extract_loop keep domains all_answers [];
   Ok (Py.dict_of_items (Py.sorted snd reverse scores'))) =
  Ok (Py.sorted snd reverse
        (List.filter (fun ks => keep (classify_domain (snd ks))) scores)).
Proof.
  intros Hwf Hs.
  assert (Py.dict_wf scores) as Hwf'.
  { unfold Py.dict_wf. rewrite (domain_scores_of_keys _ _ _ Hs).
    now apply answered_domains_keys. }
  rewrite (extract_loop_spec _ _ _ _ _ Hs). unfold_result.
  fold (Py.dict_of_items
          (List.filter (fun ks => keep (classify_domain (snd ks))) scores)).
  rewrite (dict_of_items_wf (List.filter _ scores))
    by now apply filter_keys_wf.
  rewrite dict_of_items_wf; [reflexivity|].
  eapply perm_keys_wf; [apply sorted_perm | now apply filter_keys_wf].
Qed.

Lemma extract_weak_points_spec domains all_answers scores :
  Py.dict_wf domains ->
  domain_scores_of (answered_domains domains all_answers) all_answers scores ->
  extract_weak_points domains all_answers =
    Ok (Py.sorted snd false
          (List.filter (fun ks => negb (is_strong ks)) scores)).
Proof.
  intros Hwf Hs. unfold extract_weak_points.
  now rewrite (extract_points_spec _ _ _ _ scores Hwf Hs).
Qed.

Lemma extract_strong_points_spec domains all_answers scores :
  Py.dict_wf domains ->
  domain_scores_of (answered_domains domains all_answers) all_answers scores ->
  extract_strong_points domains all_answers =
    Ok (Py.sorted snd true (List.filter is_strong scores)).
Proof.
  intros Hwf Hs. unfold extract_strong_points.
  now rewrite (extract_points_spec _ _ _ _ scores Hwf Hs).
Qed.

Lemma domain_scores_of_In_l domains all_answers scores id d :
  domain_scores_of domains all_answers scores ->
  In (id, d) domains ->
  exists s, In (id, s) scores /\
            score_domain d (answers_of all_answers id) = Ok s.
Proof.
  induction 1 as [|[k d'] [k' s'] ? ? [H1 H2] _ IH]; cbn in *; [tauto|].
  intros [[= -> ->]|Hin].
  - subst. eauto.
  - destruct (IH Hin) as (s & ? & ?). eauto.
Qed.

Lemma answered_true all_answers id :
  answered all_answers id = true <-> answers_of all_answers id <> [].
Proof.
  unfold answered. destruct (answers_of all_answers id); cbn;
    intuition congruence.
Qed.










Lemma classify_domain_zero s :
  is_zero s = true -> classify_domain s = CRITIQUE.
Proof.
  intros [sg E]%is_zero_true.
  unfold classify_domain, STRONG_THRESHOLD, IMPROVE_THRESHOLD.
  rewrite !leb_spec, E. reflexivity.
Qed.

Lemma domain_scores_of_answered domains all_answers scores :
  domain_scores_of domains all_answers scores ->
  domain_scores_of (answered_domains domains all_answers) all_answers
    (List.filter (fun ks => answered all_answers (fst ks)) scores).
Proof.
  unfold answered_domains.
  induction 1 as [|[k d] [k' s] ? ? [H1 H2] _ IH]; cbn in *; [constructor|].
  subst k'. destruct (answered all_answers k); [|exact IH].
  constructor; [split; [reflexivity | assumption] | exact IH].
Qed.

Lemma set_unanswered k answers :
  unanswered answers -> unanswered (Py.set k Py.None_ answers).
Proof.
  induction 1 as [|[k' v] l Hv Hl IH]; cbn.
  - repeat constructor.
  - destruct (String.eqb k k'); constructor; auto.
Qed.

Lemma set_nonempty {V} k (v : V) d : Py.set k v d <> [].
Proof. destruct d as [|[k' v'] d]; cbn; [|destruct (String.eqb k k')]; discriminate. Qed.

Lemma empty_answers_of_unanswered questions acc :
  unanswered acc -> unanswered (empty_answers_of questions acc).
Proof.
  revert acc. induction questions as [|q rest IH]; intros acc H; cbn;
    [assumption|].
  apply IH. now apply set_unanswered.
Qed.

Lemma empty_answers_of_nonempty questions acc :
  questions <> [] \/ acc <> [] -> empty_answers_of questions acc <> [].
Proof.
  revert acc. induction questions as [|q rest IH]; intros acc H; cbn.
  - tauto.
  - apply IH. right. apply set_nonempty.
Qed.

Lemma generate_empty_answers_loop_spec items acc :
  generate_empty_answers_loop items acc =
    fold_left Py.set_item
      (map (fun kd => (fst kd, empty_answers_of (Domain.questions (snd kd)) []))
         items)
      acc.
Proof.
  revert acc. induction items as [|[k d] items IH]; intros acc; cbn;
    [reflexivity | apply IH].
Qed.

(** The template of [generate_empty_answers]: for each domain, every
    question id mapped to [None]. *)
Lemma generate_empty_answers_get domains id d :
  Py.dict_wf domains -> In (id, d) domains ->
  answers_of (generate_empty_answers domains) id =
    empty_answers_of (Domain.questions d) [].
Proof.
  intros Hwf Hin. unfold generate_empty_answers, answers_of.
  rewrite generate_empty_answers_loop_spec.
  set (f := fun kd : string * Domain.t =>
              (fst kd, empty_answers_of (Domain.questions (snd kd)) [])).
  assert (Py.keys (map f domains) = Py.keys domains) as Hk
    by (unfold Py.keys; rewrite map_map; reflexivity).
  fold (Py.dict_of_items (map f domains)).
  rewrite dict_of_items_wf by (unfold Py.dict_wf; now rewrite Hk).
  rewrite (get_In id (empty_answers_of (Domain.questions d) [])).
  - reflexivity.
  - unfold Py.dict_wf. now rewrite Hk.
  - apply (in_map f) in Hin. exact Hin.
Qed.

(** C10: an answer sub-map with keys but only [None] values counts as
    answers: its domain enters the average of [score_global] with a score
    of zero and appears, as critical, among the weak points; the template
    of [generate_empty_answers] is such a sub-map for every domain that
    has a question. *)
Theorem unanswered_domain_counts (domains : Py.dict Domain.t) :
  Py.dict_wf domains ->
  (forall id d,
     In (id, d) domains -> Domain.questions d <> [] ->
     answers_of (generate_empty_answers domains) id <> [] /\
     unanswered (answers_of (generate_empty_answers domains) id)) /\
  (forall all_answers scores id d,
     domain_scores_of domains all_answers scores ->
     In (id, d) domains -> id <> GLOBAL_KEY ->
     answers_of all_answers id <> [] ->
     unanswered (answers_of all_answers id) ->
     Forall (fun q => is_finite (Question.weight q) = true)
       (Domain.questions d) ->
     exists s r weak,
       score_domain d (answers_of all_answers id) = Ok s /\
       is_zero s = true /\
       (Forall (fun q => nonneg_finite (Question.weight q) = true)
          (Domain.questions d) -> s = 0.0) /\
       score_global domains all_answers = Ok r /\
       Py.get id r = Some s /\
       In (id, s)
          (List.filter (fun ks => answered all_answers (fst ks)) scores) /\
       Py.get GLOBAL_KEY r = Some (mean (included all_answers scores)) /\
       extract_weak_points domains all_answers = Ok weak /\
       In (id, s) weak /\
       classify_domain s = CRITIQUE).
Proof.
  intros Hwf. split.
  - intros id d Hin Hq. rewrite (generate_empty_answers_get _ _ _ Hwf Hin).
    split.
    + apply empty_answers_of_nonempty. now left.
    + apply empty_answers_of_unanswered. constructor.
  - intros all_answers scores id d Hs Hin Hid Hne Hun Hfin.
    destruct (domain_scores_of_In_l _ _ _ _ _ Hs Hin) as (s & Hins & Hsc).
    pose proof (score_domain_unanswered _ _ _ Hun Hfin Hsc) as Hz.
    pose proof (classify_domain_zero _ Hz) as Hc.
    assert (Py.dict_wf scores) as Hwf'
      by (unfold Py.dict_wf; now rewrite (domain_scores_of_keys _ _ _ Hs)).
    assert (In (id, s)
              (List.filter (fun ks => answered all_answers (fst ks)) scores))
      as Hincl by (apply filter_In; split; [|apply answered_true]; assumption).
    exists s. eexists. eexists.
    split; [exact Hsc|]. split; [exact Hz|].
    split; [intros Hnn;
            now apply (score_domain_unanswered_exact _ _ _ Hun Hnn Hsc)|].
    split; [apply (score_global_spec _ _ _ Hwf Hs)|].
    split; [rewrite get_set_ne by congruence; now apply get_In|].
    split; [exact Hincl|]. split; [apply get_set_eq|].
    split; [apply (extract_weak_points_spec _ _ _ Hwf
                     (domain_scores_of_answered _ _ _ Hs))|].
    split; [|exact Hc].
    eapply Permutation_in; [symmetry; apply sorted_perm|].
    apply filter_In. split; [exact Hincl|].
    unfold is_strong. cbn [snd]. rewrite Hc. reflexivity.
Qed.

Lemma unanswered_domain_counts_witness :
  let q := Question.mk "q" "stars" "" 1.0 in
  let b := Question.mk "b" "boolean" "" 2.0 in
  let domains :=
    [("a", Domain.mk "a" "A" "" [q; b]); ("b", Domain.mk "b" "B" "" [b])]%string in
  let all_answers :=
    [("a", [("q", Py.None_); ("b", Py.None_)]); ("b", [("b", Py.Bool true)])]%string in
  generate_empty_answers domains =
    [("a", [("q", Py.None_); ("b", Py.None_)]); ("b", [("b", Py.None_)])]%string /\
  answers_of (generate_empty_answers domains) "a" <> [] /\
  exists s r weak,
    score_domain (Domain.mk "a" "A" "" [q; b]) (answers_of all_answers "a")
      = Ok s /\
    score_global domains all_answers = Ok r /\
    Py.get GLOBAL_KEY r = Some 50.0 /\
    extract_weak_points domains all_answers = Ok weak /\
    In ("a"%string, s) weak.
Proof.
  intros q b domains all_answers.
  pose (scores := [("a", 0.0); ("b", 100.0)]%string).
  assert (Py.dict_wf domains) as Hwf
    by (unfold Py.dict_wf; cbn; apply (bool_decide_unpack _);
        vm_compute; exact I).
  assert (domain_scores_of domains all_answers scores) as Hs
    by (repeat (constructor; [split; reflexivity|]); constructor).
  destruct (unanswered_domain_counts domains Hwf) as [Hgen Hcount].
  split; [reflexivity|].
  split.
  - apply (Hgen "a"%string (Domain.mk "a" "A" "" [q; b]));
      [cbn; tauto | discriminate].
  - destruct (Hcount all_answers scores "a"%string
                (Domain.mk "a" "A" "" [q; b]) Hs)
      as (s & r & weak & Hsc & _ & _ & Hr & _ & _ & Hg & Hw & Hin & _).
    + cbn; tauto.
    + discriminate.
    + discriminate.
    + repeat constructor.
    + repeat constructor.
    + exists s, r, weak. repeat (split; [assumption|]). exact Hin.
Defined.

(** The scenario of three domains scoring 50.0, 90.0 and 30.0, and a
    fourth without answers. *)
Example extract_points_example :
  let r n := Question.mk n "stars" "" 1.0 in
  let b n := Question.mk n "boolean" "" 1.0 in
  let domains :=
    [("improve", Domain.mk "improve" "I" "" [b "q1"; b "q2"]);
     ("strong", Domain.mk "strong" "S" "" [r "q1"; b "q2"]);
     ("critical", Domain.mk "critical" "C" "" [r "q1"; r "q2"]);
     ("silent", Domain.mk "silent" "N" "" [r "q1"])]%string in
  let all_answers :=
    [("improve", [("q1", Py.Bool true); ("q2", Py.Bool false)]);
     ("strong", [("q1", Py.Int 4); ("q2", Py.Str "oui")]);
     ("critical", [("q1", Py.Int 1); ("q2", Py.Int 2)]);
     ("silent", [])]%string in
  extract_weak_points domains all_answers
    = Ok [("critical", 30.0); ("improve", 50.0)]%string /\
  extract_strong_points domains all_answers = Ok [("strong"%string, 90.0)] /\
  score_global domains all_answers
    = Ok [("improve", 50.0); ("strong", 90.0); ("critical", 30.0);
          ("silent", 0.0); ("__global__", (50.0 + 90.0 + 30.0) / 3.0)]%string.
Proof. repeat split; reflexivity. Qed.

End Analyzer.

(* ================================================================== *)
(** * Facts about the store *)
(* ================================================================== *)

Section StoreFacts.

Lemma bind_Ok {A B} (m : M A) (f : A -> M B) h a h' :
  m h = (Ok a, h') -> (m ≫= f) h = f a h'.
Proof. intros E. unfold mbind, M_bind. now rewrite E. Qed.

Lemma read_Some l h o : h !! l = Some o -> read l h = (Ok o, h).
Proof. intros E. unfold read. now rewrite E. Qed.

Lemma read_question_Some l h q :
  h !! l = Some (OQuestion q) -> read_question l h = (Ok q, h).
Proof.
  intros E. unfold read_question. now rewrite (bind_Ok _ _ _ _ _ (read_Some _ _ _ E)).
Qed.

Lemma read_list_Some l h items :
  h !! l = Some (OList items) -> read_list l h = (Ok items, h).
Proof.
  intros E. unfold read_list. now rewrite (bind_Ok _ _ _ _ _ (read_Some _ _ _ E)).
Qed.

Lemma read_questions_Some l h id label description qs :
  h !! l = Some (ODomain id label description qs) ->
  read_questions l h = (Ok qs, h).
Proof.
  intros E. unfold read_questions.
  now rewrite (bind_Ok _ _ _ _ _ (read_Some _ _ _ E)).
Qed.

Lemma read_extra_questions_Some l h id label extra :
  h !! l = Some (OSectorProfile id label extra) ->
  read_extra_questions l h = (Ok extra, h).
Proof.
  intros E. unfold read_extra_questions.
  now rewrite (bind_Ok _ _ _ _ _ (read_Some _ _ _ E)).
Qed.

Lemma read_dict_Some l h entries :
  h !! l = Some (ODict entries) -> read_dict l h = (Ok entries, h).
Proof.
  intros E. unfold read_dict. now rewrite (bind_Ok _ _ _ _ _ (read_Some _ _ _ E)).
Qed.

(** ** Preservation *)

Lemma preserved_refl h : preserved h h.
Proof. intros l o E. exact E. Qed.

Lemma preserved_trans h1 h2 h3 :
  preserved h1 h2 -> preserved h2 h3 -> preserved h1 h3.
Proof. intros H12 H23 l o E. auto. Qed.

Lemma preserved_app h ext : preserved h (h ++ ext).
Proof. intros l o E. now apply lookup_app_l_Some. Qed.

Lemma preserved_insert h0 h l o :
  length h0 <= l -> preserved h0 h -> preserved h0 (<[l := o]> h).
Proof.
  intros Hl Hp l' o' E. rewrite list_lookup_insert_ne.
  - now apply Hp.
  - apply lookup_lt_Some in E. lia.
Qed.

Lemma preserved_length h h' : preserved h h' -> length h <= length h'.
Proof.
  intros Hp. destruct h as [|o h] using rev_ind; [cbn; lia|].
  assert ((h ++ [o]) !! length h = Some o) as E
    by (rewrite lookup_app_r, Nat.sub_diag; [reflexivity | lia]).
  apply Hp, lookup_lt_Some in E. rewrite length_app. cbn. lia.
Qed.

Lemma question_at_Some h l q :
  question_at h l = Some q <-> h !! l = Some (OQuestion q).
Proof.
  unfold question_at. destruct (h !! l) as [[]|]; split; congruence.
Qed.

Lemma question_at_preserved h h' l q :
  preserved h h' -> question_at h l = Some q -> question_at h' l = Some q.
Proof. rewrite !question_at_Some. auto. Qed.

Lemma mapM_preserved {A V} (f g : A -> option V) items vs :
  (forall l v, f l = Some v -> g l = Some v) ->
  mapM f items = Some vs -> mapM g items = Some vs.
Proof.
  intros Hfg H. apply mapM_Some. apply mapM_Some in H.
  eapply Forall2_impl; [exact H | auto].
Qed.

Lemma questions_at_preserved h h' l qs :
  preserved h h' -> questions_at h l = Some qs -> questions_at h' l = Some qs.
Proof.
  intros Hp. unfold questions_at.
  destruct (h !! l) as [[]|] eqn:E; try discriminate.
  rewrite (Hp _ _ E). apply mapM_preserved. intros a q.
  now apply question_at_preserved.
Qed.

Lemma domain_at_preserved h h' l d :
  preserved h h' -> domain_at h l = Some d -> domain_at h' l = Some d.
Proof.
  intros Hp. unfold domain_at.
  destruct (h !! l) as [[]|] eqn:E; try discriminate.
  rewrite (Hp _ _ E).
  destruct (questions_at h questions) as [qs|] eqn:Eq; [|discriminate].
  now rewrite (questions_at_preserved _ _ _ _ Hp Eq).
Qed.

Lemma dict_at_preserved {V} (f g : loc -> option V) h h' l d :
  preserved h h' ->
  (forall a v, f a = Some v -> g a = Some v) ->
  dict_at f h l = Some d -> dict_at g h' l = Some d.
Proof.
  intros Hp Hfg. unfold dict_at.
  destruct (h !! l) as [[]|] eqn:E; try discriminate.
  rewrite (Hp _ _ E). apply mapM_preserved.
  intros [k a] [k' v]. unfold entry_at. cbn.
  destruct (f a) as [v0|] eqn:Ef; [|discriminate].
  now rewrite (Hfg _ _ Ef).
Qed.

Lemma domains_at_preserved h h' l c :
  preserved h h' -> domains_at h l = Some c -> domains_at h' l = Some c.
Proof.
  intros Hp. apply dict_at_preserved; [assumption|].
  intros a v. now apply domain_at_preserved.
Qed.

Lemma sector_at_preserved h h' l s :
  preserved h h' -> sector_at h l = Some s -> sector_at h' l = Some s.
Proof.
  intros Hp. unfold sector_at.
  destruct (h !! l) as [[]|] eqn:E; try discriminate.
  rewrite (Hp _ _ E).
  destruct (dict_at (questions_at h) h extra_questions) as [x|] eqn:Ex;
    [|discriminate].
  assert (dict_at (questions_at h') h' extra_questions = Some x) as ->; auto.
  eapply dict_at_preserved; [exact Hp | | exact Ex].
  intros a v. now apply questions_at_preserved.
Qed.

Lemma catalogue_at_preserved h h' dc se c s :
  preserved h h' -> catalogue_at h dc se c s -> catalogue_at h' dc se c s.
Proof.
  intros Hp [Hc Hs]. split.
  - now apply (domains_at_preserved h).
  - eapply dict_at_preserved; [exact Hp | | exact Hs].
    intros a v. now apply sector_at_preserved.
Qed.

(** ** [copy.deepcopy] *)

Lemma memo_get_Some a y memo :
  memo_get a memo = Some y -> In (a, y) memo.
Proof.
  unfold memo_get. destruct (find _ memo) as [[a' y']|] eqn:E; [|discriminate].
  cbn. intros [= ->]. apply find_some in E as [Hin Ha].
  cbn in Ha. apply Nat.eqb_eq in Ha. now subst.
Qed.

Lemma memo_ok_preserved n h h' memo :
  preserved h h' -> memo_ok n h memo -> memo_ok n h' memo.
Proof.
  intros Hp Hm. unfold memo_ok in *. eapply Forall_impl; [exact Hm|].
  intros [a y] (Hn & q & Ha & Hy). eauto 6.
Qed.

Lemma lookup_alloc (h ext : list obj) o :
  (h ++ o :: ext) !! length h = Some o.
Proof. rewrite lookup_app_r, Nat.sub_diag; [reflexivity | lia]. Qed.

Lemma deepcopy_questions_spec n items : forall h memo qs,
  n <= length h -> memo_ok n h memo ->
  mapM (question_at h) items = Some qs ->
  exists ys ext,
    deepcopy_questions items memo h = (Ok ys, h ++ ext) /\
    Forall (fun y => n <= y) ys /\
    mapM (question_at (h ++ ext)) ys = Some qs.
Proof.
  induction items as [|a rest IH]; intros h memo qs Hn Hm Hqs.
  - apply mapM_Some in Hqs. inversion Hqs; subst.
    exists [], []. rewrite app_nil_r. repeat split; constructor.
  - apply mapM_Some in Hqs.
    inversion Hqs as [|? q ? qs' Hq Hrest]; subst.
    apply mapM_Some in Hrest. cbn [deepcopy_questions].
    destruct (memo_get a memo) as [y|] eqn:Eg.
    + apply memo_get_Some in Eg.
      unfold memo_ok in Hm. rewrite Forall_forall in Hm.
      apply list_elem_of_In in Eg.
      destruct (Hm _ Eg) as (Hy & q' & Ha & Hy').
      cbn in Hy, Ha, Hy'. apply question_at_Some in Hq.
      assert (q' = q) as -> by congruence.
      destruct (IH h memo qs' Hn) as (ys & ext & E & Hys & Hmap);
        [now apply Forall_forall | assumption |].
      exists (y :: ys), ext. rewrite (bind_Ok _ _ _ _ _ E).
      split; [reflexivity|]. split; [now constructor|].
      apply mapM_Some. constructor; [|now apply mapM_Some].
      apply question_at_Some. now apply preserved_app.
    + apply question_at_Some in Hq.
      rewrite (bind_Ok _ _ _ _ _ (read_question_Some _ _ _ Hq)).
      unfold alloc at 1. unfold mbind at 1, M_bind at 1.
      destruct (IH (h ++ [OQuestion q]) ((a, length h) :: memo) qs')
        as (ys & ext & E & Hys & Hmap).
      * rewrite length_app. cbn. lia.
      * constructor.
        -- cbn. split; [assumption|]. exists q. split.
           ++ now apply preserved_app.
           ++ apply lookup_alloc.
        -- eapply memo_ok_preserved; [apply preserved_app | exact Hm].
      * eapply mapM_preserved; [|exact Hrest].
        intros l v. apply question_at_preserved, preserved_app.
      * rewrite <- app_assoc in *. cbn [app] in *.
        exists (length h :: ys), (OQuestion q :: ext).
        rewrite (bind_Ok _ _ _ _ _ E).
        split; [reflexivity|]. split; [now constructor|].
        apply mapM_Some. constructor; [|now apply mapM_Some].
        apply question_at_Some. apply lookup_alloc.
Qed.

Lemma deepcopy_list_spec h x qs :
  questions_at h x = Some qs ->
  exists y ext,
    deepcopy_list x h = (Ok y, h ++ ext) /\
    y < length (h ++ ext) /\
    list_copy (length h) (h ++ ext) y qs.
Proof.
  unfold questions_at.
  destruct (h !! x) as [[| items | | |]|] eqn:E; try discriminate.
  intros Hqs.
  destruct (deepcopy_questions_spec (length h) items h [] qs)
    as (ys & ext & Ed & Hys & Hmap); [lia | constructor | assumption |].
  unfold deepcopy_list.
  rewrite (bind_Ok _ _ _ _ _ (read_list_Some _ _ _ E)).
  rewrite (bind_Ok _ _ _ _ _ Ed). unfold alloc.
  exists (length (h ++ ext)), (ext ++ [OList ys]).
  rewrite !app_assoc. split; [reflexivity|].
  split; [rewrite (length_app (h ++ ext)); cbn; lia|].
  split; [rewrite length_app; lia|].
  exists ys. split; [|split].
  - rewrite <- (app_nil_r [OList ys]) at 1. cbn. apply lookup_alloc.
  - assumption.
  - eapply mapM_preserved; [|exact Hmap].
    intros l v. apply question_at_preserved, preserved_app.
Qed.

Lemma list_copy_mono n n' h h' y qs :
  n' <= n -> preserved h h' -> list_copy n h y qs -> list_copy n' h' y qs.
Proof.
  intros Hn Hp (Hy & items & E & Hi & Hm). split; [lia|].
  exists items. split; [auto|]. split.
  - eapply Forall_impl; [exact Hi|]. cbn. intros; lia.
  - eapply mapM_preserved; [|exact Hm].
    intros l v. now apply question_at_preserved.
Qed.

Lemma domain_copy_mono n n' h h' y d :
  n' <= n -> preserved h h' -> domain_copy n h y d -> domain_copy n' h' y d.
Proof.
  intros Hn Hp (Hy & qs & E & Hl). split; [lia|].
  exists qs. split; [auto|]. now apply (list_copy_mono n n' h).
Qed.

Lemma domain_copy_qloc n h k y d :
  domain_copy n h y d ->
  list_copy n h (qloc h (k, y)) (Domain.questions d).
Proof. intros (_ & qs & E & Hl). unfold qloc. cbn. now rewrite E. Qed.

Lemma qloc_preserved h h' e id label description qs :
  h !! snd e = Some (ODomain id label description qs) ->
  preserved h h' -> qloc h' e = qloc h e.
Proof. intros E Hp. unfold qloc. now rewrite E, (Hp _ _ E). Qed.

Lemma deepcopy_domain_spec h x d :
  domain_at h x = Some d ->
  exists y ext,
    deepcopy_domain x h = (Ok y, h ++ ext) /\
    domain_copy (length h) (h ++ ext) y d /\
    (forall k, qloc (h ++ ext) (k, y) < length (h ++ ext)).
Proof.
  unfold domain_at.
  destruct (h !! x) as [[| | id label description qs | |]|] eqn:E;
    try discriminate.
  destruct (questions_at h qs) as [Q|] eqn:EQ; [|discriminate].
  cbn. intros [= <-].
  destruct (deepcopy_list_spec h qs Q EQ) as (y & ext & Ed & Hy & Hl).
  unfold deepcopy_domain.
  rewrite (bind_Ok _ _ _ _ _ (read_Some _ _ _ E)).
  rewrite (bind_Ok _ _ _ _ _ Ed). unfold alloc.
  exists (length (h ++ ext)), (ext ++ [ODomain id label description y]).
  rewrite !app_assoc.
  assert (((h ++ ext) ++ [ODomain id label description y])
            !! length (h ++ ext) = Some (ODomain id label description y)) as El
    by apply lookup_alloc.
  split; [reflexivity|]. split.
  - split; [rewrite length_app; lia|]. cbn. exists y. split; [exact El|].
    eapply list_copy_mono; [| apply preserved_app | exact Hl]. lia.
  - intros k. unfold qloc. cbn [snd]. rewrite El.
    rewrite (length_app (h ++ ext)). cbn. lia.
Qed.

(** ** The dict comprehension *)

Lemma copies_qloc_ge n h ents c :
  copies n h ents c -> Forall (fun e => n <= qloc h e) ents.
Proof.
  intros [H _]. induction H as [|[k y] [k' d] ents c [_ Hd] _ IH];
    constructor; [|exact IH].
  destruct (domain_copy_qloc _ _ k _ _ Hd) as [Hq _]. exact Hq.
Qed.

Lemma copies_preserved n n' h h' ents c :
  n' <= n -> preserved h h' -> copies n h ents c -> copies n' h' ents c.
Proof.
  intros Hn Hp [H Hnd]. split.
  - eapply Forall2_impl; [exact H|].
    intros e kd [Hk Hd]. split; [exact Hk|].
    now apply (domain_copy_mono n n' h).
  - assert (map (qloc h') ents = map (qloc h) ents) as ->; [|exact Hnd].
    clear Hnd. induction H as [|e kd ents c [_ Hd] _ IH]; cbn; [reflexivity|].
    destruct Hd as (_ & qs & E & _).
    now rewrite IH, (qloc_preserved _ _ _ _ _ _ _ E Hp).
Qed.

Lemma copy_domains_spec items : forall h c,
  mapM (entry_at (domain_at h)) items = Some c ->
  exists ents ext,
    copy_domains items h = (Ok ents, h ++ ext) /\
    copies (length h) (h ++ ext) ents c /\
    Forall (fun e => qloc (h ++ ext) e < length (h ++ ext)) ents.
Proof.
  induction items as [|[k v] rest IH]; intros h c Hc; apply mapM_Some in Hc.
  - inversion Hc; subst. exists [], []. rewrite app_nil_r.
    repeat split; constructor.
  - inversion Hc as [|? [k' d] ? c' Hd Hrest]; subst.
    unfold entry_at in Hd. cbn in Hd.
    destruct (domain_at h v) as [d'|] eqn:Ed; [|discriminate].
    cbn in Hd. injection Hd as <- <-.
    destruct (deepcopy_domain_spec h v d' Ed) as (y & ext1 & E1 & Hy & Hq).
    destruct (IH (h ++ ext1) c') as (ents & ext2 & E2 & Hcs & Hlt).
    { eapply mapM_preserved; [|apply mapM_Some; exact Hrest].
      intros [k0 a] [k1 d1]. unfold entry_at. cbn.
      destruct (domain_at h a) as [d0|] eqn:E0; [|discriminate].
      now rewrite (domain_at_preserved _ _ _ _ (preserved_app h ext1) E0). }
    cbn [copy_domains]. rewrite (bind_Ok _ _ _ _ _ E1), (bind_Ok _ _ _ _ _ E2).
    rewrite <- app_assoc in *. exists ((k, y) :: ents), (ext1 ++ ext2).
    split; [reflexivity|].
    assert (preserved (h ++ ext1) (h ++ ext1 ++ ext2)) as Hp
      by (rewrite app_assoc; apply preserved_app).
    assert (qloc (h ++ ext1 ++ ext2) (k, y) = qloc (h ++ ext1) (k, y)) as Eq.
    { destruct Hy as (_ & qs & E & _). eapply qloc_preserved; eauto. }
    assert (length (h ++ ext1) <= length (h ++ ext1 ++ ext2)) as Hlen
      by (rewrite !length_app; lia).
    split; [split|].
    + constructor.
      * split; [reflexivity|]. cbn.
        eapply domain_copy_mono; [| exact Hp | exact Hy]. lia.
      * destruct Hcs as [Hcs _]. eapply Forall2_impl; [exact Hcs|].
        intros e kd [Hk Hd]. split; [exact Hk|].
        eapply domain_copy_mono; [| apply preserved_refl | exact Hd].
        rewrite length_app. lia.
    + cbn [map]. apply NoDup_cons. split; [|apply Hcs].
      intros Hin. apply list_elem_of_In, in_map_iff in Hin as (e & He & Hin).
      apply copies_qloc_ge in Hcs. rewrite Forall_forall in Hcs.
      apply list_elem_of_In, Hcs in Hin.
      specialize (Hq k). rewrite Eq in He. lia.
    + constructor; [|exact Hlt].
      rewrite Eq. specialize (Hq k). lia.
Qed.

Lemma Forall2_impl_In {A B} (P Q : A -> B -> Prop) l k :
  Forall2 P l k -> (forall x y, In x l -> P x y -> Q x y) -> Forall2 Q l k.
Proof.
  induction 1 as [|x y l k HP _ IH]; intros HQ; constructor.
  - apply HQ; [now left | exact HP].
  - apply IH. intros x' y' Hin. apply HQ. now right.
Qed.

(** ** Extending one question list in place *)

Section Write.
Variables (h : list obj) (qs : loc) (old new : list loc).
Hypothesis Hqs : h !! qs = Some (OList old).

Let h2 : list obj := <[qs := OList (old ++ new)]> h.

Lemma write_lookup_ne l : l <> qs -> h2 !! l = h !! l.
Proof. intros Hne. unfold h2. now rewrite list_lookup_insert_ne. Qed.

Lemma write_lookup_eq : h2 !! qs = Some (OList (old ++ new)).
Proof.
  unfold h2. apply list_lookup_insert_eq. now apply lookup_lt_Some in Hqs.
Qed.

Lemma write_question_at a : question_at h2 a = question_at h a.
Proof.
  unfold question_at. destruct (Nat.eq_dec a qs) as [->|Hne].
  - now rewrite write_lookup_eq, Hqs.
  - now rewrite write_lookup_ne.
Qed.

Lemma write_mapM_question_at items :
  mapM (question_at h2) items = mapM (question_at h) items.
Proof.
  induction items as [|a items IH]; cbn; [reflexivity|].
  now rewrite write_question_at, IH.
Qed.

Lemma write_lookup_domain y id label description ql :
  h !! y = Some (ODomain id label description ql) ->
  h2 !! y = Some (ODomain id label description ql).
Proof.
  intros E. rewrite write_lookup_ne; [exact E | congruence].
Qed.

Lemma write_qloc e id label description ql :
  h !! snd e = Some (ODomain id label description ql) ->
  qloc h2 e = qloc h e.
Proof.
  intros E. unfold qloc.
  now rewrite (write_lookup_domain _ _ _ _ _ E), E.
Qed.

Lemma write_domain_copy_ne n k y d :
  qloc h (k, y) <> qs -> domain_copy n h y d -> domain_copy n h2 y d.
Proof.
  intros Hne (Hy & ql & E & Hl & items & Ei & Hi & Hm).
  assert (ql <> qs) by (unfold qloc in Hne; cbn in Hne; now rewrite E in Hne).
  split; [exact Hy|]. exists ql.
  split; [now apply write_lookup_domain|]. split; [exact Hl|].
  exists items. rewrite write_lookup_ne by assumption.
  now rewrite write_mapM_question_at.
Qed.

Lemma write_domain_copy_eq n k y d extra :
  qloc h (k, y) = qs -> domain_copy n h y d ->
  Forall (fun a => n <= a) new ->
  mapM (question_at h) new = Some extra ->
  domain_copy n h2 y
    (Domain.mk (Domain.id d) (Domain.label d) (Domain.description d)
       (Domain.questions d ++ extra)).
Proof.
  intros Heq (Hy & ql & E & Hl & items & Ei & Hi & Hm) Hnew Hextra.
  assert (ql = qs) as ->
    by (unfold qloc in Heq; cbn in Heq; now rewrite E in Heq).
  assert (items = old) as -> by congruence.
  split; [exact Hy|]. exists qs. cbn.
  split; [now apply write_lookup_domain|]. split; [exact Hl|].
  exists (old ++ new). split; [apply write_lookup_eq|].
  split; [now apply Forall_app|].
  rewrite write_mapM_question_at. apply mapM_Some.
  apply Forall2_app; now apply mapM_Some.
Qed.

Lemma write_copies n ents c k y extra :
  copies n h ents c ->
  Py.get k ents = Some y -> qloc h (k, y) = qs ->
  Forall (fun a => n <= a) new ->
  mapM (question_at h) new = Some extra ->
  copies n h2 ents (append_questions k extra c).
Proof.
  intros [H Hnd] Hget Hq Hnew Hextra.
  assert (map (qloc h2) ents = map (qloc h) ents) as Hmap.
  { clear Hnd Hget. induction H as [|e kd ents c [_ Hd] _ IH]; cbn;
      [reflexivity|].
    destruct Hd as (_ & ql & E & _).
    now rewrite IH, (write_qloc _ _ _ _ _ E). }
  split; [|now rewrite Hmap]. clear Hmap.
  induction H as [|[k' y'] [k'' d] ents c [Hk Hd] Hrest IH]; cbn in *;
    [discriminate|].
  subst k''. apply NoDup_cons in Hnd as [Hhd Hnd].
  destruct (String.eqb k k') eqn:Ek.
  - injection Hget as ->. constructor.
    + split; [reflexivity|]. cbn.
      eapply write_domain_copy_eq; eauto.
    + eapply Forall2_impl_In; [exact Hrest|].
      intros [k0 y0] kd Hin [Hk0 Hd0]. split; [exact Hk0|]. cbn.
      apply (write_domain_copy_ne n k0); [|exact Hd0].
      intros Heq. apply Hhd. apply list_elem_of_In, in_map_iff.
      exists (k0, y0). split; [|exact Hin].
      unfold qloc in *. cbn in *. congruence.
  - constructor; [|now apply IH].
    split; [reflexivity|]. cbn.
    apply (write_domain_copy_ne n k'); [|exact Hd].
    intros Heq. apply Hhd. apply list_elem_of_In, in_map_iff.
    exists (k, y). split; [|now apply get_Some_In].
    unfold qloc in *. cbn in *. congruence.
Qed.

End Write.

(** ** The extension loop *)

Lemma append_questions_absent k extra c :
  ~ In k (Py.keys c) -> append_questions k extra c = c.
Proof.
  induction c as [|[k' d] c IH]; cbn; [reflexivity|].
  intros H. destruct (String.eqb k k') eqn:E.
  - apply String.eqb_eq in E. subst. tauto.
  - rewrite IH; tauto.
Qed.

Lemma copies_keys n h ents c : copies n h ents c -> Py.keys ents = Py.keys c.
Proof.
  intros [H _]. unfold Py.keys.
  induction H as [|e kd ents c [Hk _] _ IH]; cbn; [reflexivity|].
  now rewrite Hk, IH.
Qed.

Lemma copies_get n h ents c k y :
  copies n h ents c -> Py.get k ents = Some y -> exists d, domain_copy n h y d.
Proof.
  intros [H _] Hget. apply get_Some_In in Hget.
  induction H as [|e kd ents c [_ Hd] _ IH]; cbn in *; [tauto|].
  destruct Hget as [->|Hin]; eauto.
Qed.

Lemma extend_domains_cons c k extra X :
  extend_domains c ((k, extra) :: X) =
  extend_domains (append_questions k extra c) X.
Proof. reflexivity. Qed.

Lemma extend_loop_spec h0 dl ents items : forall X h c,
  mapM (entry_at (questions_at h0)) items = Some X ->
  preserved h0 h -> h !! dl = Some (ODict ents) ->
  copies (length h0) h ents c ->
  exists h',
    extend_loop items dl h = (Ok tt, h') /\
    preserved h0 h' /\ h' !! dl = Some (ODict ents) /\
    copies (length h0) h' ents (extend_domains c X).
Proof.
  induction items as [|[k x] rest IH]; intros X h c HX Hp Hdl Hc;
    apply mapM_Some in HX.
  - inversion HX; subst. exists h.
    split; [reflexivity|]. split; [assumption|]. split; assumption.
  - inversion HX as [|? [k' extra] ? X' Hx Hrest]; subst.
    apply mapM_Some in Hrest.
    unfold entry_at in Hx. cbn in Hx.
    destruct (questions_at h0 x) as [extra'|] eqn:Ex; [|discriminate].
    cbn in Hx. injection Hx as <- <-.
    rewrite extend_domains_cons. cbn [extend_loop].
    rewrite (bind_Ok _ _ _ _ _ (read_dict_Some _ _ _ Hdl)).
    destruct (Py.get k ents) as [y|] eqn:Eget.
    + destruct (copies_get _ _ _ _ _ _ Hc Eget)
        as (d & Hy & qs & Ed & Hqs & old & Eold & Hold & Hmold).
      rewrite (bind_Ok _ _ _ _ _ (read_questions_Some _ _ _ _ _ _ Ed)).
      destruct (deepcopy_list_spec h x extra')
        as (new & ext & Enew & Hnew & Hnl & new_items & Ei & Hi & Hmi);
        [now apply (questions_at_preserved h0)|].
      rewrite (bind_Ok _ _ _ _ _ Enew).
      rewrite (bind_Ok _ _ _ _ _ (read_list_Some _ _ _ Ei)).
      assert (preserved h (h ++ ext)) as Hpe by apply preserved_app.
      pose proof (Hpe _ _ Eold) as Eold'.
      rewrite (bind_Ok _ _ _ _ _ (read_list_Some _ _ _ Eold')).
      unfold write at 1. unfold mbind at 1, M_bind at 1.
      apply IH; [assumption | | |].
      * apply preserved_insert; [assumption|].
        eapply preserved_trans; eassumption.
      * rewrite list_lookup_insert_ne; [now apply Hpe | congruence].
      * apply (write_copies (h ++ ext) qs old new_items Eold'
                 (length h0) ents c k y extra').
        -- now apply (copies_preserved (length h0) (length h0) h).
        -- exact Eget.
        -- unfold qloc. cbn. now rewrite (Hpe _ _ Ed).
        -- eapply Forall_impl; [exact Hi|]. cbn. intros a Ha.
           apply preserved_length in Hp. lia.
        -- exact Hmi.
    + rewrite append_questions_absent.
      * now apply IH.
      * rewrite <- (copies_keys _ _ _ _ Hc). now apply get_None.
Qed.

Lemma domain_copy_domain_at n h y d :
  domain_copy n h y d -> domain_at h y = Some d.
Proof.
  intros (_ & qs & E & _ & items & Ei & _ & Hm).
  unfold domain_at, questions_at. rewrite E, Ei, Hm. now destruct d.
Qed.

Lemma copies_domains_at n h dl ents c :
  h !! dl = Some (ODict ents) -> copies n h ents c ->
  domains_at h dl = Some c.
Proof.
  intros E [H _]. unfold domains_at, dict_at. rewrite E.
  apply mapM_Some. eapply Forall2_impl; [exact H|].
  intros [k y] [k' d] [Hk Hd]. cbn in *. subst k'.
  unfold entry_at. cbn. now rewrite (domain_copy_domain_at _ _ _ _ Hd).
Qed.

Lemma copies_fresh_from n h dl ents c :
  n <= dl -> h !! dl = Some (ODict ents) -> copies n h ents c ->
  fresh_from n h dl.
Proof.
  intros Hn E [H _]. split; [exact Hn|]. exists ents. split; [exact E|].
  clear E. induction H as [|e kd ents' c' [_ Hd] _ IH]; constructor;
    [|exact IH].
  destruct Hd as (Hy & qs & Ed & Hqs & items & Ei & Hi & _).
  split; [exact Hy|]. eauto 10.
Qed.

Lemma get_entries {V} (f : loc -> option V) ents d k :
  mapM (entry_at f) ents = Some d ->
  match Py.get k ents with
  | None => Py.get k d = None
  | Some a => exists v, f a = Some v /\ Py.get k d = Some v
  end.
Proof.
  intros H. apply mapM_Some in H.
  induction H as [|[k' a] [k'' v] ents d He _ IH]; cbn; [reflexivity|].
  unfold entry_at in He. cbn in He.
  destruct (f a) as [v'|] eqn:Ef; [|discriminate].
  cbn in He. injection He as <- <-.
  destruct (String.eqb k k'); [eauto | exact IH].
Qed.

End StoreFacts.

(* ================================================================== *)
(** * The questionnaire builder *)
(* ================================================================== *)

Section Builder.
Variables (DOMAINS_COMMON SECTORS : loc).

Abbreviation build := (build_domains_for_sector DOMAINS_COMMON SECTORS).

(** [build_domains_for_sector] computes the questionnaire of the sector in
    fresh objects and changes no object that existed before the call. *)
Lemma build_spec h common sectors sector_id :
  catalogue_at h DOMAINS_COMMON SECTORS common sectors ->
  exists o h',
    build sector_id h = (o, h') /\
    preserved h h' /\
    match questionnaire common sectors sector_id with
    | Ok q =>
        exists r, o = Ok r /\ domains_at h' r = Some q /\
                  fresh_from (length h) h' r
    | Raise e => o = Raise e
    end.
Proof.
  intros [Hc Hs]. unfold domains_at, dict_at in Hc.
  destruct (h !! DOMAINS_COMMON) as [[| | | | cents]|] eqn:Edc;
    try discriminate.
  destruct (copy_domains_spec cents h common Hc)
    as (ents & ext & Ecopy & Hcopies & _).
  unfold build_domains_for_sector.
  rewrite (bind_Ok _ _ _ _ _ (read_dict_Some _ _ _ Edc)).
  rewrite (bind_Ok _ _ _ _ _ Ecopy).
  unfold alloc at 1. unfold mbind at 1, M_bind at 1.
  set (dl := length (h ++ ext)). set (h1 := (h ++ ext) ++ [ODict ents]).
  assert (h1 !! dl = Some (ODict ents)) as Edl.
  { unfold h1, dl. rewrite <- (app_nil_r [ODict ents]). cbn.
    apply lookup_alloc. }
  assert (preserved h h1) as Hp1
    by (unfold h1; rewrite <- app_assoc; apply preserved_app).
  assert (copies (length h) h1 ents common) as Hc1.
  { eapply copies_preserved; [| apply preserved_app | exact Hcopies]. lia. }
  assert (length h <= dl) as Hdl by (unfold dl; rewrite length_app; lia).
  destruct sector_id as [sid|]; cbn [questionnaire].
  - unfold sectors_at, dict_at in Hs.
    destruct (h !! SECTORS) as [[| | | | sents]|] eqn:Ese; try discriminate.
    rewrite (bind_Ok _ _ _ _ _ (read_dict_Some _ _ _ (Hp1 _ _ Ese))).
    pose proof (get_entries _ _ _ sid Hs) as Hget.
    destruct (Py.get sid sents) as [sl|].
    + destruct Hget as (sector & Hsl & ->).
      unfold sector_at in Hsl.
      destruct (h !! sl) as [[| | | id label extra |]|] eqn:Esl;
        try discriminate.
      unfold dict_at in Hsl.
      destruct (h !! extra) as [[| | | | xents]|] eqn:Eex; try discriminate.
      destruct (mapM (entry_at (questions_at h)) xents) as [X|] eqn:EX;
        [|discriminate].
      cbn in Hsl. injection Hsl as <-. cbn [SectorProfile.extra_questions].
      rewrite (bind_Ok _ _ _ _ _
                 (read_extra_questions_Some _ _ _ _ _ (Hp1 _ _ Esl))).
      rewrite (bind_Ok _ _ _ _ _ (read_dict_Some _ _ _ (Hp1 _ _ Eex))).
      destruct (extend_loop_spec h dl ents xents X h1 common EX Hp1 Edl Hc1)
        as (h' & Eloop & Hp' & Edl' & Hc').
      rewrite (bind_Ok _ _ _ _ _ Eloop).
      exists (Ok dl), h'. split; [reflexivity|]. split; [exact Hp'|].
      exists dl. split; [reflexivity|].
      split; [eapply copies_domains_at | eapply copies_fresh_from]; eauto.
    + rewrite Hget. exists (Raise ValueError), h1.
      split; [reflexivity|]. split; [exact Hp1 | reflexivity].
  - exists (Ok dl), h1. split; [reflexivity|]. split; [exact Hp1|].
    exists dl. split; [reflexivity|].
    split; [eapply copies_domains_at | eapply copies_fresh_from]; eauto.
Qed.

(** ** The questionnaire, by value *)

Lemma append_questions_keys k extra c :
  Py.keys (append_questions k extra c) = Py.keys c.
Proof.
  unfold Py.keys. induction c as [|[k' d] c IH]; cbn; [reflexivity|].
  destruct (String.eqb k k'); cbn; [reflexivity | now rewrite IH].
Qed.

Lemma extend_domains_keys c X : Py.keys (extend_domains c X) = Py.keys c.
Proof.
  revert c. induction X as [|[k extra] X IH]; intros c; [reflexivity|].
  rewrite extend_domains_cons, IH. apply append_questions_keys.
Qed.

Lemma get_append_questions_eq k extra c d :
  Py.get k c = Some d ->
  Py.get k (append_questions k extra c) =
    Some (Domain.mk (Domain.id d) (Domain.label d) (Domain.description d)
            (Domain.questions d ++ extra)).
Proof.
  induction c as [|[k' d'] c IH]; cbn; [discriminate|].
  destruct (String.eqb k k') eqn:E; cbn; rewrite E; [now intros [= ->] | exact IH].
Qed.

Lemma get_append_questions_ne k id extra c :
  k <> id -> Py.get id (append_questions k extra c) = Py.get id c.
Proof.
  intros Hne. induction c as [|[k' d'] c IH]; cbn; [reflexivity|].
  destruct (String.eqb k k') eqn:E; cbn.
  - apply String.eqb_eq in E. subst k'.
    apply not_eq_sym, String.eqb_neq in Hne. now rewrite Hne.
  - now rewrite IH.
Qed.

(** Each domain of the questionnaire is the common domain with the
    sector's extra questions for it, if any, appended in order. *)
Lemma extend_domains_get X : forall c id d,
  Py.dict_wf X -> Py.get id c = Some d ->
  exists d',
    Py.get id (extend_domains c X) = Some d' /\
    Domain.questions d' = Domain.questions d ++ default [] (Py.get id X).
Proof.
  induction X as [|[k extra] X IH]; intros c id d Hwf Hget.
  - exists d. split; [exact Hget | cbn; now rewrite app_nil_r].
  - apply NoDup_cons in Hwf as [Hk Hwf]. rewrite extend_domains_cons.
    cbn [Py.get]. destruct (String.eqb id k) eqn:E.
    + apply String.eqb_eq in E. subst k.
      destruct (IH _ id _ Hwf (get_append_questions_eq _ extra _ _ Hget))
        as (d' & Hd' & Hq).
      exists d'. split; [exact Hd'|]. rewrite Hq. cbn.
      assert (Py.get id X = None) as ->
        by (apply get_None; intros Hin; apply Hk; now apply list_elem_of_In).
      cbn. now rewrite app_nil_r.
    + apply String.eqb_neq in E.
      apply (IH _ id d Hwf).
      rewrite get_append_questions_ne; [exact Hget | congruence].
Qed.

(** C8: without a sector id the result is a deep copy of the common
    catalogue: equal to it in value, and made of objects that did not
    exist before the call, so it is not the catalogue itself; with a
    sector id that [SECTORS] does not have, the call raises [ValueError]
    and returns nothing. *)
Theorem build_common_or_unknown h common sectors :
  catalogue_at h DOMAINS_COMMON SECTORS common sectors ->
  (exists r h',
     build None h = (Ok r, h') /\
     domains_at h' r = Some common /\
     domains_at h' DOMAINS_COMMON = Some common /\
     r <> DOMAINS_COMMON /\
     fresh_from (length h) h' r) /\
  (forall sid, Py.get sid sectors = None ->
     exists h', build (Some sid) h = (Raise ValueError, h')).
Proof.
  intros Hcat. split.
  - destruct (build_spec h common sectors None Hcat)
      as (o & h' & E & Hp & r & -> & Hr & Hf).
    exists r, h'. split; [exact E|]. split; [exact Hr|].
    destruct Hcat as [Hc _].
    split; [now apply (domains_at_preserved h)|]. split; [|exact Hf].
    destruct Hf as [Hge _]. unfold domains_at, dict_at in Hc.
    destruct (h !! DOMAINS_COMMON) eqn:Edc; [|discriminate].
    apply lookup_lt_Some in Edc. lia.
  - intros sid Hsid.
    destruct (build_spec h common sectors (Some sid) Hcat)
      as (o & h' & E & _ & Ho).
    cbn in Ho. rewrite Hsid in Ho. subst o. eauto.
Qed.

(** C9: for a sector that [SECTORS] has, the result is the deep copy of
    the common catalogue in which each (domain id, extra questions) pair
    of the sector had its questions, copied, appended in order to the
    domain of that id; a pair whose domain id the catalogue does not have
    adds nothing and raises nothing; so a domain ends with its base
    questions followed by its extra questions, if it has any. *)
Theorem build_sector_extension h common sectors sid sector :
  catalogue_at h DOMAINS_COMMON SECTORS common sectors ->
  Py.get sid sectors = Some sector ->
  exists r h' q,
    build (Some sid) h = (Ok r, h') /\
    domains_at h' r = Some q /\
    q = extend_domains common (SectorProfile.extra_questions sector) /\
    fresh_from (length h) h' r /\
    Py.keys q = Py.keys common /\
    (Py.dict_wf (SectorProfile.extra_questions sector) ->
     forall id d, Py.get id common = Some d ->
       exists d',
         Py.get id q = Some d' /\
         Domain.questions d' =
           Domain.questions d ++
           default [] (Py.get id (SectorProfile.extra_questions sector)) /\
         length (Domain.questions d') =
           length (Domain.questions d) +
           length (default []
                     (Py.get id (SectorProfile.extra_questions sector)))).
Proof.
  intros Hcat Hsid.
  destruct (build_spec h common sectors (Some sid) Hcat)
    as (o & h' & E & _ & Ho).
  cbn in Ho. rewrite Hsid in Ho. destruct Ho as (r & -> & Hr & Hf).
  exists r, h', (extend_domains common (SectorProfile.extra_questions sector)).
  split; [exact E|]. split; [exact Hr|]. split; [reflexivity|].
  split; [exact Hf|]. split; [apply extend_domains_keys|].
  intros Hwf id d Hget.
  destruct (extend_domains_get _ _ _ _ Hwf Hget) as (d' & Hd' & Hq).
  exists d'. split; [exact Hd'|]. split; [exact Hq|].
  now rewrite Hq, length_app.
Qed.

(** C2: whatever the sector id, a call leaves every object that existed
    before it as it was, so the shared catalogue and the question list of
    each of its domains are unchanged; and a second call with the same
    sector id gives a result equal in value to the first, or raises the
    same exception. *)
Theorem build_leaves_catalogue_unchanged h common sectors sector_id :
  catalogue_at h DOMAINS_COMMON SECTORS common sectors ->
  exists o1 h1 o2 h2,
    build sector_id h = (o1, h1) /\
    build sector_id h1 = (o2, h2) /\
    preserved h h1 /\ preserved h1 h2 /\
    catalogue_at h1 DOMAINS_COMMON SECTORS common sectors /\
    catalogue_at h2 DOMAINS_COMMON SECTORS common sectors /\
    match o1, o2 with
    | Ok r1, Ok r2 =>
        exists q, domains_at h2 r1 = Some q /\ domains_at h2 r2 = Some q
    | Raise e1, Raise e2 => e1 = e2
    | _, _ => False
    end.
Proof.
  intros Hcat.
  destruct (build_spec h common sectors sector_id Hcat)
    as (o1 & h1 & E1 & Hp1 & Ho1).
  pose proof (catalogue_at_preserved _ _ _ _ _ _ Hp1 Hcat) as Hcat1.
  destruct (build_spec h1 common sectors sector_id Hcat1)
    as (o2 & h2 & E2 & Hp2 & Ho2).
  pose proof (catalogue_at_preserved _ _ _ _ _ _ Hp2 Hcat1) as Hcat2.
  exists o1, h1, o2, h2. repeat (split; [assumption|]).
  destruct (questionnaire common sectors sector_id) as [q|e].
  - destruct Ho1 as (r1 & -> & Hr1 & _), Ho2 as (r2 & -> & Hr2 & _).
    exists q. split; [now apply (domains_at_preserved h1) | exact Hr2].
  - subst. reflexivity.
Qed.

End Builder.

(** ** The builder on a small catalogue *)

Lemma build_common_or_unknown_witness :
  (exists r h',
     build_domains_for_sector 7 14 None example_store = (Ok r, h') /\
     domains_at h' r = Some example_common /\ r <> 7) /\
  (exists h',
     build_domains_for_sector 7 14 (Some "banque"%string) example_store
     = (Raise ValueError, h')).
Proof.
  assert (catalogue_at example_store 7 14 example_common example_sectors)
    as Hcat by (split; reflexivity).
  destruct (build_common_or_unknown 7 14 example_store example_common
              example_sectors Hcat)
    as [(r & h' & E & Hr & _ & Hne & _) Hunknown].
  split.
  - exists r, h'. split; [exact E|]. split; [exact Hr | exact Hne].
  - apply Hunknown. reflexivity.
Defined.

Lemma build_sector_extension_witness :
  exists r h' d,
    build_domains_for_sector 7 14 (Some "tech"%string) example_store
    = (Ok r, h') /\
    (domains_at h' r ≫= Py.get "si") = Some d /\
    Domain.questions d = [si_1; si_701] /\
    (domains_at h' r ≫= Py.get "marketing") = None.
Proof.
  assert (catalogue_at example_store 7 14 example_common example_sectors)
    as Hcat by (split; reflexivity).
  destruct (build_sector_extension 7 14 example_store example_common
              example_sectors "tech" example_tech Hcat eq_refl)
    as (r & h' & q & E & Hr & Hq & _ & Hkeys & Hget).
  destruct (Hget) with (id := "si"%string)
                       (d := Domain.mk "si" "SI" "" [si_1])
    as (d & Hd & Hqs & _).
  { unfold Py.dict_wf. cbn. apply (bool_decide_unpack _). vm_compute.
    exact I. }
  { reflexivity. }
  exists r, h', d. split; [exact E|]. rewrite Hr. cbn.
  split; [exact Hd|]. split; [exact Hqs|].
  apply get_None. rewrite Hkeys. cbn. intuition discriminate.
Defined.

Lemma build_leaves_catalogue_unchanged_witness :
  exists r1 h1 r2 h2 q,
    build_domains_for_sector 7 14 (Some "tech"%string) example_store
    = (Ok r1, h1) /\
    build_domains_for_sector 7 14 (Some "tech"%string) h1 = (Ok r2, h2) /\
    domains_at h2 7 = Some example_common /\
    domains_at h2 r1 = Some q /\ domains_at h2 r2 = Some q.
Proof.
  assert (catalogue_at example_store 7 14 example_common example_sectors)
    as Hcat by (split; reflexivity).
  destruct (build_leaves_catalogue_unchanged 7 14 example_store
              example_common example_sectors (Some "tech"%string) Hcat)
    as (o1 & h1 & o2 & h2 & E1 & E2 & _ & _ & _ & [Hc2 _] & Ho).
  assert (exists r1, o1 = Ok r1) as [r1 ->].
  { vm_compute in E1. injection E1 as <- _. eauto. }
  destruct o2 as [r2|e2]; [|contradiction].
  destruct Ho as (q & Hq1 & Hq2).
  exists r1, h1, r2, h2, q. repeat (split; [assumption|]). assumption.
Defined.

(* ================================================================== *)
(** * Further properties of the scorer *)
(* ================================================================== *)

Section ScorerExtras.
Local Open Scope float_scope.
Import FloatFacts.

Lemma question_score_values_bounds s :
  In s question_score_values -> (0.0 <=? s) = true /\ (s <=? 100.0) = true.
Proof.
  unfold question_score_values. cbn [In].
  intros [<-|[<-|[<-|[<-|[<-|[<-|[]]]]]]]; split; reflexivity.
Qed.

Lemma rating_score_values (v : Z) :
  In (Py.float_of_int (20 * Z.max 0 (Z.min 5 v))) question_score_values.
Proof.
  set (c := Z.max 0 (Z.min 5 v)).
  assert (c = 0 \/ c = 1 \/ c = 2 \/ c = 3 \/ c = 4 \/ c = 5)%Z
    as [->|[->|[->|[->|[->| ->]]]]] by (unfold c; lia);
    unfold question_score_values; cbn; tauto.
Qed.

(** Whenever [score_question] returns, the score is one of 0, 20, 40, 60,
    80 and 100, hence between 0 and 100. *)
Theorem score_question_values (q : Question.t) (a : Py.value) (s : float) :
  score_question q a = Ok s ->
  In s question_score_values /\
  (0.0 <=? s) = true /\ (s <=? 100.0) = true.
Proof.
  intros H.
  assert (In s question_score_values) as Hin;
    [|split; [exact Hin | now apply question_score_values_bounds]].
  destruct (String.eqb (Question.type q) "stars") eqn:Et.
  - apply String.eqb_eq in Et. rewrite (score_question_stars q a Et) in H.
    destruct a; try (injection H as <-; cbn; tauto);
      (destruct (Py.int _) as [v|[]]; try discriminate;
       injection H as <-;
       [apply rating_score_values | cbn; tauto | cbn; tauto]).
  - unfold score_question in H. rewrite Et in H.
    destruct (String.eqb (Question.type q) "boolean"); [|discriminate].
    cbv zeta in H.
    match type of H with
    | Ok (if ?b then _ else _) = _ => destruct b
    end; injection H as <-; cbn; tauto.
Qed.

Lemma score_question_values_witness :
  In 60.0 question_score_values /\ (0.0 <=? 60.0) = true /\
  (60.0 <=? 100.0) = true.
Proof.
  apply (score_question_values (Question.mk "q" "stars" "" 1.0)
           (Py.Str " 3 ") 60.0).
  reflexivity.
Defined.

(** ** Unknown kinds of question *)

Lemma score_question_Ok_valid q a s :
  score_question q a = Ok s -> valid_type q = true.
Proof.
  unfold score_question, valid_type.
  destruct (String.eqb _ "stars"); [reflexivity|].
  destruct (String.eqb _ "boolean"); [reflexivity | discriminate].
Qed.

Lemma score_domain_loop_Ok_valid questions answers tw ts r :
  score_domain_loop questions answers tw ts = Ok r ->
  Forall (fun q => valid_type q = true) questions.
Proof.
  revert tw ts. induction questions as [|q rest IH]; intros tw ts; cbn;
    [constructor|].
  unfold_result.
  destruct (score_question q _) as [s|e] eqn:E; [|discriminate].
  intros H. constructor; [eapply score_question_Ok_valid | eapply IH]; eauto.
Qed.

Lemma score_domain_Ok_valid domain answers s :
  score_domain domain answers = Ok s ->
  Forall (fun q => valid_type q = true) (Domain.questions domain).
Proof.
  unfold score_domain. unfold_result.
  destruct (score_domain_loop _ _ _ _) as [[tw ts]|e] eqn:E; [|discriminate].
  intros _. eapply score_domain_loop_Ok_valid; eauto.
Qed.

Lemma score_global_loop_Ok_valid items all_answers ds sum count r :
  score_global_loop items all_answers ds sum count = Ok r ->
  valid_catalogue items.
Proof.
  revert ds sum count.
  induction items as [|[id d] items IH]; intros ds sum count; cbn;
    [constructor|].
  unfold_result.
  destruct (score_domain d _) as [s|e] eqn:E; [|discriminate].
  intros H. constructor.
  - cbn. eapply score_domain_Ok_valid; eauto.
  - destruct (Py.nonempty _); eapply IH; eauto.
Qed.

(** [score_global] returns only when every question of every domain, with
    or without answers, is a rating or a boolean question; with answers
    free of infinite floats that is also enough for it to return. *)
Theorem score_global_returns_iff_valid
    (domains : Py.dict Domain.t) (all_answers : Answers) :
  (forall r, score_global domains all_answers = Ok r ->
             valid_catalogue domains) /\
  (finite_answers all_answers -> valid_catalogue domains ->
   exists r, score_global domains all_answers = Ok r).
Proof.
  split.
  - intros r. unfold score_global. unfold_result.
    destruct (score_global_loop _ _ _ _ _) as [[[ds sum] count]|e] eqn:E;
      [|discriminate].
    intros _. eapply score_global_loop_Ok_valid; eauto.
  - intros Hfin Hval.
    destruct (domain_scores_exist _ _ Hval Hfin) as [scores Hs].
    unfold score_global.
    rewrite (score_global_loop_spec _ _ _ _ _ _ Hs). unfold_result. eauto.
Qed.

Lemma score_global_returns_iff_valid_witness :
  valid_catalogue example_common /\
  exists r, score_global example_common
              [("si"%string, [("si_1"%string, Py.Float 2.5)])] = Ok r.
Proof.
  pose (all_answers := [("si"%string, [("si_1"%string, Py.Float 2.5)])]).
  destruct (score_global_returns_iff_valid example_common all_answers)
    as [Hvalid Hreturns].
  split.
  - eapply Hvalid. vm_compute. reflexivity.
  - apply Hreturns; repeat constructor.
Defined.

(** ** Answers under other keys *)

Lemma score_domain_loop_ext questions answers answers' tw ts :
  Forall (fun q => Py.get (Question.id q) answers
                   = Py.get (Question.id q) answers') questions ->
  score_domain_loop questions answers tw ts =
  score_domain_loop questions answers' tw ts.
Proof.
  intros H. revert tw ts.
  induction H as [|q rest Hq _ IH]; intros tw ts; cbn; [reflexivity|].
  unfold answer_of. rewrite Hq. unfold_result.
  destruct (score_question q _); [apply IH | reflexivity].
Qed.

(** The score of a domain depends on the answers only through the entries
    under the ids of its questions: entries under any other key change
    nothing. *)
Theorem score_domain_other_keys
    (domain : Domain.t) (answers answers' : Py.dict Py.value) :
  Forall (fun q => Py.get (Question.id q) answers
                   = Py.get (Question.id q) answers')
    (Domain.questions domain) ->
  score_domain domain answers = score_domain domain answers'.
Proof.
  intros H. unfold score_domain. now rewrite (score_domain_loop_ext _ _ _ _ _ H).
Qed.

Lemma score_domain_other_keys_witness :
  score_domain (Domain.mk "si" "SI" "" [si_1])
    [("si_1"%string, Py.Int 3); ("note"%string, Py.Str "vu")]
  = score_domain (Domain.mk "si" "SI" "" [si_1])
      [("autre"%string, Py.Int 5); ("si_1"%string, Py.Int 3)].
Proof.
  apply score_domain_other_keys. repeat constructor.
Defined.

(** ** The keys of the result of [score_global] *)

Lemma keys_set {V} k (v : V) d :
  Py.keys (Py.set k v d) =
  if existsb (String.eqb k) (Py.keys d) then Py.keys d
  else Py.keys d ++ [k].
Proof.
  unfold Py.keys. induction d as [|[k' v'] d IH]; cbn; [reflexivity|].
  destruct (String.eqb k k') eqn:E; cbn.
  - apply String.eqb_eq in E. now subst.
  - rewrite IH. now destruct (existsb _ _).
Qed.

Lemma existsb_eqb_In k (l : list string) :
  existsb (String.eqb k) l = true <-> In k l.
Proof.
  rewrite existsb_exists. split.
  - intros (x & Hx & E). apply String.eqb_eq in E. now subst.
  - intros H. exists k. split; [exact H | apply String.eqb_refl].
Qed.

(** The result of [score_global] has the domain ids in the order of the
    catalogue, followed by "__global__".  A domain that is itself called
    "__global__" gets no key of its own: its score is replaced by the
    global score. *)
Theorem score_global_keys
    (domains : Py.dict Domain.t) (all_answers : Answers)
    (scores : list (string * float)) :
  Py.dict_wf domains ->
  domain_scores_of domains all_answers scores ->
  exists r, score_global domains all_answers = Ok r /\
    (~ In GLOBAL_KEY (Py.keys domains) ->
     Py.keys r = Py.keys domains ++ [GLOBAL_KEY]) /\
    (In GLOBAL_KEY (Py.keys domains) ->
     Py.keys r = Py.keys domains /\
     Py.get GLOBAL_KEY r = Some (mean (included all_answers scores))).
Proof.
  intros Hwf Hs. eexists. split; [apply (score_global_spec _ _ _ Hwf Hs)|].
  rewrite keys_set, (domain_scores_of_keys _ _ _ Hs).
  split; intros Hin.
  - destruct (existsb _ _) eqn:E; [|reflexivity].
    apply existsb_eqb_In in E. contradiction.
  - apply existsb_eqb_In in Hin. rewrite Hin.
    split; [reflexivity | apply get_set_eq].
Qed.

Lemma score_global_keys_witness :
  let q := Question.mk "q" "boolean" "" 1.0 in
  let domains :=
    [("__global__", Domain.mk "__global__" "G" "" [q]);
     ("b", Domain.mk "b" "B" "" [q])]%string in
  let all_answers :=
    [("__global__", [("q", Py.Bool true)]); ("b", [("q", Py.Bool false)])
    ]%string in
  exists r, score_global domains all_answers = Ok r /\
    Py.keys r = ["__global__"; "b"]%string /\
    Py.get GLOBAL_KEY r = Some 50.0.
Proof.
  intros q domains all_answers.
  pose (scores := [("__global__", 100.0); ("b", 0.0)]%string).
  assert (Py.dict_wf domains) as Hwf
    by (unfold Py.dict_wf; cbn; apply (bool_decide_unpack _);
        vm_compute; exact I).
  assert (domain_scores_of domains all_answers scores) as Hs
    by (repeat (constructor; [split; reflexivity|]); constructor).
  destruct (score_global_keys domains all_answers scores Hwf Hs)
    as (r & Hr & _ & Hin).
  destruct Hin as [Hk Hg]; [cbn; tauto|].
  exists r. split; [exact Hr|]. split; [exact Hk | exact Hg].
Defined.

End ScorerExtras.

(* ================================================================== *)
(** * The score badges *)
(* ================================================================== *)

Section Badges.
Local Open Scope float_scope.
Import FloatFacts.

Lemma ltb_leb_false_trans x c c' :
  (x <? c) = true -> (c <=? c') = true -> (c' <=? x) = false.
Proof.
  intros Hx Hc. destruct (c' <=? x) eqn:E; [|reflexivity].
  pose proof (leb_trans _ _ _ Hc E) as H.
  now rewrite (ltb_leb_false _ _ Hx) in H.
Qed.

Lemma leb_nan_r c x : is_nan x = true -> (c <=? x) = false.
Proof.
  intros Hn. destruct (c <=? x) eqn:E; [|reflexivity].
  apply leb_true in E as (_ & E & _). congruence.
Qed.

(** The five tiers of the badges are cut at 75, 60, 40 and 20: "Fort" and
    "Bon" wear the class pill-ok, "Moyen" pill-mid, "À améliorer" and
    "Critique" pill-bad; a score that is not a number is "Critique". *)
Theorem classify_score_tiers (score : float) :
  ((75.0 <=? score) = true ->
     classify_score score = ("Fort", "pill-ok")%string) /\
  ((60.0 <=? score) = true -> (score <? 75.0) = true ->
     classify_score score = ("Bon", "pill-ok")%string) /\
  ((40.0 <=? score) = true -> (score <? 60.0) = true ->
     classify_score score = ("Moyen", "pill-mid")%string) /\
  ((20.0 <=? score) = true -> (score <? 40.0) = true ->
     classify_score score = (A_AMELIORER, "pill-bad"%string)) /\
  ((score <? 20.0) = true \/ is_nan score = true ->
     classify_score score = ("Critique", "pill-bad")%string).
Proof.
  unfold classify_score. split; [|split; [|split; [|split]]].
  - intros ->. reflexivity.
  - intros H60 H75. now rewrite (ltb_leb_false _ _ H75), H60.
  - intros H40 H60.
    rewrite (ltb_leb_false_trans score 60.0 75.0 H60 eq_refl).
    now rewrite (ltb_leb_false _ _ H60), H40.
  - intros H20 H40.
    rewrite (ltb_leb_false_trans score 40.0 75.0 H40 eq_refl).
    rewrite (ltb_leb_false_trans score 40.0 60.0 H40 eq_refl).
    now rewrite (ltb_leb_false _ _ H40), H20.
  - intros [H20|Hn].
    + rewrite (ltb_leb_false_trans score 20.0 75.0 H20 eq_refl).
      rewrite (ltb_leb_false_trans score 20.0 60.0 H20 eq_refl).
      rewrite (ltb_leb_false_trans score 20.0 40.0 H20 eq_refl).
      now rewrite (ltb_leb_false _ _ H20).
    + now rewrite !(leb_nan_r _ _ Hn).
Qed.

Lemma classify_score_tiers_witness :
  classify_score 80.0 = ("Fort", "pill-ok")%string /\
  classify_score 74.5 = ("Bon", "pill-ok")%string /\
  classify_score 40.0 = ("Moyen", "pill-mid")%string /\
  classify_score 39.5 = (A_AMELIORER, "pill-bad"%string) /\
  classify_score nan = ("Critique", "pill-bad")%string.
Proof.
  split; [|split; [|split; [|split]]].
  - apply (proj1 (classify_score_tiers 80.0)). reflexivity.
  - apply (proj1 (proj2 (classify_score_tiers 74.5))); reflexivity.
  - apply (proj1 (proj2 (proj2 (classify_score_tiers 40.0)))); reflexivity.
  - apply (proj1 (proj2 (proj2 (proj2 (classify_score_tiers 39.5)))));
      reflexivity.
  - apply (proj2 (proj2 (proj2 (proj2 (classify_score_tiers nan))))).
    right. reflexivity.
Defined.

(** ** The badges of the weak and strong points *)

Lemma set_In {V} k (v : V) d x :
  In x (Py.set k v d) -> x = (k, v) \/ In x d.
Proof.
  induction d as [|[k' v'] d IH]; cbn.
  - intros [<-|[]]. now left.
  - destruct (String.eqb k k'); cbn.
    + intros [<-|H]; auto.
    + intros [<-|H]; [auto|]. destruct (IH H); auto.
Qed.

Lemma fold_set_item_In {V} (l acc : list (string * V)) x :
  In x (fold_left Py.set_item l acc) -> In x acc \/ In x l.
Proof.
  revert acc. induction l as [|[k v] l IH]; intros acc; cbn; [auto|].
  intros H. destruct (IH _ H) as [H'|H']; [|auto].
  apply set_In in H' as [->|H']; auto.
Qed.

Lemma extract_loop_In keep items all_answers acc r :
  extract_loop keep items all_answers acc = Ok r ->
  forall id s, In (id, s) r ->
               In (id, s) acc \/ keep (classify_domain s) = true.
Proof.
  revert acc. induction items as [|[did d] items IH]; intros acc; cbn.
  - intros [= <-]. auto.
  - destruct (negb _); [apply IH|]. unfold_result.
    destruct (score_domain d _) as [s0|e]; [|discriminate].
    destruct (keep (classify_domain s0)) eqn:Ek; [|apply IH].
    intros H id s Hin. destruct (IH _ H id s Hin) as [Hacc|Hk]; [|auto].
    apply set_In in Hacc as [[= -> ->]|Hacc]; auto.
Qed.

Lemma extract_points_In keep reverse domains all_answers r :
  (scores ← extract_loop keep domains all_answers [];
   Ok (Py.dict_of_items (Py.sorted snd reverse scores))) = Ok r ->
  forall id s, In (id, s) r -> keep (classify_domain s) = true.
Proof.
  unfold_result.
  destruct (extract_loop keep domains all_answers []) as [scores|e] eqn:E;
    [|discriminate].
  intros [= <-] id s Hin.
  apply fold_set_item_In in Hin as [[]|Hin].
  apply (Permutation_in _ (sorted_perm snd reverse scores)) in Hin.
  destruct (extract_loop_In _ _ _ _ _ E id s Hin) as [[]|Hk]. exact Hk.
Qed.

(** Every strong point wears the badge "Fort"; no weak point does, yet a
    weak point wears the class pill-ok, under the label "Bon", as soon as
    its score reaches 60. *)
Theorem extracted_points_badges
    (domains : Py.dict Domain.t) (all_answers : Answers) :
  (forall strong id s,
     extract_strong_points domains all_answers = Ok strong ->
     In (id, s) strong ->
     classify_score s = ("Fort", "pill-ok")%string) /\
  (forall weak id s,
     extract_weak_points domains all_answers = Ok weak ->
     In (id, s) weak ->
     fst (classify_score s) <> "Fort"%string /\
     ((60.0 <=? s) = true ->
      classify_score s = ("Bon", "pill-ok")%string) /\
     ((60.0 <=? s) = false ->
      snd (classify_score s) <> "pill-ok"%string)).
Proof.
  split.
  - intros strong id s H Hin.
    pose proof (extract_points_In _ _ _ _ _ H id s Hin) as Hk. cbv beta in Hk.
    apply String.eqb_eq in Hk. unfold classify_domain, STRONG_THRESHOLD in Hk.
    unfold classify_score.
    destruct (75.0 <=? s); [reflexivity|].
    destruct (IMPROVE_THRESHOLD <=? s); discriminate.
  - intros weak id s H Hin.
    pose proof (extract_points_In _ _ _ _ _ H id s Hin) as Hk. cbv beta in Hk.
    apply negb_true_iff, String.eqb_neq in Hk.
    unfold classify_domain, STRONG_THRESHOLD in Hk. unfold classify_score.
    destruct (75.0 <=? s); [now destruct Hk|].
    destruct (60.0 <=? s); [repeat split; discriminate || reflexivity|].
    destruct (40.0 <=? s), (20.0 <=? s); repeat split; discriminate.
Qed.

Lemma extracted_points_badges_witness :
  let q n := Question.mk n "stars" "" 1.0 in
  let domains :=
    [("a", Domain.mk "a" "A" "" [q "q1"; q "q2"; q "q3"]);
     ("b", Domain.mk "b" "B" "" [q "q1"])]%string in
  let all_answers :=
    [("a", [("q1", Py.Int 3); ("q2", Py.Int 3); ("q3", Py.Int 4)]);
     ("b", [("q1", Py.Int 5)])]%string in
  extract_weak_points domains all_answers
    = Ok [("a"%string, (60.0 + 60.0 + 80.0) / 3.0)] /\
  classify_score ((60.0 + 60.0 + 80.0) / 3.0) = ("Bon", "pill-ok")%string /\
  classify_score 100.0 = ("Fort", "pill-ok")%string.
Proof.
  intros q domains all_answers.
  destruct (extracted_points_badges domains all_answers) as [Hs Hw].
  split; [reflexivity|]. split.
  - apply (Hw [("a"%string, (60.0 + 60.0 + 80.0) / 3.0)] "a"%string);
      [reflexivity | cbn; tauto | reflexivity].
  - apply (Hs [("b"%string, 100.0)] "b"%string); [reflexivity | cbn; tauto].
Defined.

End Badges.

(* ================================================================== *)
(** * Ties between scores *)
(* ================================================================== *)

Section FloatEq.
Local Open Scope float_scope.
Import FloatFacts.

Lemma lex3_Eq a b : lex3 a b = Eq -> a = b.
Proof.
  destruct a as [a1 [a2 a3]], b as [b1 [b2 b3]]. unfold lex3; cbn [fst snd].
  destruct (Z.compare_spec a1 b1); try discriminate.
  destruct (Z.compare_spec a2 b2); try discriminate.
  destruct (Z.compare_spec a3 b3); try discriminate.
  intros _. congruence.
Qed.

Lemma lex3_lt_le_trans a b c :
  lex3 a b = Lt -> lex3 b c <> Gt -> lex3 a c = Lt.
Proof.
  destruct a as [a1 [a2 a3]], b as [b1 [b2 b3]], c as [c1 [c2 c3]].
  unfold lex3; cbn [fst snd].
  repeat match goal with
  | |- context [(?x ?= ?y)%Z] => destruct (Z.compare_spec x y)
  end; intros; try congruence; try lia.
Qed.

Lemma eqb_true x y :
  (x =? y) = true ->
  sf_key (Prim2SF x) = sf_key (Prim2SF y).
Proof.
  rewrite FloatAxioms.eqb_spec. unfold SFeqb.
  destruct (SFcompare _ _) as [[]|] eqn:E; try discriminate.
  intros _. apply SFcompare_key in E. now apply lex3_Eq.
Qed.

(** Nothing at or above a number greater than [x] is equal to [x]. *)
Lemma ltb_leb_neqb x y z k :
  (x =? k) = true -> (x <? y) = true -> (y <=? z) = true ->
  (z =? k) = false.
Proof.
  intros Hk Hxy Hyz. destruct (z =? k) eqn:E; [|reflexivity].
  apply eqb_true in Hk, E.
  apply ltb_true in Hxy as (_ & _ & Hxy).
  apply leb_true in Hyz as (_ & _ & Hyz).
  pose proof (lex3_lt_le_trans _ _ _ Hxy Hyz) as H.
  rewrite E, <- Hk, lex3_refl in H. discriminate.
Qed.

End FloatEq.

Section SortStable.
Local Open Scope float_scope.
Import FloatFacts.
Context {A : Type} (key : A -> float).

Let le (a b : A) : Prop := (key a <=? key b) = true.
Let ok (a : A) : Prop := is_nan (key a) = false.

Variable k : float.
Let tie (a : A) : bool := key a =? k.

Lemma filter_none (f : A -> bool) l :
  (forall z, In z l -> f z = false) -> List.filter f l = [].
Proof.
  induction l as [|y l IH]; cbn; [reflexivity|]. intros H.
  rewrite (H y) by now left. apply IH. intros z Hz. apply H. now right.
Qed.

Lemma stable_insert_tie x l :
  StronglySorted le l ->
  List.filter tie (stable_insert key x l) =
  List.filter tie l ++ (if tie x then [x] else []).
Proof.
  unfold tie. induction 1 as [|y l Hs IH Hy]; cbn.
  - now destruct (key x =? k).
  - destruct (key x <? key y) eqn:E; cbn.
    + destruct (key x =? k) eqn:Ex; [|now rewrite app_nil_r].
      assert (List.filter (fun a => key a =? k) (y :: l) = []) as Hnone.
      { apply filter_none. intros z Hz.
        apply (ltb_leb_neqb (key x) (key y)); auto.
        destruct Hz as [<-|Hz].
        - apply ltb_true in E as (_ & Hny & _). apply leb_true.
          repeat split; auto. rewrite lex3_refl. discriminate.
        - rewrite Forall_forall in Hy. apply Hy. now apply list_elem_of_In. }
      cbn in Hnone. now rewrite Hnone.
    + rewrite IH. now destruct (key y =? k).
Qed.

Lemma stable_fold_tie l acc :
  Forall ok l -> Forall ok acc -> StronglySorted le acc ->
  List.filter tie (fold_left (fun acc x => stable_insert key x acc) l acc)
  = List.filter tie acc ++ List.filter tie l.
Proof.
  intros Hl. revert acc.
  induction Hl as [|x l Hx _ IH]; intros acc Hacc Hs; cbn.
  - now rewrite app_nil_r.
  - rewrite IH.
    + rewrite (stable_insert_tie x acc Hs), <- app_assoc.
      unfold tie. now destruct (key x =? k).
    + now apply stable_insert_ok.
    + now apply stable_insert_sorted.
Qed.

(** [sorted] is stable in both directions: the elements whose key equals
    [k] come out in the order they went in. *)
Lemma sorted_tie reverse l :
  Forall ok l ->
  List.filter tie (Py.sorted key reverse l) = List.filter tie l.
Proof.
  intros Hl. rewrite sorted_stable by assumption.
  unfold stable_sorted, stable_sort. destruct reverse.
  - rewrite List.filter_rev, stable_fold_tie;
      [| now apply Forall_rev | constructor | constructor].
    cbn. now rewrite List.filter_rev, rev_involutive.
  - rewrite stable_fold_tie; [reflexivity | assumption | constructor
                              | constructor].
Qed.

End SortStable.

(* ================================================================== *)
(** * Weak and strong points, together *)
(* ================================================================== *)

Section AnalyzerExtras.
Local Open Scope float_scope.
Import FloatFacts.

Lemma filter_partition_perm {A} (p : A -> bool) l :
  Permutation (List.filter (fun x => negb (p x)) l ++ List.filter p l) l.
Proof.
  induction l as [|x l IH]; cbn; [reflexivity|].
  destruct (p x); cbn.
  - rewrite <- Permutation_middle. now constructor.
  - now constructor.
Qed.

(** The weak and the strong points split the domains that have answers:
    each such domain is in exactly one of the two lists, with the score
    that [score_global] records for it. *)
Theorem points_partition
    (domains : Py.dict Domain.t) (all_answers : Answers)
    (scores : list (string * float)) :
  Py.dict_wf domains ->
  domain_scores_of domains all_answers scores ->
  exists r weak strong,
    score_global domains all_answers = Ok r /\
    extract_weak_points domains all_answers = Ok weak /\
    extract_strong_points domains all_answers = Ok strong /\
    Permutation (weak ++ strong)
      (List.filter (fun ks => answered all_answers (fst ks)) scores) /\
    NoDup (Py.keys (weak ++ strong)) /\
    (forall id s, In (id, s) (weak ++ strong) -> id <> GLOBAL_KEY ->
                  Py.get id r = Some s).
Proof.
  intros Hwf Hs.
  pose proof (domain_scores_of_answered _ _ _ Hs) as Hsa.
  set (sa := List.filter (fun ks => answered all_answers (fst ks)) scores)
    in *.
  assert (Py.dict_wf scores) as Hwf'
    by (unfold Py.dict_wf; now rewrite (domain_scores_of_keys _ _ _ Hs)).
  assert (Permutation
            (Py.sorted snd false
               (List.filter (fun ks => negb (is_strong ks)) sa) ++
             Py.sorted snd true (List.filter is_strong sa)) sa) as Hperm.
  { rewrite !sorted_perm. apply filter_partition_perm. }
  eexists. eexists. eexists.
  split; [apply (score_global_spec _ _ _ Hwf Hs)|].
  split; [apply (extract_weak_points_spec _ _ _ Hwf Hsa)|].
  split; [apply (extract_strong_points_spec _ _ _ Hwf Hsa)|].
  split; [exact Hperm|]. split.
  - unfold Py.keys. rewrite (Permutation_map fst Hperm).
    apply (filter_keys_wf _ scores Hwf').
  - intros id s Hin Hne. rewrite get_set_ne by congruence.
    apply get_In; [exact Hwf'|].
    apply (Permutation_in _ Hperm) in Hin. now apply filter_In in Hin.
Qed.

Lemma points_partition_witness :
  let q := Question.mk "q" "boolean" "" 1.0 in
  let domains :=
    [("a", Domain.mk "a" "A" "" [q]); ("b", Domain.mk "b" "B" "" [q]);
     ("c", Domain.mk "c" "C" "" [q])]%string in
  let all_answers :=
    [("a", [("q", Py.Bool false)]); ("b", [("q", Py.Bool true)])]%string in
  exists r weak strong,
    score_global domains all_answers = Ok r /\
    extract_weak_points domains all_answers = Ok weak /\
    extract_strong_points domains all_answers = Ok strong /\
    Permutation (weak ++ strong) [("a", 0.0); ("b", 100.0)]%string.
Proof.
  intros q domains all_answers.
  pose (scores := [("a", 0.0); ("b", 100.0); ("c", 0.0)]%string).
  assert (Py.dict_wf domains) as Hwf
    by (unfold Py.dict_wf; cbn; apply (bool_decide_unpack _);
        vm_compute; exact I).
  assert (domain_scores_of domains all_answers scores) as Hs
    by (repeat (constructor; [split; reflexivity|]); constructor).
  destruct (points_partition domains all_answers scores Hwf Hs)
    as (r & weak & strong & Hr & Hw & Hst & Hp & _).
  exists r, weak, strong. repeat (split; [assumption|]). exact Hp.
Defined.

(** Among domains with equal scores the order of the catalogue is kept, in
    the weak points as in the strong points. *)
Theorem extract_points_ties
    (domains : Py.dict Domain.t) (all_answers : Answers)
    (scores : list (string * float)) :
  Py.dict_wf domains ->
  domain_scores_of (answered_domains domains all_answers) all_answers scores ->
  Forall (fun ks => is_nan (snd ks) = false) scores ->
  exists weak strong,
    extract_weak_points domains all_answers = Ok weak /\
    extract_strong_points domains all_answers = Ok strong /\
    forall k,
      List.filter (fun ks => snd ks =? k) weak =
      List.filter (fun ks => snd ks =? k)
        (List.filter (fun ks => negb (is_strong ks)) scores) /\
      List.filter (fun ks => snd ks =? k) strong =
      List.filter (fun ks => snd ks =? k) (List.filter is_strong scores).
Proof.
  intros Hwf Hs Hnan. eexists. eexists.
  split; [apply (extract_weak_points_spec _ _ _ Hwf Hs)|].
  split; [apply (extract_strong_points_spec _ _ _ Hwf Hs)|].
  assert (forall p, Forall (fun ks : string * float => is_nan (snd ks) = false)
                      (List.filter p scores)) as Hf.
  { intros p. apply Forall_forall.
    intros x Hx%list_elem_of_In%filter_In.
    rewrite Forall_forall in Hnan. apply Hnan.
    apply list_elem_of_In. tauto. }
  intros k. split; apply (sorted_tie snd k); apply Hf.
Qed.

Lemma extract_points_ties_witness :
  let q := Question.mk "q" "boolean" "" 1.0 in
  let domains :=
    [("c", Domain.mk "c" "C" "" [q]); ("a", Domain.mk "a" "A" "" [q]);
     ("b", Domain.mk "b" "B" "" [q]); ("d", Domain.mk "d" "D" "" [q])
    ]%string in
  let all_answers :=
    [("a", [("q", Py.Bool true)]); ("b", [("q", Py.Bool false)]);
     ("c", [("q", Py.Bool true)]); ("d", [("q", Py.Bool false)])]%string in
  exists weak strong,
    extract_weak_points domains all_answers = Ok weak /\
    extract_strong_points domains all_answers = Ok strong /\
    List.filter (fun ks => snd ks =? 0.0) weak
      = [("b", 0.0); ("d", 0.0)]%string /\
    List.filter (fun ks => snd ks =? 100.0) strong
      = [("c", 100.0); ("a", 100.0)]%string.
Proof.
  intros q domains all_answers.
  pose (scores := [("c", 100.0); ("a", 100.0); ("b", 0.0); ("d", 0.0)
                  ]%string).
  assert (Py.dict_wf domains) as Hwf
    by (unfold Py.dict_wf; cbn; apply (bool_decide_unpack _);
        vm_compute; exact I).
  assert (domain_scores_of (answered_domains domains all_answers)
            all_answers scores) as Hs
    by (repeat (constructor; [split; reflexivity|]); constructor).
  destruct (extract_points_ties domains all_answers scores Hwf Hs)
    as (weak & strong & Hw & Hst & Hties);
    [repeat (constructor; [reflexivity|]); constructor|].
  exists weak, strong. split; [exact Hw|]. split; [exact Hst|]. split.
  - apply (proj1 (Hties 0.0)).
  - apply (proj2 (Hties 100.0)).
Defined.

End AnalyzerExtras.

(* ================================================================== *)
(** * The blank template *)
(* ================================================================== *)

Section Templates.
Local Open Scope float_scope.
Import FloatFacts.

Lemma first_ids_seen seen seen' questions :
  (forall k, In k seen <-> In k seen') ->
  first_ids seen questions = first_ids seen' questions.
Proof.
  revert seen seen'.
  induction questions as [|q rest IH]; intros seen seen' H; cbn;
    [reflexivity|].
  assert (existsb (String.eqb (Question.id q)) seen =
          existsb (String.eqb (Question.id q)) seen') as ->.
  { apply eq_true_iff_eq. rewrite !existsb_eqb_In. apply H. }
  destruct (existsb _ seen'); [now apply IH|].
  f_equal. apply IH. intros k. cbn. now rewrite H.
Qed.

(** The keys of a dict filled question by question: the ids, each once,
    in order of first occurrence. *)
Lemma fold_set_keys {V} (qv : list (Question.t * V)) acc :
  Py.keys (fold_left Py.set_item
             (map (fun p => (Question.id (fst p), snd p)) qv) acc) =
  Py.keys acc ++ first_ids (Py.keys acc) (map fst qv).
Proof.
  revert acc. induction qv as [|[q v] qv IH]; intros acc.
  - cbn. now rewrite app_nil_r.
  - cbn [map fold_left fst snd]. rewrite IH.
    change (Py.set_item acc (Question.id q, v))
      with (Py.set (Question.id q) v acc).
    rewrite keys_set. cbn [first_ids].
    destruct (existsb (String.eqb (Question.id q)) (Py.keys acc));
      [reflexivity|].
    rewrite <- app_assoc. cbn. do 2 f_equal. apply first_ids_seen.
    intros k. rewrite in_app_iff. cbn. tauto.
Qed.

Lemma empty_answers_of_fold questions acc :
  empty_answers_of questions acc =
  fold_left Py.set_item
    (map (fun p => (Question.id (fst p), snd p))
       (map (fun q => (q, Py.None_)) questions)) acc.
Proof.
  revert acc. induction questions as [|q rest IH]; intros acc; cbn;
    [reflexivity | apply IH].
Qed.

Lemma unanswered_keys answers :
  unanswered answers ->
  answers = map (fun k => (k, Py.None_)) (Py.keys answers).
Proof.
  unfold Py.keys.
  induction 1 as [|[k v] l Hv _ IH]; cbn in *; [reflexivity|].
  subst v. f_equal. exact IH.
Qed.

Lemma empty_answers_of_ids questions :
  empty_answers_of questions [] =
  map (fun k => (k, Py.None_)) (first_ids [] questions).
Proof.
  rewrite (unanswered_keys (empty_answers_of questions []))
    by (apply empty_answers_of_unanswered; constructor).
  f_equal. rewrite empty_answers_of_fold, fold_set_keys. cbn.
  now rewrite map_map, map_id.
Qed.

(** The template of [generate_empty_answers] in closed form: the domains
    in the order of the catalogue, each with its question ids in order,
    an id that several questions share being listed once, at its first
    place, and every value [None]. *)
Theorem generate_empty_answers_template (domains : Py.dict Domain.t) :
  Py.dict_wf domains ->
  generate_empty_answers domains =
  map (fun kd =>
         (fst kd,
          map (fun k => (k, Py.None_))
            (first_ids [] (Domain.questions (snd kd)))))
    domains.
Proof.
  intros Hwf. unfold generate_empty_answers.
  rewrite generate_empty_answers_loop_spec.
  set (f := fun kd : string * Domain.t =>
              (fst kd, empty_answers_of (Domain.questions (snd kd)) [])).
  fold (Py.dict_of_items (map f domains)).
  rewrite dict_of_items_wf
    by (unfold Py.dict_wf, Py.keys; rewrite map_map; exact Hwf).
  apply map_ext. intros [k d]. unfold f. cbn.
  now rewrite empty_answers_of_ids.
Qed.

Lemma generate_empty_answers_template_witness :
  let q n := Question.mk n "stars" "" 1.0 in
  generate_empty_answers
    [("a", Domain.mk "a" "A" "" [q "x"; q "y"; q "x"]);
     ("b", Domain.mk "b" "B" "" [])]%string =
  [("a", [("x", Py.None_); ("y", Py.None_)]); ("b", [])]%string.
Proof.
  intros q.
  rewrite generate_empty_answers_template; [reflexivity|].
  unfold Py.dict_wf. cbn. apply (bool_decide_unpack _). vm_compute. exact I.
Defined.

End Templates.

Section BlankTemplate.
Local Open Scope float_scope.
Import FloatFacts.

Lemma filter_all {A} (p : A -> bool) l :
  Forall (fun x => p x = true) l -> List.filter p l = l.
Proof.
  induction 1 as [|x l Hx _ IH]; cbn; [reflexivity|].
  now rewrite Hx, IH.
Qed.

(** Sorting a list whose keys are all the same number changes nothing. *)
Lemma sorted_constant {A} (key : A -> float) k reverse l :
  is_nan k = false -> Forall (fun a => key a = k) l ->
  Py.sorted key reverse l = l.
Proof.
  intros Hk Hl.
  assert ((k =? k) = true) as Hkk.
  { unfold is_nan in Hk. now apply negb_false_iff in Hk. }
  assert (Forall (fun a => (key a =? k) = true) l) as Htie.
  { eapply Forall_impl; [exact Hl|]. cbn. now intros a ->. }
  rewrite <- (filter_all (fun a => key a =? k) (Py.sorted key reverse l)).
  - rewrite (sorted_tie key k).
    + now apply filter_all.
    + eapply Forall_impl; [exact Hl|]. cbn. now intros a ->.
  - rewrite Forall_forall in *. intros a Ha. apply Htie.
    apply list_elem_of_In. apply list_elem_of_In in Ha.
    now apply (Permutation_in _ (sorted_perm key reverse l)).
Qed.

Lemma blank_answered domains id d :
  Py.dict_wf domains -> In (id, d) domains ->
  answered (generate_empty_answers domains) id =
  match Domain.questions d with [] => false | _ => true end.
Proof.
  intros Hwf Hin. unfold answered.
  rewrite (generate_empty_answers_get _ _ _ Hwf Hin).
  destruct (Domain.questions d) as [|q rest] eqn:E; [reflexivity|].
  pose proof (empty_answers_of_nonempty (q :: rest) []) as Hne.
  destruct (empty_answers_of (q :: rest) []); [|reflexivity].
  exfalso. apply Hne; [left; discriminate | reflexivity].
Qed.

Lemma zero_scores_of all_answers (l : Py.dict Domain.t) :
  (forall kd, In kd l ->
     score_domain (snd kd) (answers_of all_answers (fst kd)) = Ok 0.0) ->
  domain_scores_of l all_answers (map (fun kd => (fst kd, 0.0)) l).
Proof.
  induction l as [|kd l IH]; intros H; constructor.
  - split; [reflexivity|]. apply H. now left.
  - apply IH. intros kd' Hin. apply H. now right.
Qed.

Lemma filter_map_ext {A B} (p : B -> bool) (p' : A -> bool) (f : A -> B) l :
  (forall x, In x l -> p (f x) = p' x) ->
  List.filter p (map f l) = map f (List.filter p' l).
Proof.
  induction l as [|x l IH]; intros H; cbn; [reflexivity|].
  rewrite (H x) by now left.
  rewrite IH by (intros y Hy; apply H; now right).
  now destruct (p' x).
Qed.

(** Scoring the blank template: every domain scores 0.0, no domain is a
    strong point, and the weak points are the domains that have a
    question, in the order of the catalogue, each at 0.0. *)
Theorem blank_template_points (domains : Py.dict Domain.t) :
  Py.dict_wf domains ->
  valid_catalogue domains ->
  Forall (fun kd =>
            Forall (fun q => nonneg_finite (Question.weight q) = true)
              (Domain.questions (snd kd))) domains ->
  (exists r,
     score_global domains (generate_empty_answers domains) = Ok r /\
     forall id d, In (id, d) domains -> id <> GLOBAL_KEY ->
                  Py.get id r = Some 0.0) /\
  extract_strong_points domains (generate_empty_answers domains) = Ok [] /\
  extract_weak_points domains (generate_empty_answers domains) =
    Ok (map (fun kd => (fst kd, 0.0))
          (List.filter
             (fun kd => match Domain.questions (snd kd) with
                        | [] => false
                        | _ => true
                        end)
             domains)).
Proof.
  intros Hwf Hval Hw.
  set (blank := generate_empty_answers domains).
  set (f := fun kd : string * Domain.t => (fst kd, 0.0)).
  assert (domain_scores_of domains blank (map f domains)) as Hs.
  { apply zero_scores_of. intros [id d] Hin. cbn.
    unfold blank. rewrite (generate_empty_answers_get _ _ _ Hwf Hin).
    assert (unanswered (empty_answers_of (Domain.questions d) [])) as Hun
      by (apply empty_answers_of_unanswered; constructor).
    unfold valid_catalogue in Hval. rewrite Forall_forall in Hval, Hw.
    apply list_elem_of_In in Hin.
    destruct (score_domain_unanswered_ok d _ Hun (Hval _ Hin)) as [s Hsc].
    rewrite Hsc. f_equal.
    apply (score_domain_unanswered_exact d _ s Hun (Hw _ Hin) Hsc). }
  assert (Py.dict_wf (map f domains)) as Hwf'
    by (unfold Py.dict_wf; now rewrite (domain_scores_of_keys _ _ _ Hs)).
  pose proof (domain_scores_of_answered _ _ _ Hs) as Hsa.
  assert (List.filter (fun ks => answered blank (fst ks)) (map f domains) =
          map f (List.filter
                   (fun kd => match Domain.questions (snd kd) with
                              | [] => false
                              | _ => true
                              end) domains)) as Esa.
  { apply filter_map_ext. intros [id d] Hin. cbn.
    now apply blank_answered. }
  rewrite Esa in Hsa.
  set (sa := map f (List.filter _ domains)) in *.
  assert (Forall (fun ks : string * float => snd ks = 0.0) sa) as Hzero.
  { unfold sa. apply Forall_forall. intros ks Hin.
    apply list_elem_of_In, in_map_iff in Hin as (kd & <- & _).
    reflexivity. }
  split; [|split].
  - eexists. split; [apply (score_global_spec _ _ _ Hwf Hs)|].
    intros id d Hin Hne. rewrite get_set_ne by congruence.
    apply get_In; [exact Hwf'|]. apply (in_map f) in Hin. exact Hin.
  - rewrite (extract_strong_points_spec _ _ _ Hwf Hsa).
    replace (List.filter is_strong sa) with (@nil (string * float));
      [reflexivity|].
    symmetry. apply filter_none. intros [k s] Hin.
    rewrite Forall_forall in Hzero.
    apply list_elem_of_In, Hzero in Hin. cbn in Hin. now subst s.
  - rewrite (extract_weak_points_spec _ _ _ Hwf Hsa).
    rewrite filter_all.
    + f_equal. apply (sorted_constant snd 0.0); [reflexivity | exact Hzero].
    + eapply Forall_impl; [exact Hzero|]. intros [k s]. cbn. now intros ->.
Qed.

Lemma blank_template_points_witness :
  let q n := Question.mk n "stars" "" 1.0 in
  let domains :=
    [("b", Domain.mk "b" "B" "" [q "x"; q "y"]);
     ("vide", Domain.mk "vide" "V" "" []);
     ("a", Domain.mk "a" "A" "" [q "z"])]%string in
  extract_strong_points domains (generate_empty_answers domains) = Ok [] /\
  extract_weak_points domains (generate_empty_answers domains) =
    Ok [("b", 0.0); ("a", 0.0)]%string.
Proof.
  intros q domains.
  assert (Py.dict_wf domains) as Hwf
    by (unfold Py.dict_wf; cbn; apply (bool_decide_unpack _);
        vm_compute; exact I).
  destruct (blank_template_points domains Hwf) as (_ & Hst & Hw).
  - repeat constructor.
  - repeat constructor.
  - split; [exact Hst | exact Hw].
Defined.

End BlankTemplate.

(* ================================================================== *)
(** * Sample answers *)
(* ================================================================== *)

Section RandomSampleFacts.
Variable rng : Type.
Variable randint : Z -> Z -> rng -> Z * rng.
Variable choice : list bool -> rng -> bool * rng.
(** [randint a b] returns an integer between [a] and [b], both included. *)
Hypothesis randint_range :
  forall a b g, (a <= b)%Z -> (a <= fst (randint a b g) <= b)%Z.

(** A question list with the value drawn for each question. *)
Let entries (qv : list (Question.t * Py.value)) : Py.dict Py.value :=
  map (fun p => (Question.id (fst p), snd p)) qv.

Let drawn (questions : list Question.t) (qv : list (Question.t * Py.value))
  : Prop :=
  map fst qv = questions /\ Forall (fun p => drawn_for (fst p) (snd p)) qv.

Lemma sample_answers_of_spec questions acc g :
  exists qv,
    fst (sample_answers_of rng randint choice questions acc g) =
      fold_left Py.set_item (entries qv) acc /\
    drawn questions qv.
Proof.
  revert acc g. induction questions as [|q rest IH]; intros acc g.
  - exists []. split; [reflexivity|]. split; constructor.
  - cbn [sample_answers_of].
    destruct (String.eqb (Question.type q) "stars") eqn:Et.
    + pose proof (randint_range 1 5 g ltac:(lia)) as Hr.
      destruct (randint 1 5 g) as [v g']. cbn [fst] in Hr.
      destruct (IH (Py.set (Question.id q) (Py.Int v) acc) g')
        as (qv & E & Hm & Hd).
      exists ((q, Py.Int v) :: qv). split; [exact E|]. split.
      * cbn. now rewrite Hm.
      * constructor; [|exact Hd]. unfold drawn_for. cbn. rewrite Et. eauto.
    + destruct (choice [true; false] g) as [b g'].
      destruct (IH (Py.set (Question.id q) (Py.Bool b) acc) g')
        as (qv & E & Hm & Hd).
      exists ((q, Py.Bool b) :: qv). split; [exact E|]. split.
      * cbn. now rewrite Hm.
      * constructor; [|exact Hd]. unfold drawn_for. cbn. rewrite Et. eauto.
Qed.

Lemma generate_sample_answers_loop_spec items sample g :
  exists subs,
    fst (generate_sample_answers_loop rng randint choice items sample g) =
      fold_left Py.set_item subs sample /\
    Forall2
      (fun kd ks =>
         fst ks = fst kd /\
         exists qv, snd ks = Py.dict_of_items (entries qv) /\
                    drawn (Domain.questions (snd kd)) qv)
      items subs.
Proof.
  revert sample g. induction items as [|[id d] items IH]; intros sample g.
  - exists []. split; [reflexivity | constructor].
  - cbn [generate_sample_answers_loop].
    destruct (sample_answers_of_spec (Domain.questions d) [] g)
      as (qv & E & Hd).
    destruct (sample_answers_of rng randint choice (Domain.questions d) [] g)
      as [d_answers g']. cbn [fst] in E.
    destruct (IH (Py.set id d_answers sample) g') as (subs & E' & Hs).
    exists ((id, d_answers) :: subs). split; [exact E'|].
    constructor; [|exact Hs]. split; [reflexivity|].
    exists qv. split; [exact E | exact Hd].
Qed.

Lemma drawn_finite q v : drawn_for q v -> finite_answer v = true.
Proof.
  unfold drawn_for. destruct (String.eqb _ _).
  - now intros (z & -> & _).
  - now intros (b & ->).
Qed.

(** The sample of [generate_sample_answers] has the domains of the
    catalogue, in order; the sub-map of a domain has its question ids,
    each once; a question of type "stars" gets a rating from 1 to 5 and
    any other question a bool; and on a catalogue whose questions are all
    of a known type, [score_global] scores the sample without raising. *)
Theorem generate_sample_answers_scored
    (domains : Py.dict Domain.t) (g : rng) :
  Py.dict_wf domains ->
  let sample := fst (generate_sample_answers rng randint choice domains g) in
  Py.keys sample = Py.keys domains /\
  (forall id d, In (id, d) domains ->
     exists sub,
       Py.get id sample = Some sub /\
       Py.keys sub = first_ids [] (Domain.questions d) /\
       forall qid v, In (qid, v) sub ->
         exists q, In q (Domain.questions d) /\ Question.id q = qid /\
                   drawn_for q v) /\
  (valid_catalogue domains ->
   exists r, score_global domains sample = Ok r).
Proof.
  intros Hwf. cbv zeta. unfold generate_sample_answers.
  destruct (generate_sample_answers_loop_spec domains [] g)
    as (subs & E & Hs).
  rewrite E. clear E. fold (Py.dict_of_items subs).
  assert (Py.keys subs = Py.keys domains) as Hk.
  { unfold Py.keys. clear Hwf.
    induction Hs as [|kd ks ? ? [H _] _ IH]; cbn; [reflexivity|].
    f_equal; [exact H | exact IH]. }
  rewrite dict_of_items_wf by (unfold Py.dict_wf; now rewrite Hk).
  assert (forall id sub, In (id, sub) subs ->
            exists d qv, In (id, d) domains /\
                         sub = Py.dict_of_items (entries qv) /\
                         drawn (Domain.questions d) qv) as Hsub.
  { clear Hk Hwf.
    induction Hs as [|[k d] [k' s] ? ? [H1 (qv & H2 & H3)] _ IH];
      cbn in *; [tauto|].
    subst k' s. intros id sub [[= <- <-]|Hin].
    - exists d, qv. auto.
    - destruct (IH _ _ Hin) as (d' & qv' & ? & ? & ?). exists d', qv'. auto. }
  assert (forall id d, In (id, d) domains ->
            exists qv, In (id, Py.dict_of_items (entries qv)) subs /\
                       drawn (Domain.questions d) qv) as Hdom.
  { clear Hk Hwf Hsub.
    induction Hs as [|[k d] [k' s] ? ? [H1 (qv & H2 & H3)] _ IH];
      cbn in *; [tauto|].
    subst k' s. intros id d' [[= <- <-]|Hin].
    - exists qv. auto.
    - destruct (IH _ _ Hin) as (qv' & ? & ?). exists qv'. auto. }
  split; [exact Hk|]. split.
  - intros id d Hin. destruct (Hdom _ _ Hin) as (qv & Hqv & Hm & Hd).
    exists (Py.dict_of_items (entries qv)).
    split; [apply get_In; [unfold Py.dict_wf; now rewrite Hk | exact Hqv]|].
    split.
    + unfold Py.dict_of_items, entries. rewrite fold_set_keys. cbn.
      now rewrite Hm.
    + intros qid v Hv.
      apply fold_set_item_In in Hv as [[]|Hv].
      apply in_map_iff in Hv as ([q v'] & [= <- <-] & Hq).
      exists q. split; [rewrite <- Hm; now apply (in_map fst) in Hq|].
      split; [reflexivity|].
      rewrite Forall_forall in Hd. now apply list_elem_of_In, Hd in Hq.
  - intros Hval.
    assert (finite_answers subs) as Hfin.
    { apply Forall_forall. intros [id sub] Hin%list_elem_of_In.
      destruct (Hsub _ _ Hin) as (d & qv & _ & -> & _ & Hd).
      apply Forall_forall. intros [qid v] Hv%list_elem_of_In.
      apply fold_set_item_In in Hv as [[]|Hv].
      apply in_map_iff in Hv as ([q v'] & [= <- <-] & Hq).
      rewrite Forall_forall in Hd. apply list_elem_of_In, Hd in Hq.
      now apply (drawn_finite q). }
    destruct (domain_scores_exist domains subs Hval Hfin) as [scores Hsc].
    eexists. apply (score_global_spec _ _ _ Hwf Hsc).
Qed.

End RandomSampleFacts.

Lemma generate_sample_answers_scored_witness :
  let randint (a b g : Z) := ((a + g mod (b - a + 1))%Z, (g + 1)%Z) in
  let choice (l : list bool) (g : Z) :=
    (nth (Z.to_nat (g mod 2)) l true, (g + 1)%Z) in
  let domains :=
    [("a", Domain.mk "a" "A" ""
             [Question.mk "x" "stars" "" 1.0;
              Question.mk "y" "boolean" "" 1.0])]%string in
  let sample := fst (generate_sample_answers Z randint choice domains 7%Z) in
  sample = [("a", [("x", Py.Int 3); ("y", Py.Bool true)])]%string /\
  exists r, score_global domains sample = Ok r.
Proof.
  intros randint choice domains sample.
  split; [reflexivity|].
  assert (forall a b g, (a <= b)%Z -> (a <= fst (randint a b g) <= b)%Z)
    as Hrange.
  { intros a b g Hab. unfold randint. cbn [fst].
    pose proof (Z.mod_pos_bound g (b - a + 1)). lia. }
  assert (Py.dict_wf domains) as Hwf
    by (unfold Py.dict_wf; cbn; apply (bool_decide_unpack _);
        vm_compute; exact I).
  destruct (generate_sample_answers_scored Z randint choice Hrange domains 7%Z
              Hwf) as (_ & _ & Hscore).
  apply Hscore. repeat constructor.
Defined.

Section HashSampleFacts.
Import GenerateSampleAnswers.
Variable hash : string -> Z.

Lemma set_set {V} k (v v' : V) d :
  Py.set k v (Py.set k v' d) = Py.set k v d.
Proof.
  induction d as [|[k0 v0] d IH]; cbn.
  - now rewrite String.eqb_refl.
  - destruct (String.eqb k k0) eqn:E; cbn.
    + now rewrite String.eqb_refl.
    + now rewrite E, IH.
Qed.

Lemma set_get {V} k (v : V) d : Py.get k d = Some v -> Py.set k v d = d.
Proof.
  induction d as [|[k0 v0] d IH]; cbn; [discriminate|].
  destruct (String.eqb k k0) eqn:E.
  - apply String.eqb_eq in E. now intros [= ->]; subst.
  - intros H. now rewrite IH.
Qed.

(** The inner loop never meets a missing domain: it fills the sub-map of
    [domain_id] in place. *)
Lemma sample_questions_spec questions domain_id answers sub :
  Py.get domain_id answers = Some sub ->
  sample_questions hash questions domain_id answers =
  Some (Py.set domain_id
          (fold_left Py.set_item
             (map (fun q => (Question.id q, sample_answer hash q)) questions)
             sub)
          answers).
Proof.
  revert answers sub.
  induction questions as [|q rest IH]; intros answers sub Hget; cbn.
  - now rewrite set_get.
  - unfold set_answer. rewrite Hget. cbn.
    rewrite (IH _ (Py.set (Question.id q) (sample_answer hash q) sub))
      by apply get_set_eq.
    now rewrite set_set.
Qed.

Lemma hash_sample_loop_spec items answers :
  GenerateSampleAnswers.generate_sample_answers_loop hash items answers =
  Some (fold_left Py.set_item
          (map (fun kd =>
                  (fst kd,
                   Py.dict_of_items
                     (map (fun q => (Question.id q, sample_answer hash q))
                        (Domain.questions (snd kd)))))
             items)
          answers).
Proof.
  revert answers. induction items as [|[id d] items IH]; intros answers;
    cbn; [reflexivity|].
  rewrite (sample_questions_spec _ _ _ []) by apply get_set_eq.
  cbn. rewrite set_set. apply IH.
Qed.

(** The script's sample never fails on a missing key; its result is the
    dict of the domains, each with the dict of its questions' answers; an
    answer depends on the question's id and type only; and for a question
    of a known type it is a rating from 1 to 5 or a bool, for any other
    type [None]. *)
Theorem hash_sample_answers (domains : Py.dict Domain.t) :
  GenerateSampleAnswers.generate_sample_answers hash domains =
  Some (Py.dict_of_items
          (map (fun kd =>
                  (fst kd,
                   Py.dict_of_items
                     (map (fun q => (Question.id q, sample_answer hash q))
                        (Domain.questions (snd kd)))))
             domains)) /\
  (forall q, valid_type q = true -> sample_value (sample_answer hash q)) /\
  (forall q, valid_type q = false -> sample_answer hash q = Py.None_) /\
  (forall q q', Question.id q = Question.id q' ->
                Question.type q = Question.type q' ->
                sample_answer hash q = sample_answer hash q').
Proof.
  split; [apply hash_sample_loop_spec|]. split; [|split].
  - intros q Hv. unfold valid_type in Hv. unfold sample_answer.
    destruct (String.eqb (Question.type q) "stars").
    + left. eexists. split; [reflexivity|].
      pose proof (Z.mod_pos_bound (hash (Question.id q)) 5). lia.
    + cbn in Hv. rewrite Hv. right. eauto.
  - intros q Hv. unfold valid_type in Hv. unfold sample_answer.
    apply orb_false_iff in Hv as [-> ->]. reflexivity.
  - intros q q' Hid Hty. unfold sample_answer. now rewrite Hid, Hty.
Qed.

End HashSampleFacts.

(* ================================================================== *)
(** * The answers as displayed and as scored *)
(* ================================================================== *)

Section Display.
Local Open Scope float_scope.
Variable str_ : Py.value -> string.

Lemma append_not_dash (s : string) : String.append s "/5" <> "-"%string.
Proof.
  destruct s as [|c [|c' s]]; cbn; discriminate.
Qed.

(** The table of questions and the score read the same answer.  On a
    yes/no question the table shows "Oui" only for [True] and "Non" only
    for [False], which score 100 and 0; every other answer is shown as
    "-", also an affirmative string, which scores 100.  On a rating
    question "-" stands for [None] alone, which scores 0. *)
Theorem format_answer_vs_score (q : Question.t) (ans : Py.value) :
  (Question.type q = "boolean"%string ->
     (format_answer str_ ans (Question.type q) = "Oui"%string <->
      ans = Py.Bool true) /\
     (format_answer str_ ans (Question.type q) = "Non"%string <->
      ans = Py.Bool false) /\
     (format_answer str_ ans (Question.type q) = "-"%string <->
      forall b, ans <> Py.Bool b) /\
     (ans = Py.Bool true -> score_question q ans = Ok 100.0) /\
     (ans = Py.Bool false -> score_question q ans = Ok 0.0) /\
     (forall s, ans = Py.Str s ->
        In (Py.lower (Py.strip s)) affirmative_tokens ->
        format_answer str_ ans (Question.type q) = "-"%string /\
        score_question q ans = Ok 100.0)) /\
  (Question.type q = "stars"%string ->
     (format_answer str_ ans (Question.type q) = "-"%string <->
      ans = Py.None_) /\
     (ans = Py.None_ -> score_question q ans = Ok 0.0) /\
     (ans <> Py.None_ ->
      format_answer str_ ans (Question.type q) =
        String.append (str_ ans) "/5")).
Proof.
  split; intros Ht; unfold format_answer, score_question; rewrite Ht;
    cbn [String.eqb Ascii.eqb Bool.eqb].
  - split; [|split; [|split; [|split; [|split]]]].
    + destruct ans as [|[]| | | |]; split; congruence.
    + destruct ans as [|[]| | | |]; split; congruence.
    + destruct ans as [|[]| | | |]; split; try congruence;
        try (intros H; exfalso; eapply H; reflexivity).
    + now intros ->.
    + now intros ->.
    + intros s -> Hin%in_tokens_spec. now rewrite Hin.
  - split; [|split].
    + destruct ans; split; try congruence;
        intros H; exfalso; exact (append_not_dash _ H).
    + now intros ->.
    + destruct ans; congruence.
Qed.

End Display.

Lemma format_answer_vs_score_witness :
  let str_ (v : Py.value) :=
    match v with Py.Int 4%Z => "4"%string | _ => "?"%string end in
  let q := Question.mk "q" "boolean" "" 1.0 in
  let r := Question.mk "r" "stars" "" 1.0 in
  (format_answer str_ (Py.Str " Oui ") "boolean" = "-"%string /\
   score_question q (Py.Str " Oui ") = Ok 100.0%float) /\
  format_answer str_ (Py.Int 4%Z) "stars" = "4/5"%string.
Proof.
  intros str_ q r. split.
  - destruct (format_answer_vs_score str_ q (Py.Str " Oui "))
      as [Hb _].
    destruct (Hb eq_refl) as (_ & _ & _ & _ & _ & Hs).
    apply (Hs " Oui "%string eq_refl). vm_compute. tauto.
  - destruct (format_answer_vs_score str_ r (Py.Int 4%Z)) as [_ Hr].
    destruct (Hr eq_refl) as (_ & _ & Hf).
    apply Hf. discriminate.
Defined.

(* ================================================================== *)
(** * The results of the builder are the caller's own *)
(* ================================================================== *)

Section BuilderExtras.
Variables (DOMAINS_COMMON SECTORS : loc).

Abbreviation build' := (build_domains_for_sector DOMAINS_COMMON SECTORS).

(** A sequence of assignments to objects of the store. *)
Let written (writes : list (loc * obj)) (h : heap) : heap :=
  fold_left (fun s w => <[fst w := snd w]> s) writes h.

Lemma preserved_written h0 writes h :
  Forall (fun w => length h0 <= fst w) writes ->
  preserved h0 h -> preserved h0 (written writes h).
Proof.
  intros Hw. revert h. induction Hw as [|w writes Hl _ IH]; intros h Hp;
    [exact Hp|].
  cbn. apply IH. now apply preserved_insert.
Qed.

Lemma length_written writes h : length (written writes h) = length h.
Proof.
  revert h. induction writes as [|w writes IH]; intros h; cbn;
    [reflexivity|].
  unfold written in IH. now rewrite IH, length_insert.
Qed.

(** Whatever a caller then assigns to the objects that a call created,
    the catalogue stays as it was and the next call returns the whole
    questionnaire again, in objects of its own. *)
Theorem build_survives_mutation h common sectors sector_id o h1
    (writes : list (loc * obj)) :
  catalogue_at h DOMAINS_COMMON SECTORS common sectors ->
  build' sector_id h = (o, h1) ->
  Forall (fun w => length h <= fst w) writes ->
  catalogue_at (fold_left (fun s w => <[fst w := snd w]> s) writes h1)
    DOMAINS_COMMON SECTORS common sectors /\
  exists o2 h2,
    build' sector_id
      (fold_left (fun s w => <[fst w := snd w]> s) writes h1) = (o2, h2) /\
    match questionnaire common sectors sector_id with
    | Ok q =>
        (exists r, o = Ok r /\ fresh_from (length h) h1 r) /\
        exists r2, o2 = Ok r2 /\ domains_at h2 r2 = Some q /\
                   fresh_from (length h1) h2 r2
    | Raise e => o = Raise e /\ o2 = Raise e
    end.
Proof.
  intros Hcat E Hw. fold (written writes h1).
  destruct (build_spec _ _ h common sectors sector_id Hcat)
    as (o' & h' & E' & Hp & Ho).
  rewrite E in E'. injection E' as <- <-.
  pose proof (preserved_written h writes h1 Hw Hp) as Hp'.
  pose proof (catalogue_at_preserved _ _ _ _ _ _ Hp' Hcat) as Hcat'.
  split; [exact Hcat'|].
  destruct (build_spec _ _ _ common sectors sector_id Hcat')
    as (o2 & h2 & E2 & _ & Ho2).
  exists o2, h2. split; [exact E2|].
  rewrite length_written in Ho2.
  destruct (questionnaire common sectors sector_id) as [q|e].
  - destruct Ho as (r & -> & _ & Hf). split; [eauto | exact Ho2].
  - split; assumption.
Qed.

End BuilderExtras.

Lemma build_survives_mutation_witness :
  exists r h1 r2 h2,
    build_domains_for_sector 7 14 (Some "tech"%string) example_store
    = (Ok r, h1) /\
    build_domains_for_sector 7 14 (Some "tech"%string)
      (<[r := OList []]> h1) = (Ok r2, h2) /\
    (domains_at h2 r2 ≫= Py.get "si") =
      Some (Domain.mk "si" "SI" "" [si_1; si_701]).
Proof.
  assert (catalogue_at example_store 7 14 example_common example_sectors)
    as Hcat by (split; reflexivity).
  destruct (build_domains_for_sector 7 14 (Some "tech"%string) example_store)
    as [o h1] eqn:E.
  assert (exists r, o = Ok r /\ length example_store <= r) as (r & -> & Hr).
  { vm_compute in E. injection E as <- _. eexists. split; [reflexivity|].
    vm_compute. lia. }
  destruct (build_survives_mutation 7 14 example_store example_common
              example_sectors (Some "tech"%string) (Ok r) h1
              [(r, OList [])] Hcat E)
    as (_ & o2 & h2 & E2 & _ & r2 & -> & Hr2 & _).
  { repeat constructor. exact Hr. }
  exists r, h1, r2, h2. split; [reflexivity|]. split; [exact E2|].
  rewrite Hr2. reflexivity.
Defined.

Section Sharing.
Variables (DOMAINS_COMMON SECTORS : loc).

Lemma domains_at_defined h l c : domains_at h l = Some c -> defined_at h l.
Proof.
  unfold domains_at, dict_at, defined_at.
  destruct (h !! l) as [[| | | |entries]|] eqn:E; try discriminate.
  intros H. exists entries. split; [reflexivity|].
  apply mapM_Some in H. clear E.
  induction H as [|e kd ents c' He _ IH]; constructor; [|exact IH].
  unfold entry_at, domain_at in He.
  destruct (h !! snd e) as [[| |id label description qs| |]|] eqn:Ed;
    try discriminate.
  unfold questions_at in He.
  destruct (h !! qs) as [[|items| | |]|] eqn:Eq; try discriminate.
  destruct (mapM (question_at h) items) as [vs|] eqn:Em; [|discriminate].
  exists id, label, description, qs, items.
  split; [reflexivity|]. split; [exact Eq|].
  apply mapM_Some in Em. clear -Em.
  induction Em as [|a q ? ? Ha _ IH']; constructor; [|exact IH'].
  apply question_at_Some in Ha. eauto.
Qed.

Lemma objects_of_bound h l :
  defined_at h l -> Forall (fun a => a < length h) (objects_of h l).
Proof.
  intros (entries & E & H). unfold objects_of. rewrite E.
  constructor; [now apply lookup_lt_Some in E|]. clear E.
  induction H as [|e ents (id & label & description & qs & items
                            & Ed & Eq & Hi) _ IH]; cbn; [constructor|].
  rewrite Ed, Eq. constructor; [now apply lookup_lt_Some in Ed|].
  constructor; [now apply lookup_lt_Some in Eq|].
  apply Forall_app. split; [|exact IH].
  eapply Forall_impl; [exact Hi|]. cbn. intros a [o Ha].
  now apply lookup_lt_Some in Ha.
Qed.

Lemma objects_of_preserved h h' l :
  defined_at h l -> preserved h h' -> objects_of h' l = objects_of h l.
Proof.
  intros (entries & E & H) Hp. unfold objects_of.
  rewrite E, (Hp _ _ E). f_equal. clear E.
  induction H as [|e ents (id & label & description & qs & items
                            & Ed & Eq & Hi) _ IH]; cbn; [reflexivity|].
  now rewrite Ed, Eq, (Hp _ _ Ed), (Hp _ _ Eq), IH.
Qed.

Lemma objects_of_fresh n h l :
  fresh_from n h l -> Forall (fun a => n <= a) (objects_of h l).
Proof.
  intros (Hn & entries & E & H). unfold objects_of. rewrite E.
  constructor; [exact Hn|]. clear E.
  induction H as [|e ents (He & id & label & description & qs & items
                            & Ed & Hq & Eq & Hi) _ IH]; cbn; [constructor|].
  rewrite Ed, Eq. constructor; [exact He|]. constructor; [exact Hq|].
  apply Forall_app. split; [exact Hi | exact IH].
Qed.

(** Two calls share nothing: no dict, domain, question list or question
    of one result belongs to the other result or to the catalogue. *)
Theorem build_results_disjoint h common sectors sid1 sid2 r1 h1 r2 h2 :
  catalogue_at h DOMAINS_COMMON SECTORS common sectors ->
  build_domains_for_sector DOMAINS_COMMON SECTORS sid1 h = (Ok r1, h1) ->
  build_domains_for_sector DOMAINS_COMMON SECTORS sid2 h1 = (Ok r2, h2) ->
  forall a,
    (In a (objects_of h2 r1) -> ~ In a (objects_of h2 r2)) /\
    (In a (objects_of h2 DOMAINS_COMMON) ->
     ~ In a (objects_of h2 r1) /\ ~ In a (objects_of h2 r2)).
Proof.
  intros Hcat E1 E2.
  destruct (build_spec _ _ h common sectors sid1 Hcat)
    as (o & h' & E & Hp1 & Ho1).
  rewrite E1 in E. injection E as <- <-.
  pose proof (catalogue_at_preserved _ _ _ _ _ _ Hp1 Hcat) as Hcat1.
  destruct (build_spec _ _ h1 common sectors sid2 Hcat1)
    as (o & h' & E & Hp2 & Ho2).
  rewrite E2 in E. injection E as <- <-.
  destruct (questionnaire common sectors sid1) as [q1|e];
    [|discriminate].
  destruct Ho1 as (r & [= <-] & Hq1 & Hf1).
  destruct (questionnaire common sectors sid2) as [q2|e];
    [|discriminate].
  destruct Ho2 as (r & [= <-] & Hq2 & Hf2).
  pose proof (domains_at_defined _ _ _ Hq1) as Hd1.
  pose proof (domains_at_defined _ _ _ (proj1 Hcat)) as Hdc.
  pose proof (objects_of_fresh _ _ _ Hf1) as Hge1.
  pose proof (objects_of_fresh _ _ _ Hf2) as Hge2.
  pose proof (objects_of_bound _ _ Hd1) as Hlt1.
  pose proof (objects_of_bound _ _ Hdc) as Hltc.
  rewrite <- (objects_of_preserved h1 h2 r1 Hd1 Hp2) in Hge1, Hlt1.
  rewrite <- (objects_of_preserved h h2 DOMAINS_COMMON Hdc
                (preserved_trans _ _ _ Hp1 Hp2)) in Hltc.
  pose proof (preserved_length _ _ Hp1) as Hlen.
  rewrite Forall_forall in Hge1, Hge2, Hlt1, Hltc.
  intros a. split.
  - intros H1%list_elem_of_In%Hlt1 H2%list_elem_of_In%Hge2. lia.
  - intros Hc%list_elem_of_In%Hltc. split.
    + intros H1%list_elem_of_In%Hge1. lia.
    + intros H2%list_elem_of_In%Hge2. lia.
Qed.

End Sharing.

Lemma build_results_disjoint_witness :
  exists r1 h1 r2 h2,
    build_domains_for_sector 7 14 (Some "tech"%string) example_store
    = (Ok r1, h1) /\
    build_domains_for_sector 7 14 None h1 = (Ok r2, h2) /\
    forall a, In a (objects_of h2 r1) -> ~ In a (objects_of h2 r2).
Proof.
  assert (catalogue_at example_store 7 14 example_common example_sectors)
    as Hcat by (split; reflexivity).
  destruct (build_domains_for_sector 7 14 (Some "tech"%string) example_store)
    as [o1 h1] eqn:E1.
  assert (exists r1, o1 = Ok r1) as [r1 ->]
    by (vm_compute in E1; injection E1 as <- _; eauto).
  destruct (build_domains_for_sector 7 14 None h1) as [o2 h2] eqn:E2.
  assert (exists r2, o2 = Ok r2) as [r2 ->].
  { vm_compute in E1. injection E1 as _ <-. vm_compute in E2.
    injection E2 as <- _. eauto. }
  exists r1, h1, r2, h2. split; [reflexivity|]. split; [exact E2|].
  intros a.
  apply (build_results_disjoint 7 14 example_store example_common
           example_sectors _ _ r1 h1 r2 h2 Hcat E1 E2 a).
Defined.
